(** * BFQ I/O scheduler: request chooser, charging, burst detection,
      weight raising on activation and the weight-counter tree

    A shallow embedding of [block/bfq-iosched.c].  Pointers are addresses
    ([nat]) with [None] for NULL, structures are records, C integers are
    [Z] with the wrap-around of their width written out, and the functions
    that change the device or a queue pass the state explicitly.

    The structure declarations live in [bfq.h] and in the block layer
    headers; the field widths used below are those of a 64-bit build
    ([unsigned long] and [sector_t] of 64 bits, [int] and [unsigned int]
    of 32 bits).  Functions defined in other files ([bfq-sched.c],
    [elevator.c], [lib/rbtree.c]) are section variables, constrained only
    by what the proofs need of them. *)

From Stdlib Require Import ZArith Lia Bool List.
From stdpp Require Import gmap list sorting.

Local Open Scope Z_scope.

(** ** Machine integers *)

Definition u32 (x : Z) : Z := x mod 2 ^ 32.
Definition u64 (x : Z) : Z := x mod 2 ^ 64.

(** The value of a 64-bit pattern read as [long]. *)
Definition s64 (x : Z) : Z :=
  let y := u64 x in if y <? 2 ^ 63 then y else y - 2 ^ 64.

(** The value of a 32-bit pattern read as [int]. *)
Definition s32 (x : Z) : Z :=
  let y := u32 x in if y <? 2 ^ 31 then y else y - 2 ^ 32.

(** A C truth value. *)
Definition b2z (b : bool) : Z := if b then 1 else 0.

(** [time_after(a, b)] is [(long)((b) - (a)) < 0]. *)
Definition time_after (a b : Z) : bool := s64 (b - a) <? 0.
Definition time_before (a b : Z) : bool := time_after b a.
Definition time_is_before_jiffies (jiffies a : Z) : bool := time_after jiffies a.

(** [max_t(unsigned long, a, b)] *)
Definition max_ulong (a b : Z) : Z :=
  let a' := u64 a in let b' := u64 b in if b' <? a' then a' else b'.

(** ** Tunables and constants *)

Definition bfq_async_charge_factor : Z := 10.
Definition BFQ_RQ1_WRAP : Z := 1.
Definition BFQ_RQ2_WRAP : Z := 2.

(** ** Data *)

(** The fields of [struct request] the scheduler reads. *)
Record request : Type := Build_request {
  cmd_flags : Z;
  __sector : Z;    (* sector_t *)
  __data_len : Z   (* unsigned int, bytes *)
}.

Definition blk_rq_pos (rq : request) : Z := __sector rq.
Definition blk_rq_bytes (rq : request) : Z := __data_len rq.
Definition blk_rq_sectors (rq : request) : Z := Z.shiftr (blk_rq_bytes rq) 9.

(** [entity->tree] compared with the trees of the entity's service tree. *)
Inductive entity_tree : Type := NoTree | ActiveTree | IdleTree.

Definition entity_tree_eqb (a b : entity_tree) : bool :=
  match a, b with
  | NoTree, NoTree | ActiveTree, ActiveTree | IdleTree, IdleTree => true
  | _, _ => false
  end.

Record bfq_entity : Type := Build_bfq_entity {
  budget : Z;  (* unsigned long *)
  prio_changed : Z;  (* int *)
  tree : entity_tree;  (* which tree of its service tree holds the entity *)
  weight : Z;
  weight_counter : option nat  (* NULL is None *)
}.

Definition set_budget (v : Z) (x : bfq_entity) : bfq_entity :=
  {| budget := v; prio_changed := prio_changed x; tree := tree x;
     weight := weight x; weight_counter := weight_counter x |}.

Definition set_prio_changed (v : Z) (x : bfq_entity) : bfq_entity :=
  {| budget := budget x; prio_changed := v; tree := tree x;
     weight := weight x; weight_counter := weight_counter x |}.

Definition set_weight_counter (v : option nat) (x : bfq_entity) : bfq_entity :=
  {| budget := budget x; prio_changed := prio_changed x; tree := tree x;
     weight := weight x; weight_counter := v |}.

Record bfq_queue : Type := Build_bfq_queue {
  entity : bfq_entity;  (* embedded struct *)
  sort_list : list nat;  (* requests of the queue *)
  next_rq : option nat;
  queued : Z * Z;  (* queued[0] async, queued[1] sync *)
  max_budget : Z;  (* unsigned long *)
  flag_busy : bool;
  flag_sync : bool;
  flag_IO_bound : bool;
  flag_in_large_burst : bool;
  flag_softrt_update : bool;
  budget_timeout : Z;  (* unsigned long *)
  requests_within_timer : Z;  (* unsigned int *)
  bic : option nat;
  wr_coeff : Z;  (* unsigned int *)
  wr_cur_max_time : Z;  (* unsigned long *)
  soft_rt_next_start : Z;  (* unsigned long *)
  last_wr_start_finish : Z;  (* unsigned long *)
  last_idle_bklogged : Z;  (* unsigned long *)
  service_from_backlogged : Z  (* unsigned long *)
}.

Definition set_entity (v : bfq_entity) (x : bfq_queue) : bfq_queue :=
  {| entity := v; sort_list := sort_list x; next_rq := next_rq x;
     queued := queued x; max_budget := max_budget x;
     flag_busy := flag_busy x; flag_sync := flag_sync x;
     flag_IO_bound := flag_IO_bound x;
     flag_in_large_burst := flag_in_large_burst x;
     flag_softrt_update := flag_softrt_update x;
     budget_timeout := budget_timeout x;
     requests_within_timer := requests_within_timer x; bic := bic x;
     wr_coeff := wr_coeff x; wr_cur_max_time := wr_cur_max_time x;
     soft_rt_next_start := soft_rt_next_start x;
     last_wr_start_finish := last_wr_start_finish x;
     last_idle_bklogged := last_idle_bklogged x;
     service_from_backlogged := service_from_backlogged x |}.

Definition set_sort_list (v : list nat) (x : bfq_queue) : bfq_queue :=
  {| entity := entity x; sort_list := v; next_rq := next_rq x;
     queued := queued x; max_budget := max_budget x;
     flag_busy := flag_busy x; flag_sync := flag_sync x;
     flag_IO_bound := flag_IO_bound x;
     flag_in_large_burst := flag_in_large_burst x;
     flag_softrt_update := flag_softrt_update x;
     budget_timeout := budget_timeout x;
     requests_within_timer := requests_within_timer x; bic := bic x;
     wr_coeff := wr_coeff x; wr_cur_max_time := wr_cur_max_time x;
     soft_rt_next_start := soft_rt_next_start x;
     last_wr_start_finish := last_wr_start_finish x;
     last_idle_bklogged := last_idle_bklogged x;
     service_from_backlogged := service_from_backlogged x |}.

Definition set_next_rq (v : option nat) (x : bfq_queue) : bfq_queue :=
  {| entity := entity x; sort_list := sort_list x; next_rq := v;
     queued := queued x; max_budget := max_budget x;
     flag_busy := flag_busy x; flag_sync := flag_sync x;
     flag_IO_bound := flag_IO_bound x;
     flag_in_large_burst := flag_in_large_burst x;
     flag_softrt_update := flag_softrt_update x;
     budget_timeout := budget_timeout x;
     requests_within_timer := requests_within_timer x; bic := bic x;
     wr_coeff := wr_coeff x; wr_cur_max_time := wr_cur_max_time x;
     soft_rt_next_start := soft_rt_next_start x;
     last_wr_start_finish := last_wr_start_finish x;
     last_idle_bklogged := last_idle_bklogged x;
     service_from_backlogged := service_from_backlogged x |}.

Definition set_queued (v : Z * Z) (x : bfq_queue) : bfq_queue :=
  {| entity := entity x; sort_list := sort_list x; next_rq := next_rq x;
     queued := v; max_budget := max_budget x; flag_busy := flag_busy x;
     flag_sync := flag_sync x; flag_IO_bound := flag_IO_bound x;
     flag_in_large_burst := flag_in_large_burst x;
     flag_softrt_update := flag_softrt_update x;
     budget_timeout := budget_timeout x;
     requests_within_timer := requests_within_timer x; bic := bic x;
     wr_coeff := wr_coeff x; wr_cur_max_time := wr_cur_max_time x;
     soft_rt_next_start := soft_rt_next_start x;
     last_wr_start_finish := last_wr_start_finish x;
     last_idle_bklogged := last_idle_bklogged x;
     service_from_backlogged := service_from_backlogged x |}.

Definition set_flag_busy (v : bool) (x : bfq_queue) : bfq_queue :=
  {| entity := entity x; sort_list := sort_list x; next_rq := next_rq x;
     queued := queued x; max_budget := max_budget x; flag_busy := v;
     flag_sync := flag_sync x; flag_IO_bound := flag_IO_bound x;
     flag_in_large_burst := flag_in_large_burst x;
     flag_softrt_update := flag_softrt_update x;
     budget_timeout := budget_timeout x;
     requests_within_timer := requests_within_timer x; bic := bic x;
     wr_coeff := wr_coeff x; wr_cur_max_time := wr_cur_max_time x;
     soft_rt_next_start := soft_rt_next_start x;
     last_wr_start_finish := last_wr_start_finish x;
     last_idle_bklogged := last_idle_bklogged x;
     service_from_backlogged := service_from_backlogged x |}.

Definition set_flag_IO_bound (v : bool) (x : bfq_queue) : bfq_queue :=
  {| entity := entity x; sort_list := sort_list x; next_rq := next_rq x;
     queued := queued x; max_budget := max_budget x;
     flag_busy := flag_busy x; flag_sync := flag_sync x; flag_IO_bound := v;
     flag_in_large_burst := flag_in_large_burst x;
     flag_softrt_update := flag_softrt_update x;
     budget_timeout := budget_timeout x;
     requests_within_timer := requests_within_timer x; bic := bic x;
     wr_coeff := wr_coeff x; wr_cur_max_time := wr_cur_max_time x;
     soft_rt_next_start := soft_rt_next_start x;
     last_wr_start_finish := last_wr_start_finish x;
     last_idle_bklogged := last_idle_bklogged x;
     service_from_backlogged := service_from_backlogged x |}.

Definition set_flag_in_large_burst (v : bool) (x : bfq_queue) : bfq_queue :=
  {| entity := entity x; sort_list := sort_list x; next_rq := next_rq x;
     queued := queued x; max_budget := max_budget x;
     flag_busy := flag_busy x; flag_sync := flag_sync x;
     flag_IO_bound := flag_IO_bound x; flag_in_large_burst := v;
     flag_softrt_update := flag_softrt_update x;
     budget_timeout := budget_timeout x;
     requests_within_timer := requests_within_timer x; bic := bic x;
     wr_coeff := wr_coeff x; wr_cur_max_time := wr_cur_max_time x;
     soft_rt_next_start := soft_rt_next_start x;
     last_wr_start_finish := last_wr_start_finish x;
     last_idle_bklogged := last_idle_bklogged x;
     service_from_backlogged := service_from_backlogged x |}.

Definition set_flag_softrt_update (v : bool) (x : bfq_queue) : bfq_queue :=
  {| entity := entity x; sort_list := sort_list x; next_rq := next_rq x;
     queued := queued x; max_budget := max_budget x;
     flag_busy := flag_busy x; flag_sync := flag_sync x;
     flag_IO_bound := flag_IO_bound x;
     flag_in_large_burst := flag_in_large_burst x; flag_softrt_update := v;
     budget_timeout := budget_timeout x;
     requests_within_timer := requests_within_timer x; bic := bic x;
     wr_coeff := wr_coeff x; wr_cur_max_time := wr_cur_max_time x;
     soft_rt_next_start := soft_rt_next_start x;
     last_wr_start_finish := last_wr_start_finish x;
     last_idle_bklogged := last_idle_bklogged x;
     service_from_backlogged := service_from_backlogged x |}.

Definition set_requests_within_timer (v : Z) (x : bfq_queue) : bfq_queue :=
  {| entity := entity x; sort_list := sort_list x; next_rq := next_rq x;
     queued := queued x; max_budget := max_budget x;
     flag_busy := flag_busy x; flag_sync := flag_sync x;
     flag_IO_bound := flag_IO_bound x;
     flag_in_large_burst := flag_in_large_burst x;
     flag_softrt_update := flag_softrt_update x;
     budget_timeout := budget_timeout x; requests_within_timer := v;
     bic := bic x; wr_coeff := wr_coeff x;
     wr_cur_max_time := wr_cur_max_time x;
     soft_rt_next_start := soft_rt_next_start x;
     last_wr_start_finish := last_wr_start_finish x;
     last_idle_bklogged := last_idle_bklogged x;
     service_from_backlogged := service_from_backlogged x |}.

Definition set_wr_coeff (v : Z) (x : bfq_queue) : bfq_queue :=
  {| entity := entity x; sort_list := sort_list x; next_rq := next_rq x;
     queued := queued x; max_budget := max_budget x;
     flag_busy := flag_busy x; flag_sync := flag_sync x;
     flag_IO_bound := flag_IO_bound x;
     flag_in_large_burst := flag_in_large_burst x;
     flag_softrt_update := flag_softrt_update x;
     budget_timeout := budget_timeout x;
     requests_within_timer := requests_within_timer x; bic := bic x;
     wr_coeff := v; wr_cur_max_time := wr_cur_max_time x;
     soft_rt_next_start := soft_rt_next_start x;
     last_wr_start_finish := last_wr_start_finish x;
     last_idle_bklogged := last_idle_bklogged x;
     service_from_backlogged := service_from_backlogged x |}.

Definition set_wr_cur_max_time (v : Z) (x : bfq_queue) : bfq_queue :=
  {| entity := entity x; sort_list := sort_list x; next_rq := next_rq x;
     queued := queued x; max_budget := max_budget x;
     flag_busy := flag_busy x; flag_sync := flag_sync x;
     flag_IO_bound := flag_IO_bound x;
     flag_in_large_burst := flag_in_large_burst x;
     flag_softrt_update := flag_softrt_update x;
     budget_timeout := budget_timeout x;
     requests_within_timer := requests_within_timer x; bic := bic x;
     wr_coeff := wr_coeff x; wr_cur_max_time := v;
     soft_rt_next_start := soft_rt_next_start x;
     last_wr_start_finish := last_wr_start_finish x;
     last_idle_bklogged := last_idle_bklogged x;
     service_from_backlogged := service_from_backlogged x |}.

Definition set_last_wr_start_finish (v : Z) (x : bfq_queue) : bfq_queue :=
  {| entity := entity x; sort_list := sort_list x; next_rq := next_rq x;
     queued := queued x; max_budget := max_budget x;
     flag_busy := flag_busy x; flag_sync := flag_sync x;
     flag_IO_bound := flag_IO_bound x;
     flag_in_large_burst := flag_in_large_burst x;
     flag_softrt_update := flag_softrt_update x;
     budget_timeout := budget_timeout x;
     requests_within_timer := requests_within_timer x; bic := bic x;
     wr_coeff := wr_coeff x; wr_cur_max_time := wr_cur_max_time x;
     soft_rt_next_start := soft_rt_next_start x; last_wr_start_finish := v;
     last_idle_bklogged := last_idle_bklogged x;
     service_from_backlogged := service_from_backlogged x |}.

Definition set_last_idle_bklogged (v : Z) (x : bfq_queue) : bfq_queue :=
  {| entity := entity x; sort_list := sort_list x; next_rq := next_rq x;
     queued := queued x; max_budget := max_budget x;
     flag_busy := flag_busy x; flag_sync := flag_sync x;
     flag_IO_bound := flag_IO_bound x;
     flag_in_large_burst := flag_in_large_burst x;
     flag_softrt_update := flag_softrt_update x;
     budget_timeout := budget_timeout x;
     requests_within_timer := requests_within_timer x; bic := bic x;
     wr_coeff := wr_coeff x; wr_cur_max_time := wr_cur_max_time x;
     soft_rt_next_start := soft_rt_next_start x;
     last_wr_start_finish := last_wr_start_finish x; last_idle_bklogged := v;
     service_from_backlogged := service_from_backlogged x |}.

Definition set_service_from_backlogged (v : Z) (x : bfq_queue) : bfq_queue :=
  {| entity := entity x; sort_list := sort_list x; next_rq := next_rq x;
     queued := queued x; max_budget := max_budget x;
     flag_busy := flag_busy x; flag_sync := flag_sync x;
     flag_IO_bound := flag_IO_bound x;
     flag_in_large_burst := flag_in_large_burst x;
     flag_softrt_update := flag_softrt_update x;
     budget_timeout := budget_timeout x;
     requests_within_timer := requests_within_timer x; bic := bic x;
     wr_coeff := wr_coeff x; wr_cur_max_time := wr_cur_max_time x;
     soft_rt_next_start := soft_rt_next_start x;
     last_wr_start_finish := last_wr_start_finish x;
     last_idle_bklogged := last_idle_bklogged x;
     service_from_backlogged := v |}.

Record bfq_data : Type := Build_bfq_data {
  bfqqs : gmap nat bfq_queue;  (* the queues of the device, by address *)
  bfqd_queued : Z;  (* int queued *)
  wr_busy_queues : Z;  (* int *)
  in_service_queue : option nat;
  in_service_entity : option nat;  (* sched_data->in_service_entity *)
  last_position : Z;  (* sector_t *)
  peak_rate : Z;  (* u64 *)
  bfq_back_penalty : Z;  (* unsigned int *)
  bfq_back_max : Z;  (* unsigned int, KiB *)
  bfq_slice_idle : Z;  (* unsigned int *)
  bfq_requests_within_timer : Z;  (* unsigned int *)
  last_ins_in_burst : Z;  (* unsigned long *)
  bfq_burst_interval : Z;  (* unsigned long *)
  burst_size : Z;  (* int *)
  bfq_large_burst_thresh : Z;  (* unsigned long *)
  large_burst : bool;
  burst_list : list nat;  (* hlist of queues, head first *)
  low_latency : bool;
  bfq_wr_coeff : Z;  (* unsigned int *)
  bfq_wr_max_time : Z;  (* unsigned int *)
  bfq_wr_rt_max_time : Z;  (* unsigned int *)
  bfq_wr_min_idle_time : Z;  (* unsigned int *)
  bfq_wr_min_inter_arr_async : Z;  (* unsigned long *)
  bfq_wr_max_softrt_rate : Z;  (* unsigned int *)
  RT_prod : Z  (* u64 *)
}.

Definition set_bfqqs (v : gmap nat bfq_queue) (x : bfq_data) : bfq_data :=
  {| bfqqs := v; bfqd_queued := bfqd_queued x;
     wr_busy_queues := wr_busy_queues x;
     in_service_queue := in_service_queue x;
     in_service_entity := in_service_entity x;
     last_position := last_position x; peak_rate := peak_rate x;
     bfq_back_penalty := bfq_back_penalty x; bfq_back_max := bfq_back_max x;
     bfq_slice_idle := bfq_slice_idle x;
     bfq_requests_within_timer := bfq_requests_within_timer x;
     last_ins_in_burst := last_ins_in_burst x;
     bfq_burst_interval := bfq_burst_interval x; burst_size := burst_size x;
     bfq_large_burst_thresh := bfq_large_burst_thresh x;
     large_burst := large_burst x; burst_list := burst_list x;
     low_latency := low_latency x; bfq_wr_coeff := bfq_wr_coeff x;
     bfq_wr_max_time := bfq_wr_max_time x;
     bfq_wr_rt_max_time := bfq_wr_rt_max_time x;
     bfq_wr_min_idle_time := bfq_wr_min_idle_time x;
     bfq_wr_min_inter_arr_async := bfq_wr_min_inter_arr_async x;
     bfq_wr_max_softrt_rate := bfq_wr_max_softrt_rate x;
     RT_prod := RT_prod x |}.

Definition set_bfqd_queued (v : Z) (x : bfq_data) : bfq_data :=
  {| bfqqs := bfqqs x; bfqd_queued := v; wr_busy_queues := wr_busy_queues x;
     in_service_queue := in_service_queue x;
     in_service_entity := in_service_entity x;
     last_position := last_position x; peak_rate := peak_rate x;
     bfq_back_penalty := bfq_back_penalty x; bfq_back_max := bfq_back_max x;
     bfq_slice_idle := bfq_slice_idle x;
     bfq_requests_within_timer := bfq_requests_within_timer x;
     last_ins_in_burst := last_ins_in_burst x;
     bfq_burst_interval := bfq_burst_interval x; burst_size := burst_size x;
     bfq_large_burst_thresh := bfq_large_burst_thresh x;
     large_burst := large_burst x; burst_list := burst_list x;
     low_latency := low_latency x; bfq_wr_coeff := bfq_wr_coeff x;
     bfq_wr_max_time := bfq_wr_max_time x;
     bfq_wr_rt_max_time := bfq_wr_rt_max_time x;
     bfq_wr_min_idle_time := bfq_wr_min_idle_time x;
     bfq_wr_min_inter_arr_async := bfq_wr_min_inter_arr_async x;
     bfq_wr_max_softrt_rate := bfq_wr_max_softrt_rate x;
     RT_prod := RT_prod x |}.

Definition set_wr_busy_queues (v : Z) (x : bfq_data) : bfq_data :=
  {| bfqqs := bfqqs x; bfqd_queued := bfqd_queued x; wr_busy_queues := v;
     in_service_queue := in_service_queue x;
     in_service_entity := in_service_entity x;
     last_position := last_position x; peak_rate := peak_rate x;
     bfq_back_penalty := bfq_back_penalty x; bfq_back_max := bfq_back_max x;
     bfq_slice_idle := bfq_slice_idle x;
     bfq_requests_within_timer := bfq_requests_within_timer x;
     last_ins_in_burst := last_ins_in_burst x;
     bfq_burst_interval := bfq_burst_interval x; burst_size := burst_size x;
     bfq_large_burst_thresh := bfq_large_burst_thresh x;
     large_burst := large_burst x; burst_list := burst_list x;
     low_latency := low_latency x; bfq_wr_coeff := bfq_wr_coeff x;
     bfq_wr_max_time := bfq_wr_max_time x;
     bfq_wr_rt_max_time := bfq_wr_rt_max_time x;
     bfq_wr_min_idle_time := bfq_wr_min_idle_time x;
     bfq_wr_min_inter_arr_async := bfq_wr_min_inter_arr_async x;
     bfq_wr_max_softrt_rate := bfq_wr_max_softrt_rate x;
     RT_prod := RT_prod x |}.

Definition set_last_ins_in_burst (v : Z) (x : bfq_data) : bfq_data :=
  {| bfqqs := bfqqs x; bfqd_queued := bfqd_queued x;
     wr_busy_queues := wr_busy_queues x;
     in_service_queue := in_service_queue x;
     in_service_entity := in_service_entity x;
     last_position := last_position x; peak_rate := peak_rate x;
     bfq_back_penalty := bfq_back_penalty x; bfq_back_max := bfq_back_max x;
     bfq_slice_idle := bfq_slice_idle x;
     bfq_requests_within_timer := bfq_requests_within_timer x;
     last_ins_in_burst := v; bfq_burst_interval := bfq_burst_interval x;
     burst_size := burst_size x;
     bfq_large_burst_thresh := bfq_large_burst_thresh x;
     large_burst := large_burst x; burst_list := burst_list x;
     low_latency := low_latency x; bfq_wr_coeff := bfq_wr_coeff x;
     bfq_wr_max_time := bfq_wr_max_time x;
     bfq_wr_rt_max_time := bfq_wr_rt_max_time x;
     bfq_wr_min_idle_time := bfq_wr_min_idle_time x;
     bfq_wr_min_inter_arr_async := bfq_wr_min_inter_arr_async x;
     bfq_wr_max_softrt_rate := bfq_wr_max_softrt_rate x;
     RT_prod := RT_prod x |}.

Definition set_burst_size (v : Z) (x : bfq_data) : bfq_data :=
  {| bfqqs := bfqqs x; bfqd_queued := bfqd_queued x;
     wr_busy_queues := wr_busy_queues x;
     in_service_queue := in_service_queue x;
     in_service_entity := in_service_entity x;
     last_position := last_position x; peak_rate := peak_rate x;
     bfq_back_penalty := bfq_back_penalty x; bfq_back_max := bfq_back_max x;
     bfq_slice_idle := bfq_slice_idle x;
     bfq_requests_within_timer := bfq_requests_within_timer x;
     last_ins_in_burst := last_ins_in_burst x;
     bfq_burst_interval := bfq_burst_interval x; burst_size := v;
     bfq_large_burst_thresh := bfq_large_burst_thresh x;
     large_burst := large_burst x; burst_list := burst_list x;
     low_latency := low_latency x; bfq_wr_coeff := bfq_wr_coeff x;
     bfq_wr_max_time := bfq_wr_max_time x;
     bfq_wr_rt_max_time := bfq_wr_rt_max_time x;
     bfq_wr_min_idle_time := bfq_wr_min_idle_time x;
     bfq_wr_min_inter_arr_async := bfq_wr_min_inter_arr_async x;
     bfq_wr_max_softrt_rate := bfq_wr_max_softrt_rate x;
     RT_prod := RT_prod x |}.

Definition set_large_burst (v : bool) (x : bfq_data) : bfq_data :=
  {| bfqqs := bfqqs x; bfqd_queued := bfqd_queued x;
     wr_busy_queues := wr_busy_queues x;
     in_service_queue := in_service_queue x;
     in_service_entity := in_service_entity x;
     last_position := last_position x; peak_rate := peak_rate x;
     bfq_back_penalty := bfq_back_penalty x; bfq_back_max := bfq_back_max x;
     bfq_slice_idle := bfq_slice_idle x;
     bfq_requests_within_timer := bfq_requests_within_timer x;
     last_ins_in_burst := last_ins_in_burst x;
     bfq_burst_interval := bfq_burst_interval x; burst_size := burst_size x;
     bfq_large_burst_thresh := bfq_large_burst_thresh x; large_burst := v;
     burst_list := burst_list x; low_latency := low_latency x;
     bfq_wr_coeff := bfq_wr_coeff x; bfq_wr_max_time := bfq_wr_max_time x;
     bfq_wr_rt_max_time := bfq_wr_rt_max_time x;
     bfq_wr_min_idle_time := bfq_wr_min_idle_time x;
     bfq_wr_min_inter_arr_async := bfq_wr_min_inter_arr_async x;
     bfq_wr_max_softrt_rate := bfq_wr_max_softrt_rate x;
     RT_prod := RT_prod x |}.

Definition set_burst_list (v : list nat) (x : bfq_data) : bfq_data :=
  {| bfqqs := bfqqs x; bfqd_queued := bfqd_queued x;
     wr_busy_queues := wr_busy_queues x;
     in_service_queue := in_service_queue x;
     in_service_entity := in_service_entity x;
     last_position := last_position x; peak_rate := peak_rate x;
     bfq_back_penalty := bfq_back_penalty x; bfq_back_max := bfq_back_max x;
     bfq_slice_idle := bfq_slice_idle x;
     bfq_requests_within_timer := bfq_requests_within_timer x;
     last_ins_in_burst := last_ins_in_burst x;
     bfq_burst_interval := bfq_burst_interval x; burst_size := burst_size x;
     bfq_large_burst_thresh := bfq_large_burst_thresh x;
     large_burst := large_burst x; burst_list := v;
     low_latency := low_latency x; bfq_wr_coeff := bfq_wr_coeff x;
     bfq_wr_max_time := bfq_wr_max_time x;
     bfq_wr_rt_max_time := bfq_wr_rt_max_time x;
     bfq_wr_min_idle_time := bfq_wr_min_idle_time x;
     bfq_wr_min_inter_arr_async := bfq_wr_min_inter_arr_async x;
     bfq_wr_max_softrt_rate := bfq_wr_max_softrt_rate x;
     RT_prod := RT_prod x |}.
(** The flag accessors that [BFQ_BFQQ_FNS] generates. *)
Definition bfq_bfqq_busy := flag_busy.
Definition bfq_bfqq_sync := flag_sync.
Definition bfq_bfqq_IO_bound := flag_IO_bound.
Definition bfq_bfqq_in_large_burst := flag_in_large_burst.
Definition bfq_mark_bfqq_IO_bound := set_flag_IO_bound true.
Definition bfq_mark_bfqq_in_large_burst := set_flag_in_large_burst true.
Definition bfq_clear_bfqq_in_large_burst := set_flag_in_large_burst false.
Definition bfq_clear_bfqq_softrt_update := set_flag_softrt_update false.

(** A store through the queue pointer [q]. *)
Definition upd_bfqq (q : nat) (f : bfq_queue -> bfq_queue) (bfqd : bfq_data)
  : bfq_data :=
  set_bfqqs (alter f q (bfqqs bfqd)) bfqd.

(** ** Choosing the next request *)

Section Chooser.

(** The request an address holds, and the two tests on its flags that the
    block layer headers define. *)
Variable rq_at : nat -> request.
Variable REQ_META : Z.
Variable rq_is_sync : request -> bool.

Definition rq_is_meta (rq : request) : bool :=
  negb (Z.land (cmd_flags rq) REQ_META =? 0).

(** [back_max = bfqd->bfq_back_max * 2], an [unsigned int] product widened
    to [unsigned long]. *)
Definition back_max_of (bfqd : bfq_data) : Z := u32 (bfq_back_max bfqd * 2).

(** The distance of a request starting at [s] from the head at [last], and
    the wrap bit [bit] when the request is too far behind the head.  The
    source has this block once for each of the two requests. *)
Definition bfq_seek (bfqd : bfq_data) (last s bit : Z) : Z * Z :=
  if last <=? s then (u64 (s - last), 0)
  else if last <=? u64 (s + back_max_of bfqd)
       then (u64 (u64 (last - s) * bfq_back_penalty bfqd), 0)
       else (0, bit).

Definition bfq_choose_req (bfqd : bfq_data) (rq1 rq2 : option nat) (last : Z)
  : option nat :=
  match rq1, rq2 with
  | None, _ => rq2
  | Some p1, None => rq1
  | Some p1, Some p2 =>
    if Nat.eqb p1 p2 then rq2
    else
      let r1 := rq_at p1 in
      let r2 := rq_at p2 in
      if rq_is_sync r1 && negb (rq_is_sync r2) then rq1
      else if rq_is_sync r2 && negb (rq_is_sync r1) then rq2
      else if rq_is_meta r1 && negb (rq_is_meta r2) then rq1
      else if rq_is_meta r2 && negb (rq_is_meta r1) then rq2
      else
        let s1 := blk_rq_pos r1 in
        let s2 := blk_rq_pos r2 in
        let '(d1, w1) := bfq_seek bfqd last s1 BFQ_RQ1_WRAP in
        let '(d2, w2) := bfq_seek bfqd last s2 BFQ_RQ2_WRAP in
        let wrap := Z.lor w1 w2 in
        if wrap =? 0 then
          if d1 <? d2 then rq1
          else if d2 <? d1 then rq2
          else if s2 <=? s1 then rq1 else rq2
        else if wrap =? BFQ_RQ2_WRAP then rq1
        else if wrap =? BFQ_RQ1_WRAP then rq2
        else if s1 <=? s2 then rq1 else rq2
  end.

(** The distance of the claim about the chooser, in unbounded integers:
    [None] stands for a wrap-around. *)
Definition spec_distance (back_max penalty last s : Z) : option Z :=
  if last <=? s then Some (s - last)
  else if last - s <=? back_max then Some ((last - s) * penalty)
  else None.

End Chooser.

(** ** Charging *)

Definition bfq_serv_to_charge (rq : request) (bfqq : bfq_queue) : Z :=
  u32 (blk_rq_sectors rq *
       (1 + b2z (negb (bfq_bfqq_sync bfqq)) * b2z (wr_coeff bfqq =? 1) *
            bfq_async_charge_factor)).

(** ** Burst detection *)

(** The burst list is an intrusive [hlist] threaded through the queues'
    [burst_list_node]; a queue is on no other list, so its node is hashed
    exactly when the queue is in [bfqd->burst_list]. *)
Definition hlist_unhashed (q : nat) (bfqd : bfq_data) : bool :=
  negb (bool_decide (q ∈ burst_list bfqd)).

Definition hlist_del_init (q : nat) (bfqd : bfq_data) : bfq_data :=
  set_burst_list (filter (λ x, x ≠ q) (burst_list bfqd)) bfqd.

Definition hlist_add_head (q : nat) (bfqd : bfq_data) : bfq_data :=
  set_burst_list (q :: burst_list bfqd) bfqd.

(** A flag read through the queue pointer [q]. *)
Definition in_large_burst_at (q : nat) (bfqd : bfq_data) : bool :=
  match bfqqs bfqd !! q with
  | Some bfqq => bfq_bfqq_in_large_burst bfqq
  | None => false
  end.

Definition bfq_reset_burst_list (bfqd : bfq_data) (q : nat) : bfq_data :=
  set_burst_size 1 (hlist_add_head q (set_burst_list [] bfqd)).

(** [hlist_for_each_entry] over [l], marking every item. *)
Fixpoint mark_burst_list (l : list nat) (bfqd : bfq_data) : bfq_data :=
  match l with
  | [] => bfqd
  | item :: l' =>
    mark_burst_list l' (upd_bfqq item bfq_mark_bfqq_in_large_burst bfqd)
  end.

Definition bfq_add_to_burst (bfqd : bfq_data) (q : nat) : bfq_data :=
  let bfqd := set_burst_size (s32 (burst_size bfqd + 1)) bfqd in
  if u64 (burst_size bfqd) =? bfq_large_burst_thresh bfqd then
    let bfqd := set_large_burst true bfqd in
    let bfqd := mark_burst_list (burst_list bfqd) bfqd in
    let bfqd := upd_bfqq q bfq_mark_bfqq_in_large_burst bfqd in
    set_burst_list [] bfqd
  else hlist_add_head q bfqd.

Definition bfq_handle_burst (jiffies : Z) (bfqd : bfq_data) (q : nat)
    (idle_for_long_time : bool) : bfq_data :=
  let bfqd :=
    if idle_for_long_time
    then upd_bfqq q bfq_clear_bfqq_in_large_burst (hlist_del_init q bfqd)
    else bfqd in
  if negb (hlist_unhashed q bfqd) || in_large_burst_at q bfqd then bfqd
  else if time_is_before_jiffies jiffies
            (u64 (last_ins_in_burst bfqd + bfq_burst_interval bfqd))
  then bfq_reset_burst_list (set_large_burst false bfqd) q
  else if large_burst bfqd
  then upd_bfqq q bfq_mark_bfqq_in_large_burst bfqd
  else bfq_add_to_burst bfqd q.

(** ** Weight-raising duration *)

(** [do_div] divides by the low 32 bits of the rate; the result is
    returned as [unsigned int]. *)
Definition bfq_wr_duration (bfqd : bfq_data) : Z :=
  if 0 <? bfq_wr_max_time bfqd then bfq_wr_max_time bfqd
  else u32 (u64 (RT_prod bfqd) / u32 (peak_rate bfqd)).

(** ** Request arrival *)

Section Arrival.

Variable rq_at : nat -> request.
Variable REQ_META : Z.
Variable rq_is_sync : request -> bool.

(** [RQ_BIC(rq)->ttime.last_end_request] *)
Variable last_end_request : request -> Z.

(** [elv_rb_add] of [elevator.c]. *)
Variable elv_rb_add : list nat -> nat -> list nat.

(** [bfq_activate_bfqq] and [bfq_add_bfqq_busy] of [bfq-sched.c]. *)
Variable bfq_activate_bfqq : bfq_data -> nat -> bfq_data.
Variable bfq_add_bfqq_busy : bfq_data -> nat -> bfq_data.

(** [None] is a [BUG_ON] that fires, or a queue pointer that holds no
    queue. *)
Definition bfq_updated_next_req (bfqd : bfq_data) (q : nat)
  : option bfq_data :=
  match bfqqs bfqd !! q with
  | None => None
  | Some bfqq =>
    match next_rq bfqq with
    | None => Some bfqd
    | Some next =>
      if bool_decide (in_service_queue bfqd = Some q) then Some bfqd
      else if negb (entity_tree_eqb (tree (entity bfqq)) ActiveTree) then None
      else if bool_decide (in_service_entity bfqd = Some q) then None
      else
        let new_budget :=
          max_ulong (max_budget bfqq)
                    (bfq_serv_to_charge (rq_at next) bfqq) in
        if budget (entity bfqq) =? new_budget then Some bfqd
        else
          Some (bfq_activate_bfqq
                  (upd_bfqq q (λ b, set_entity (set_budget new_budget (entity b)) b)
                            bfqd) q)
    end
  end.

(** [bfqq->queued[rq_is_sync(rq)]++] *)
Definition queued_incr (sync : bool) (n : Z * Z) : Z * Z :=
  if sync then (fst n, s32 (snd n + 1)) else (s32 (fst n + 1), snd n).

(** The update of [requests_within_timer] and of the [IO_bound] flag. *)
Definition io_bound_update (jiffies : Z) (bfqd : bfq_data) (rq : request)
    (bfqq : bfq_queue) : bfq_queue :=
  if bfq_bfqq_IO_bound bfqq then bfqq
  else if time_before jiffies (u64 (last_end_request rq + bfq_slice_idle bfqd))
  then
    let bfqq :=
      set_requests_within_timer (u32 (requests_within_timer bfqq + 1)) bfqq in
    if bfq_requests_within_timer bfqd <=? requests_within_timer bfqq
    then bfq_mark_bfqq_IO_bound bfqq else bfqq
  else set_requests_within_timer 0 bfqq.

(** The weight-raising decision taken when an idle queue gets backlogged
    and [low_latency] is on. *)
Definition wr_on_activation (jiffies : Z) (bfqd : bfq_data)
    (old_wr_coeff : Z) (interactive soft_rt in_burst : bool)
    (bfqq : bfq_queue) : bfq_queue :=
  if (old_wr_coeff =? 1) && (interactive || soft_rt) &&
     (negb (bfq_bfqq_sync bfqq) || bool_decide (bic bfqq ≠ None))
  then
    let bfqq := set_wr_coeff (bfq_wr_coeff bfqd) bfqq in
    if interactive
    then set_wr_cur_max_time (bfq_wr_duration bfqd) bfqq
    else set_wr_cur_max_time (bfq_wr_rt_max_time bfqd) bfqq
  else if 1 <? old_wr_coeff then
    if interactive
    then set_wr_cur_max_time (bfq_wr_duration bfqd) bfqq
    else if in_burst ||
            ((wr_cur_max_time bfqq =? bfq_wr_rt_max_time bfqd) && negb soft_rt)
    then set_wr_coeff 1 bfqq
    else if time_before
              (u64 (last_wr_start_finish bfqq + wr_cur_max_time bfqq))
              (u64 (jiffies + bfq_wr_rt_max_time bfqd)) && soft_rt
    then
      set_wr_cur_max_time (bfq_wr_rt_max_time bfqd)
        (set_last_wr_start_finish jiffies bfqq)
    else bfqq
  else bfqq.

(** The queue fields that the idle branch of [bfq_add_request] sets
    between burst handling and the call of [bfq_add_bfqq_busy]. *)
Definition add_request_idle_fields (jiffies : Z) (bfqd : bfq_data)
    (rq : request) (next : nat) (old_wr_coeff : Z)
    (idle_for_long_time : bool) (bfqq : bfq_queue) : bfq_queue :=
  let in_burst := bfq_bfqq_in_large_burst bfqq in
  let soft_rt :=
    (0 <? bfq_wr_max_softrt_rate bfqd) && negb in_burst &&
    time_is_before_jiffies jiffies (soft_rt_next_start bfqq) in
  let interactive := negb in_burst && idle_for_long_time in
  let bfqq :=
    set_entity
      (set_budget (max_ulong (max_budget bfqq)
                             (bfq_serv_to_charge (rq_at next) bfqq))
                  (entity bfqq)) bfqq in
  let bfqq := io_bound_update jiffies bfqd rq bfqq in
  let bfqq :=
    if negb (low_latency bfqd) then bfqq
    else
      let bfqq :=
        wr_on_activation jiffies bfqd old_wr_coeff interactive soft_rt
                         in_burst bfqq in
      if negb (old_wr_coeff =? wr_coeff bfqq)
      then set_entity (set_prio_changed 1 (entity bfqq)) bfqq
      else bfqq in
  (* add_bfqq_busy: *)
  let bfqq := set_last_idle_bklogged jiffies bfqq in
  let bfqq := set_service_from_backlogged 0 bfqq in
  bfq_clear_bfqq_softrt_update bfqq.

(** The branch of [bfq_add_request] for a queue that is not busy: the
    queue [q], which already holds the request and its new [next_rq]
    [next], goes from idle to busy. *)
Definition add_request_idle (jiffies : Z) (bfqd : bfq_data) (q : nat)
    (rq : request) (next : nat) (old_wr_coeff : Z) (bfqq0 : bfq_queue)
  : option bfq_data :=
  let idle_for_long_time :=
    time_is_before_jiffies jiffies
      (u64 (budget_timeout bfqq0 + bfq_wr_min_idle_time bfqd)) in
  let bfqd :=
    if bfq_bfqq_sync bfqq0 then
      let already_in_burst :=
        negb (hlist_unhashed q bfqd) || in_large_burst_at q bfqd in
      let bfqd := bfq_handle_burst jiffies bfqd q idle_for_long_time in
      if negb already_in_burst then set_last_ins_in_burst jiffies bfqd
      else bfqd
    else bfqd in
  match bfqqs bfqd !! q with
  | None => None
  | Some bfqq =>
    let bfqq :=
      add_request_idle_fields jiffies bfqd rq next old_wr_coeff
                              idle_for_long_time bfqq in
    Some (bfq_add_bfqq_busy (set_bfqqs (<[q := bfqq]> (bfqqs bfqd)) bfqd) q)
  end.

(** The branch for a queue that is already busy. *)
Definition add_request_busy (jiffies : Z) (bfqd : bfq_data) (q : nat)
    (rq : request) (prev : option nat) (old_wr_coeff : Z) (bfqq : bfq_queue)
  : option bfq_data :=
  let bfqd :=
    if low_latency bfqd && (old_wr_coeff =? 1) && negb (rq_is_sync rq) &&
       time_is_before_jiffies jiffies
         (u64 (last_wr_start_finish bfqq + bfq_wr_min_inter_arr_async bfqd))
    then
      let bfqq := set_wr_coeff (bfq_wr_coeff bfqd) bfqq in
      let bfqq := set_wr_cur_max_time (bfq_wr_duration bfqd) bfqq in
      let bfqq := set_entity (set_prio_changed 1 (entity bfqq)) bfqq in
      set_wr_busy_queues (s32 (wr_busy_queues bfqd + 1))
        (set_bfqqs (<[q := bfqq]> (bfqqs bfqd)) bfqd)
    else bfqd in
  if bool_decide (prev ≠ next_rq bfqq)
  then bfq_updated_next_req bfqd q
  else Some bfqd.

(** [bfq_add_request(rq)], with [rq] at address [p] and [q] the queue
    [RQ_BFQQ(rq)] of the device [bfqd], up to the call of
    [bfq_updated_next_req] that ends the busy branch. *)
Definition bfq_add_request (jiffies : Z) (bfqd : bfq_data) (p q : nat)
  : option bfq_data :=
  match bfqqs bfqd !! q with
  | None => None
  | Some bfqq =>
    let rq := rq_at p in
    let old_wr_coeff := wr_coeff bfqq in
    let bfqq := set_queued (queued_incr (rq_is_sync rq) (queued bfqq)) bfqq in
    let bfqd := set_bfqd_queued (s32 (bfqd_queued bfqd + 1)) bfqd in
    let bfqq := set_sort_list (elv_rb_add (sort_list bfqq) p) bfqq in
    let prev := next_rq bfqq in
    match bfq_choose_req rq_at REQ_META rq_is_sync bfqd (next_rq bfqq)
                         (Some p) (last_position bfqd) with
    | None => None
    | Some next =>
      let bfqq := set_next_rq (Some next) bfqq in
      let bfqd := set_bfqqs (<[q := bfqq]> (bfqqs bfqd)) bfqd in
      if negb (bfq_bfqq_busy bfqq)
      then add_request_idle jiffies bfqd q rq next old_wr_coeff bfqq
      else add_request_busy jiffies bfqd q rq prev old_wr_coeff bfqq
    end
  end.

End Arrival.

(** ** The weight-counter tree *)

(** A counter embeds its tree node, so a node of the tree is a counter,
    known by its address. *)
Record bfq_weight_counter : Type := Build_bfq_weight_counter {
  cnt_weight : Z;
  num_active : Z   (* unsigned int *)
}.

Inductive rb_root : Type :=
| RbNil
| RbNode (rb_left : rb_root) (addr : nat) (counter : bfq_weight_counter)
         (rb_right : rb_root).

Definition RB_EMPTY_ROOT (root : rb_root) : bool :=
  match root with RbNil => true | RbNode _ _ _ _ => false end.

(** The counters of a tree, from left to right. *)
Fixpoint rb_inorder (t : rb_root) : list (nat * bfq_weight_counter) :=
  match t with
  | RbNil => []
  | RbNode l a c r => rb_inorder l ++ (a, c) :: rb_inorder r
  end.

Definition rb_addrs (t : rb_root) : list nat := fst <$> rb_inorder t.
Definition rb_weights (t : rb_root) : list Z :=
  (λ n, cnt_weight (snd n)) <$> rb_inorder t.

(** The descent loop of [bfq_weights_tree_add]: the address of the counter
    of weight [w], when the descent meets one. *)
Fixpoint weights_tree_walk (w : Z) (t : rb_root) : option nat :=
  match t with
  | RbNil => None
  | RbNode l a c r =>
    if w =? cnt_weight c then Some a
    else if w <? cnt_weight c then weights_tree_walk w l
    else weights_tree_walk w r
  end.

(** [rb_link_node] at the empty link where that descent ended. *)
Fixpoint rb_link_node (w : Z) (a : nat) (c : bfq_weight_counter)
    (t : rb_root) : rb_root :=
  match t with
  | RbNil => RbNode RbNil a c RbNil
  | RbNode l b d r =>
    if w <? cnt_weight d then RbNode (rb_link_node w a c l) b d r
    else RbNode l b d (rb_link_node w a c r)
  end.

(** A load and a store through a counter pointer. *)
Fixpoint rb_find (a : nat) (t : rb_root) : option bfq_weight_counter :=
  match t with
  | RbNil => None
  | RbNode l b c r =>
    if Nat.eqb a b then Some c
    else match rb_find a l with
         | Some d => Some d
         | None => rb_find a r
         end
  end.

Fixpoint rb_update (a : nat) (f : bfq_weight_counter -> bfq_weight_counter)
    (t : rb_root) : rb_root :=
  match t with
  | RbNil => RbNil
  | RbNode l b c r =>
    RbNode (rb_update a f l) b (if Nat.eqb a b then f c else c)
           (rb_update a f r)
  end.

Definition num_active_incr (c : bfq_weight_counter) : bfq_weight_counter :=
  {| cnt_weight := cnt_weight c; num_active := u32 (num_active c + 1) |}.

Definition num_active_decr (c : bfq_weight_counter) : bfq_weight_counter :=
  {| cnt_weight := cnt_weight c; num_active := u32 (num_active c - 1) |}.

Section WeightsTree.

(** [rb_insert_color] and [rb_erase] of [lib/rbtree.c], given the address
    of the node. *)
Variable rb_insert_color : nat -> rb_root -> rb_root.
Variable rb_erase : nat -> rb_root -> rb_root.

(** [kzalloc] is the address the allocator returns, [None] when it
    fails; the result is [None] when the code dereferences NULL or a
    [BUG_ON] fires. *)
Definition bfq_weights_tree_add (kzalloc : option nat) (entity : bfq_entity)
    (root : rb_root) : option (bfq_entity * rb_root) :=
  match weight_counter entity with
  | Some _ => Some (entity, root)
  | None =>
    match weights_tree_walk (weight entity) root with
    | Some a =>
      Some (set_weight_counter (Some a) entity,
            rb_update a num_active_incr root)
    | None =>
      match kzalloc with
      | None => None
      | Some a =>
        let c := {| cnt_weight := weight entity; num_active := 0 |} in
        let root := rb_link_node (weight entity) a c root in
        let root := rb_insert_color a root in
        Some (set_weight_counter (Some a) entity,
              rb_update a num_active_incr root)
      end
    end
  end.

Definition bfq_weights_tree_remove (entity : bfq_entity) (root : rb_root)
  : option (bfq_entity * rb_root) :=
  match weight_counter entity with
  | None => Some (entity, root)
  | Some a =>
    if RB_EMPTY_ROOT root then None
    else
      match rb_find a root with
      | None => None
      | Some c =>
        if negb (cnt_weight c =? weight entity) then None
        else if num_active c =? 0 then None
        else
          let root := rb_update a num_active_decr root in
          if 0 <? u32 (num_active c - 1)
          then Some (set_weight_counter None entity, root)
          else Some (set_weight_counter None entity, rb_erase a root)
      end
  end.

(** *** The entities of a device and their tree *)

Record weights_state : Type := Build_weights_state {
  entities : list bfq_entity;
  weights_tree : rb_root
}.

Inductive weights_op : Type :=
| OpAdd (i : nat) (kzalloc : option nat)
| OpRemove (i : nat).

Definition weights_step (op : weights_op) (s : weights_state)
  : option weights_state :=
  match op with
  | OpAdd i kzalloc =>
    match entities s !! i with
    | None => None
    | Some e =>
      match bfq_weights_tree_add kzalloc e (weights_tree s) with
      | None => None
      | Some (e', root') =>
        Some {| entities := <[i := e']> (entities s); weights_tree := root' |}
      end
    end
  | OpRemove i =>
    match entities s !! i with
    | None => None
    | Some e =>
      match bfq_weights_tree_remove e (weights_tree s) with
      | None => None
      | Some (e', root') =>
        Some {| entities := <[i := e']> (entities s); weights_tree := root' |}
      end
    end
  end.

(** The allocator never hands out the address of a counter in use. *)
Definition kzalloc_fresh (op : weights_op) (s : weights_state) : Prop :=
  match op with
  | OpAdd _ (Some a) => a ∉ rb_addrs (weights_tree s)
  | _ => True
  end.

(** The states a device reaches from an empty tree with no entity
    tracked. *)
Inductive weights_reachable : weights_state -> Prop :=
| reach_init (es : list bfq_entity) :
    Forall (λ e, weight_counter e = None) es ->
    weights_reachable {| entities := es; weights_tree := RbNil |}
| reach_step (op : weights_op) (s s' : weights_state) :
    weights_reachable s ->
    kzalloc_fresh op s ->
    weights_step op s = Some s' ->
    weights_reachable s'.

(** The weights of the entities that have a counter. *)
Definition tracked_weights (es : list bfq_entity) : list Z :=
  weight <$> filter (λ e, weight_counter e ≠ None) es.

(** The number of distinct weights among them. *)
Definition distinct_tracked_weights (es : list bfq_entity) : nat :=
  size (list_to_set (C := gset Z) (tracked_weights es)).

End WeightsTree.

(** A tree without rebalancing: [rb_insert_color] leaves the linked node
    where it is and [rb_erase] joins the two subtrees of the erased
    node. *)
Definition plain_insert_color (a : nat) (t : rb_root) : rb_root := t.

Fixpoint rb_join (l r : rb_root) : rb_root :=
  match l with
  | RbNil => r
  | RbNode ll b c lr => RbNode ll b c (rb_join lr r)
  end.

Fixpoint plain_erase (a : nat) (t : rb_root) : rb_root :=
  match t with
  | RbNil => RbNil
  | RbNode l b c r =>
    if Nat.eqb a b then rb_join (plain_erase a l) (plain_erase a r)
    else RbNode (plain_erase a l) b c (plain_erase a r)
  end.

(** ** A concrete device

    The default tunables, the flag bits of the block layer, and small
    devices on which the definitions are run. *)

Definition default_back_max : Z := 16 * 1024.
Definition default_back_penalty : Z := 2.

Definition REQ_WRITE_bit : Z := 0.
Definition REQ_SYNC_bit : Z := 4.
Definition REQ_META_mask : Z := Z.shiftl 1 5.

(** [rw_is_sync]: a read, or a write with the sync bit. *)
Definition rw_is_sync (rq : request) : bool :=
  negb (Z.testbit (cmd_flags rq) REQ_WRITE_bit) ||
  Z.testbit (cmd_flags rq) REQ_SYNC_bit.

Definition mk_rq (flags sector bytes : Z) : request :=
  {| cmd_flags := flags; __sector := sector; __data_len := bytes |}.

(** Requests at addresses 1 to 4; every other address holds an empty read. *)
Definition sample_rq_at (p : nat) : request :=
  match p with
  | 1%nat => mk_rq 0 2000 4096
  | 2%nat => mk_rq 0 900 4096
  | 3%nat => mk_rq 1 5000 8192
  | 4%nat => mk_rq 0 100 4096
  | _ => mk_rq 0 0 0
  end.

Definition sample_entity : bfq_entity :=
  {| budget := 0; prio_changed := 0; tree := ActiveTree; weight := 100;
     weight_counter := None |}.

Definition sample_bfqq (sync in_burst : bool) (coeff : Z) : bfq_queue :=
  {| entity := sample_entity; sort_list := []; next_rq := None;
     queued := (0, 0); max_budget := 16384; flag_busy := false;
     flag_sync := sync; flag_IO_bound := false;
     flag_in_large_burst := in_burst; flag_softrt_update := false;
     budget_timeout := 0; requests_within_timer := 0; bic := Some 1%nat;
     wr_coeff := coeff; wr_cur_max_time := 0; soft_rt_next_start := 0;
     last_wr_start_finish := 0; last_idle_bklogged := 0;
     service_from_backlogged := 0 |}.

Definition sample_bfqd (qs : gmap nat bfq_queue) (ll : bool) (size : Z)
    (large : bool) (l : list nat) : bfq_data :=
  {| bfqqs := qs; bfqd_queued := 0; wr_busy_queues := 0;
     in_service_queue := None; in_service_entity := None;
     last_position := 1000; peak_rate := 17415;
     bfq_back_penalty := default_back_penalty; bfq_back_max := 1000;
     bfq_slice_idle := 2; bfq_requests_within_timer := 120;
     last_ins_in_burst := 10000; bfq_burst_interval := 32;
     burst_size := size; bfq_large_burst_thresh := 8; large_burst := large;
     burst_list := l; low_latency := ll; bfq_wr_coeff := 30;
     bfq_wr_max_time := 0; bfq_wr_rt_max_time := 75;
     bfq_wr_min_idle_time := 500; bfq_wr_min_inter_arr_async := 125;
     bfq_wr_max_softrt_rate := 7000; RT_prod := 17415 * 1000 |}.

(** Stand-ins for the functions of the other files: the request is put at
    the head of the sort list, activation puts the entity on the active
    tree, and [bfq_add_bfqq_busy] activates the queue and marks it busy. *)
Definition sample_elv_rb_add (l : list nat) (p : nat) : list nat := p :: l.

Definition sample_activate_bfqq (bfqd : bfq_data) (q : nat) : bfq_data :=
  upd_bfqq q
    (λ b, set_entity {| budget := budget (entity b);
                        prio_changed := 0; tree := ActiveTree;
                        weight := weight (entity b);
                        weight_counter := weight_counter (entity b) |} b)
    bfqd.

Definition sample_add_bfqq_busy (bfqd : bfq_data) (q : nat) : bfq_data :=
  upd_bfqq q (set_flag_busy true) (sample_activate_bfqq bfqd q).

Definition sample_last_end_request (rq : request) : Z := 0.

(** A device in a burst of seven sync queues, an eighth about to join. *)
Definition burst_queues : gmap nat bfq_queue :=
  list_to_map
    (map (λ q, (q, sample_bfqq true false 1))
         [1; 2; 3; 4; 5; 6; 7; 8; 9]%nat).

Definition burst_bfqd : bfq_data :=
  sample_bfqd burst_queues true 7 false [7; 6; 5; 4; 3; 2; 1]%nat.

(** A device whose queue 7 is marked as part of a large burst and is
    weight-raised, with [low_latency] on or off. *)
Definition raised_bfqd (ll : bool) : bfq_data :=
  sample_bfqd {[ 7%nat := sample_bfqq true true 30 ]} ll 8 true [].

(** A tree of two counters, and three entities for an empty tree. *)
Definition sample_root : rb_root :=
  RbNode RbNil 1
         {| cnt_weight := 50; num_active := 2 |}
         (RbNode RbNil 2 {| cnt_weight := 200; num_active := 1 |} RbNil).

Definition sample_entities : list bfq_entity :=
  [sample_entity; sample_entity;
   {| budget := 0; prio_changed := 0; tree := ActiveTree; weight := 300;
      weight_counter := None |}].

(** ** Predicates of the proofs *)

(** Burst handling changes nothing of a queue but its [in_large_burst]
    flag, and leaves [low_latency] alone. *)
Definition burst_frame (st st' : bfq_data) : Prop :=
  low_latency st' = low_latency st /\
  forall q, exists b,
    bfqqs st' !! q = set_flag_in_large_burst b <$> bfqqs st !! q.

(** The weights of a tree increase strictly from left to right. *)
Definition rb_search_tree (t : rb_root) : Prop :=
  StronglySorted Z.lt (rb_weights t).

(** Every counter of the tree counts at least one entity, and one more
    fits in its [unsigned int]. *)
Definition rb_counters_in_use (t : rb_root) : Prop :=
  Forall (λ n, 0 < num_active (snd n) < 2 ^ 32 - 1) (rb_inorder t).

(** The effect of [rb_update] on a node. *)
Definition node_update (a : nat)
    (f : bfq_weight_counter -> bfq_weight_counter)
    (n : nat * bfq_weight_counter) : nat * bfq_weight_counter :=
  (fst n, if Nat.eqb a (fst n) then f (snd n) else snd n).

(** The number of entities whose [weight_counter] is [a]. *)
Definition pointed_by (a : nat) (es : list bfq_entity) : nat :=
  length (filter (λ e, weight_counter e = Some a) es).

(** The invariant of the entities and the counters [l] of their tree,
    from left to right: the weights increase strictly, the addresses are
    distinct, a counter counts the entities that point to it, of which
    there is at least one, and the counter of an entity is in the tree and
    has the weight of the entity. *)
Definition counters_inv (es : list bfq_entity)
    (l : list (nat * bfq_weight_counter)) : Prop :=
  StronglySorted Z.lt ((λ n, cnt_weight (snd n)) <$> l) /\
  NoDup (fst <$> l) /\
  (forall a c, (a, c) ∈ l ->
     num_active c = Z.of_nat (pointed_by a es) /\ 0 < num_active c) /\
  (forall e a, e ∈ es -> weight_counter e = Some a ->
     exists c, (a, c) ∈ l /\ cnt_weight c = weight e).

Definition weights_inv (s : weights_state) : Prop :=
  counters_inv (entities s) (rb_inorder (weights_tree s)).

(** ** The neighbours of a request in the sort tree

    [rb_next], [rb_prev] and [rb_first] of [lib/rbtree.c] on the in-order
    sequence of the sort tree of a queue, which [sort_list] holds; a node
    that is in no tree is an empty node. *)

Fixpoint rb_next (l : list nat) (p : nat) : option nat :=
  match l with
  | [] => None
  | x :: l' => if Nat.eqb x p then head l' else rb_next l' p
  end.

Fixpoint rb_prev (l : list nat) (p : nat) : option nat :=
  match l with
  | [] => None
  | x :: l' =>
    if Nat.eqb x p then None
    else match l' with
         | [] => None
         | y :: _ => if Nat.eqb y p then Some x else rb_prev l' p
         end
  end.

Definition rb_first (l : list nat) : option nat := head l.

Definition RB_EMPTY_NODE (l : list nat) (p : nat) : bool :=
  negb (bool_decide (p ∈ l)).

Section NextRequest.

Variable rq_at : nat -> request.
Variable REQ_META : Z.
Variable rq_is_sync : request -> bool.

(** The result is [None] when the [BUG_ON] fires; otherwise it holds the
    request pointer that the function returns. *)
Definition bfq_find_next_rq (bfqd : bfq_data) (bfqq : bfq_queue)
    (last : nat) : option (option nat) :=
  let rbnext := rb_next (sort_list bfqq) last in
  let rbprev := rb_prev (sort_list bfqq) last in
  if RB_EMPTY_NODE (sort_list bfqq) last then None
  else
    let prev := rbprev in
    let next :=
      match rbnext with
      | Some n => Some n
      | None =>
        match rb_first (sort_list bfqq) with
        | Some n => if Nat.eqb n last then None else Some n
        | None => None
        end
      end in
    Some (bfq_choose_req rq_at REQ_META rq_is_sync bfqd next prev
                         (blk_rq_pos (rq_at last))).

End NextRequest.

(** ** Differentiated weights *)

(** [root->rb_node->rb_left || root->rb_node->rb_right], read only for a
    root that is not empty. *)
Definition rb_node_has_child (root : rb_root) : bool :=
  match root with
  | RbNil => false
  | RbNode l _ _ r => negb (RB_EMPTY_ROOT l) || negb (RB_EMPTY_ROOT r)
  end.

(** [group_iosched] stands for [CONFIG_BFQ_GROUP_IOSCHED]. *)
Definition bfq_differentiated_weights (group_iosched : bool)
    (queue_weights_tree group_weights_tree : rb_root) : bool :=
  (negb (RB_EMPTY_ROOT queue_weights_tree) &&
   rb_node_has_child queue_weights_tree) ||
  (if group_iosched
   then negb (RB_EMPTY_ROOT group_weights_tree) &&
        rb_node_has_child group_weights_tree
   else false).

Definition bfq_symmetric_scenario (group_iosched : bool)
    (active_numerous_groups : Z)
    (queue_weights_tree group_weights_tree : rb_root) : bool :=
  (if group_iosched then active_numerous_groups =? 0 else true) &&
  negb (bfq_differentiated_weights group_iosched queue_weights_tree
                                   group_weights_tree).

(** ** Predicates of the further properties *)

(** The shape of the burst state: in large-burst mode there is no burst
    list; otherwise the list holds at most [burst_size] queues, and
    [burst_size] is below the threshold. *)
Definition burst_inv (st : bfq_data) : Prop :=
  (large_burst st = true -> burst_list st = []) /\
  (large_burst st = false ->
   Z.of_nat (length (burst_list st)) <= burst_size st
   /\ burst_size st < bfq_large_burst_thresh st).

(** The weight-raising state of a queue. *)
Definition wr_state (bfqq : bfq_queue) : Z * Z * Z :=
  (wr_coeff bfqq, wr_cur_max_time bfqq, last_wr_start_finish bfqq).

(** [f] keeps the weight-raising state of every queue. *)
Definition keeps_wr_state (f : bfq_data -> nat -> bfq_data) : Prop :=
  forall st q q',
    wr_state <$> bfqqs (f st q) !! q' = wr_state <$> bfqqs st !! q'.

(** ** More concrete data *)

(** A queue with three requests in its sort tree. *)
Definition three_rq_bfqq : bfq_queue :=
  set_sort_list [4; 2; 1]%nat (sample_bfqq true false 1).

(** The sample device with twice the peak rate. *)
Definition fast_bfqd : bfq_data :=
  {| bfqqs := ∅; bfqd_queued := 0; wr_busy_queues := 0;
     in_service_queue := None; in_service_entity := None;
     last_position := 1000; peak_rate := 34830;
     bfq_back_penalty := default_back_penalty; bfq_back_max := 1000;
     bfq_slice_idle := 2; bfq_requests_within_timer := 120;
     last_ins_in_burst := 10000; bfq_burst_interval := 32;
     burst_size := 0; bfq_large_burst_thresh := 8; large_burst := false;
     burst_list := []; low_latency := true; bfq_wr_coeff := 30;
     bfq_wr_max_time := 0; bfq_wr_rt_max_time := 75;
     bfq_wr_min_idle_time := 500; bfq_wr_min_inter_arr_async := 125;
     bfq_wr_max_softrt_rate := 7000; RT_prod := 17415 * 1000 |}.

(** A device whose queue 7 is busy and in service, with request 1 queued. *)
Definition in_service_bfqd : bfq_data :=
  {| bfqqs := {[ 7%nat := set_flag_busy true
                            (set_next_rq (Some 1%nat)
                               (set_sort_list [1%nat]
                                  (sample_bfqq true false 1))) ]};
     bfqd_queued := 1; wr_busy_queues := 0;
     in_service_queue := Some 7%nat; in_service_entity := Some 7%nat;
     last_position := 1000; peak_rate := 17415;
     bfq_back_penalty := default_back_penalty; bfq_back_max := 1000;
     bfq_slice_idle := 2; bfq_requests_within_timer := 120;
     last_ins_in_burst := 10000; bfq_burst_interval := 32;
     burst_size := 0; bfq_large_burst_thresh := 8; large_burst := false;
     burst_list := []; low_latency := true; bfq_wr_coeff := 30;
     bfq_wr_max_time := 0; bfq_wr_rt_max_time := 75;
     bfq_wr_min_idle_time := 500; bfq_wr_min_inter_arr_async := 125;
     bfq_wr_max_softrt_rate := 7000; RT_prod := 17415 * 1000 |}.

(** A device with one idle queue that is not weight-raised. *)
Definition idle_bfqd : bfq_data :=
  sample_bfqd {[ 7%nat := sample_bfqq true false 1 ]} true 0 false [].

(** The three sample entities after an add for each of them, with the
    allocator returning the addresses 1, 2 and 3 in turn: the first two
    entities share a counter. *)
Definition heavy_entity : bfq_entity :=
  {| budget := 0; prio_changed := 0; tree := ActiveTree; weight := 300;
     weight_counter := None |}.

Definition one_counter_state : weights_state :=
  {| entities := [set_weight_counter (Some 1%nat) sample_entity;
                  sample_entity; heavy_entity];
     weights_tree :=
       RbNode RbNil 1 {| cnt_weight := 100; num_active := 1 |} RbNil |}.

Definition shared_counter_state : weights_state :=
  {| entities := [set_weight_counter (Some 1%nat) sample_entity;
                  set_weight_counter (Some 1%nat) sample_entity;
                  heavy_entity];
     weights_tree :=
       RbNode RbNil 1 {| cnt_weight := 100; num_active := 2 |} RbNil |}.

Definition two_counter_state : weights_state :=
  {| entities := [set_weight_counter (Some 1%nat) sample_entity;
                  set_weight_counter (Some 1%nat) sample_entity;
                  set_weight_counter (Some 3%nat) heavy_entity];
     weights_tree :=
       RbNode RbNil 1 {| cnt_weight := 100; num_active := 2 |}
         (RbNode RbNil 3 {| cnt_weight := 300; num_active := 1 |} RbNil) |}.



(** The sample device with a given [RT_prod] and peak rate. *)
Definition rate_bfqd (prod rate : Z) : bfq_data :=
  {| bfqqs := ∅; bfqd_queued := 0; wr_busy_queues := 0;
     in_service_queue := None; in_service_entity := None;
     last_position := 1000; peak_rate := rate;
     bfq_back_penalty := default_back_penalty; bfq_back_max := 1000;
     bfq_slice_idle := 2; bfq_requests_within_timer := 120;
     last_ins_in_burst := 10000; bfq_burst_interval := 32;
     burst_size := 0; bfq_large_burst_thresh := 8; large_burst := false;
     burst_list := []; low_latency := true; bfq_wr_coeff := 30;
     bfq_wr_max_time := 0; bfq_wr_rt_max_time := 75;
     bfq_wr_min_idle_time := 500; bfq_wr_min_inter_arr_async := 125;
     bfq_wr_max_softrt_rate := 7000; RT_prod := prod |}.

(** * Properties *)

(** ** Machine integers *)

Lemma u64_small (x : Z) : 0 <= x < 2 ^ 64 -> u64 x = x.
Proof. intros H. unfold u64. apply Z.mod_small. exact H. Qed.

Lemma u32_small (x : Z) : 0 <= x < 2 ^ 32 -> u32 x = x.
Proof. intros H. unfold u32. apply Z.mod_small. exact H. Qed.

Lemma u32_range (x : Z) : 0 <= u32 x < 2 ^ 32.
Proof. unfold u32. apply Z.mod_pos_bound. lia. Qed.

Lemma u64_range (x : Z) : 0 <= u64 x < 2 ^ 64.
Proof. unfold u64. apply Z.mod_pos_bound. lia. Qed.

Lemma s32_small (x : Z) : 0 <= x < 2 ^ 31 -> s32 x = x.
Proof.
  intros H. unfold s32. rewrite u32_small by lia.
  destruct (Z.ltb_spec x (2 ^ 31)); lia.
Qed.

(** ** The chooser *)

Section ChooserFacts.

Variable rq_at : nat -> request.
Variable REQ_META : Z.
Variable rq_is_sync : request -> bool.

Local Abbreviation choose := (bfq_choose_req rq_at REQ_META rq_is_sync).
Local Abbreviation is_meta := (rq_is_meta REQ_META).

Lemma back_max_of_range (bfqd : bfq_data) : 0 <= back_max_of bfqd < 2 ^ 32.
Proof. apply u32_range. Qed.

(** Within the range of the sector type the machine distance is the
    distance in unbounded integers. *)
Lemma bfq_seek_spec (bfqd : bfq_data) (last s bit : Z) :
  0 <= last < 2 ^ 64 ->
  0 <= s -> s + back_max_of bfqd < 2 ^ 64 ->
  0 <= bfq_back_penalty bfqd < 2 ^ 32 ->
  bfq_seek bfqd last s bit =
  match spec_distance (back_max_of bfqd) (bfq_back_penalty bfqd) last s with
  | Some d => (d, 0)
  | None => (0, bit)
  end.
Proof.
  intros Hl Hs Hsb Hp. pose proof (back_max_of_range bfqd) as Hb.
  unfold bfq_seek, spec_distance.
  destruct (Z.leb_spec last s) as [Hle | Hlt].
  - rewrite u64_small by lia. reflexivity.
  - rewrite (u64_small (s + _)) by lia.
    destruct (Z.leb_spec last (s + back_max_of bfqd)) as [Hin | Hout];
      destruct (Z.leb_spec (last - s) (back_max_of bfqd)); try lia.
    + rewrite (u64_small (last - s)) by lia.
      rewrite u64_small; [reflexivity |].
      split; [nia |].
      assert ((last - s) * bfq_back_penalty bfqd < 2 ^ 32 * 2 ^ 32) by nia.
      lia.
    + reflexivity.
Qed.

(** The shape of a call on two distinct requests. *)
Lemma bfq_choose_req_distinct (bfqd : bfq_data) (p1 p2 : nat) (last : Z) :
  p1 <> p2 ->
  choose bfqd (Some p1) (Some p2) last =
  let r1 := rq_at p1 in
  let r2 := rq_at p2 in
  if rq_is_sync r1 && negb (rq_is_sync r2) then Some p1
  else if rq_is_sync r2 && negb (rq_is_sync r1) then Some p2
  else if is_meta r1 && negb (is_meta r2) then Some p1
  else if is_meta r2 && negb (is_meta r1) then Some p2
  else
    let s1 := blk_rq_pos r1 in
    let s2 := blk_rq_pos r2 in
    let '(d1, w1) := bfq_seek bfqd last s1 BFQ_RQ1_WRAP in
    let '(d2, w2) := bfq_seek bfqd last s2 BFQ_RQ2_WRAP in
    let wrap := Z.lor w1 w2 in
    if wrap =? 0 then
      if d1 <? d2 then Some p1
      else if d2 <? d1 then Some p2
      else if s2 <=? s1 then Some p1 else Some p2
    else if wrap =? BFQ_RQ2_WRAP then Some p1
    else if wrap =? BFQ_RQ1_WRAP then Some p2
    else if s1 <=? s2 then Some p1 else Some p2.
Proof.
  intros Hne. unfold bfq_choose_req.
  destruct (Nat.eqb_spec p1 p2) as [-> | _]; [contradiction | reflexivity].
Qed.

Lemma bfq_choose_req_one_of (bfqd : bfq_data) (rq1 rq2 : option nat)
    (last : Z) :
  choose bfqd rq1 rq2 last = rq1 \/ choose bfqd rq1 rq2 last = rq2.
Proof.
  unfold bfq_choose_req.
  destruct rq1 as [p1 |], rq2 as [p2 |]; auto.
  destruct (Nat.eqb p1 p2); auto.
  destruct (bfq_seek bfqd last (blk_rq_pos (rq_at p1)) BFQ_RQ1_WRAP) as [d1 w1].
  destruct (bfq_seek bfqd last (blk_rq_pos (rq_at p2)) BFQ_RQ2_WRAP) as [d2 w2].
  repeat match goal with
         | |- context [if ?b then _ else _] => destruct b; auto
         end.
Qed.

(** C9: the chooser returns one of its two arguments; it returns [rq2]
    when [rq1] is null or both are the same request, [rq1] when only
    [rq2] is null, and a request whenever it is given one. *)
Theorem bfq_choose_req_total (bfqd : bfq_data) (rq1 rq2 : option nat)
    (last : Z) :
  let chosen :=
    bfq_choose_req rq_at REQ_META rq_is_sync bfqd rq1 rq2 last in
  (chosen = rq1 \/ chosen = rq2) /\
  (rq1 = None \/ rq1 = rq2 -> chosen = rq2) /\
  (rq1 <> None -> rq2 = None -> chosen = rq1) /\
  (rq1 <> None \/ rq2 <> None -> chosen <> None).
Proof.
  cbv zeta. split; [apply bfq_choose_req_one_of |].
  split; [| split].
  - intros [-> | ->]; [reflexivity |].
    unfold bfq_choose_req. destruct rq2 as [p |]; [| reflexivity].
    rewrite Nat.eqb_refl. reflexivity.
  - intros Hn ->. destruct rq1; [reflexivity | contradiction].
  - intros Hsome Hnone.
    destruct (bfq_choose_req_one_of bfqd rq1 rq2 last) as [E | E];
      rewrite Hnone in E; subst.
    + destruct rq2 as [p |]; [discriminate Hnone | tauto].
    + destruct rq1 as [p |]; [discriminate Hnone | tauto].
Qed.

(** C1: between two distinct requests the chooser prefers the sync one,
    then the metadata one, then the one at the smaller distance from the
    head, a request beyond the backward allowance losing to one within
    reach; of two requests beyond the allowance it takes the one that
    starts at the smaller sector. *)
Theorem bfq_choose_req_preference (bfqd : bfq_data) (p1 p2 : nat)
    (last : Z) :
  let r1 := rq_at p1 in
  let r2 := rq_at p2 in
  let s1 := blk_rq_pos r1 in
  let s2 := blk_rq_pos r2 in
  let dist := spec_distance (back_max_of bfqd) (bfq_back_penalty bfqd) last in
  let is_meta := rq_is_meta REQ_META in
  let chosen :=
    bfq_choose_req rq_at REQ_META rq_is_sync bfqd (Some p1) (Some p2) last in
  p1 <> p2 ->
  0 <= last < 2 ^ 64 ->
  0 <= s1 -> s1 + back_max_of bfqd < 2 ^ 64 ->
  0 <= s2 -> s2 + back_max_of bfqd < 2 ^ 64 ->
  0 <= bfq_back_penalty bfqd < 2 ^ 32 ->
  default_back_penalty = 2 /\
  (rq_is_sync r1 = true -> rq_is_sync r2 = false -> chosen = Some p1) /\
  (rq_is_sync r1 = false -> rq_is_sync r2 = true -> chosen = Some p2) /\
  (rq_is_sync r1 = rq_is_sync r2 ->
   is_meta r1 = true -> is_meta r2 = false -> chosen = Some p1) /\
  (rq_is_sync r1 = rq_is_sync r2 ->
   is_meta r1 = false -> is_meta r2 = true -> chosen = Some p2) /\
  (rq_is_sync r1 = rq_is_sync r2 -> is_meta r1 = is_meta r2 ->
   match dist s1, dist s2 with
   | Some d1, Some d2 =>
     (d1 < d2 -> chosen = Some p1) /\ (d2 < d1 -> chosen = Some p2)
   | Some _, None => chosen = Some p1
   | None, Some _ => chosen = Some p2
   | None, None =>
     s1 < last /\ s2 < last /\
     (s1 < s2 -> chosen = Some p1) /\ (s2 < s1 -> chosen = Some p2)
   end).
Proof.
  intros r1 r2 s1 s2 dist is_meta chosen Hne Hl Hs1 Hb1 Hs2 Hb2 Hp.
  subst chosen is_meta. rewrite (bfq_choose_req_distinct bfqd p1 p2 last Hne).
  cbv zeta. fold r1 r2 s1 s2.
  rewrite (bfq_seek_spec bfqd last s1 _ Hl Hs1 Hb1 Hp).
  rewrite (bfq_seek_spec bfqd last s2 _ Hl Hs2 Hb2 Hp).
  fold dist.
  split; [reflexivity |].
  split; [intros -> ->; reflexivity |].
  split; [intros -> ->; reflexivity |].
  split; [intros -> -> ->; destruct (rq_is_sync r2); reflexivity |].
  split; [intros -> -> ->; destruct (rq_is_sync r2); reflexivity |].
  intros -> ->.
  replace (rq_is_sync r2 && negb (rq_is_sync r2)) with false
    by (destruct (rq_is_sync r2); reflexivity).
  replace (is_meta r2 && negb (is_meta r2)) with false
    by (destruct (is_meta r2); reflexivity).
  assert (Hd : forall s, dist s = None -> s < last).
  { intros s. subst dist. unfold spec_distance.
    destruct (Z.leb_spec last s); [discriminate | lia]. }
  destruct (dist s1) as [d1 |] eqn:E1, (dist s2) as [d2 |] eqn:E2; cbn.
  - split; intros Hlt.
    + destruct (Z.ltb_spec d1 d2); [reflexivity | lia].
    + destruct (Z.ltb_spec d1 d2); [lia |].
      destruct (Z.ltb_spec d2 d1); [reflexivity | lia].
  - reflexivity.
  - reflexivity.
  - split; [auto |]. split; [auto |]. split; intros Hlt.
    + destruct (Z.leb_spec s1 s2); [reflexivity | lia].
    + destruct (Z.leb_spec s1 s2); [lia | reflexivity].
Qed.

(** C8: with the head at sector 1000, a first request at sector 2000, a
    second at sector 900, a backward allowance of 2000 sectors and a
    penalty of 2, both requests sync and alike in their metadata flag,
    the distances are 1000 and 200 and the second request is chosen. *)
Theorem bfq_choose_req_back_seek_scenario (bfqd : bfq_data) (p1 p2 : nat) :
  p1 <> p2 ->
  blk_rq_pos (rq_at p1) = 2000 ->
  blk_rq_pos (rq_at p2) = 900 ->
  bfq_back_max bfqd = 1000 ->
  bfq_back_penalty bfqd = 2 ->
  rq_is_sync (rq_at p1) = true ->
  rq_is_sync (rq_at p2) = true ->
  rq_is_meta REQ_META (rq_at p1) = rq_is_meta REQ_META (rq_at p2) ->
  back_max_of bfqd = 2000 /\
  bfq_seek bfqd 1000 2000 BFQ_RQ1_WRAP = (1000, 0) /\
  bfq_seek bfqd 1000 900 BFQ_RQ2_WRAP = (200, 0) /\
  bfq_choose_req rq_at REQ_META rq_is_sync bfqd (Some p1) (Some p2) 1000
  = Some p2.
Proof.
  intros Hne Hs1 Hs2 Hbm Hpen Hy1 Hy2 Hm.
  assert (Hb : back_max_of bfqd = 2000)
    by (unfold back_max_of; rewrite Hbm; reflexivity).
  assert (Hd1 : bfq_seek bfqd 1000 2000 BFQ_RQ1_WRAP = (1000, 0))
    by reflexivity.
  assert (Hd2 : bfq_seek bfqd 1000 900 BFQ_RQ2_WRAP = (200, 0))
    by (unfold bfq_seek; rewrite Hb, Hpen; reflexivity).
  repeat split; try assumption.
  rewrite (bfq_choose_req_distinct bfqd p1 p2 1000 Hne). cbv zeta.
  rewrite Hy1, Hy2, Hm, Hs1, Hs2, Hd1, Hd2.
  destruct (is_meta (rq_at p2)); reflexivity.
Qed.

End ChooserFacts.

(** ** Charging *)

Lemma blk_rq_sectors_range (rq : request) :
  0 <= __data_len rq < 2 ^ 32 -> 0 <= blk_rq_sectors rq < 2 ^ 23.
Proof.
  intros H. unfold blk_rq_sectors, blk_rq_bytes.
  rewrite Z.shiftr_div_pow2 by lia. split.
  - apply Z.div_pos; lia.
  - apply Z.div_lt_upper_bound; lia.
Qed.

(** C2: a request is charged its sectors times [1 + bfq_async_charge_factor],
    with a factor of 10, when the queue is async and not weight-raised,
    and its plain sectors otherwise. *)
Theorem bfq_serv_to_charge_async_factor (rq : request) (bfqq : bfq_queue) :
  0 <= __data_len rq < 2 ^ 32 ->
  bfq_async_charge_factor = 10 /\
  bfq_serv_to_charge rq bfqq =
  if negb (bfq_bfqq_sync bfqq) && (wr_coeff bfqq =? 1)
  then blk_rq_sectors rq * (1 + bfq_async_charge_factor)
  else blk_rq_sectors rq.
Proof.
  intros H. split; [reflexivity |].
  pose proof (blk_rq_sectors_range rq H) as Hr.
  unfold bfq_serv_to_charge, bfq_async_charge_factor in *.
  destruct (bfq_bfqq_sync bfqq), (wr_coeff bfqq =? 1); cbn [negb andb b2z];
    rewrite u32_small by lia; lia.
Qed.

(** ** Burst detection *)

Lemma bfqqs_upd_bfqq (q : nat) (f : bfq_queue -> bfq_queue) (st : bfq_data) :
  bfqqs (upd_bfqq q f st) = alter f q (bfqqs st).
Proof. reflexivity. Qed.

Lemma upd_bfqq_upd_bfqq (q : nat) (f g : bfq_queue -> bfq_queue)
    (st : bfq_data) :
  upd_bfqq q f (upd_bfqq q g st) = upd_bfqq q (f ∘ g) st.
Proof.
  transitivity (set_bfqqs (alter f q (alter g q (bfqqs st))) st);
    [reflexivity |].
  rewrite alter_alter_eq. reflexivity.
Qed.

Lemma hlist_del_init_upd_bfqq (q q' : nat) (f : bfq_queue -> bfq_queue)
    (st : bfq_data) :
  hlist_del_init q (upd_bfqq q' f st) = upd_bfqq q' f (hlist_del_init q st).
Proof. reflexivity. Qed.

Lemma upd_bfqq_id (q : nat) (f : bfq_queue -> bfq_queue) (st : bfq_data) :
  (forall x, bfqqs st !! q = Some x -> f x = x) -> upd_bfqq q f st = st.
Proof.
  intros H. unfold upd_bfqq. rewrite alter_id by exact H.
  destruct st; reflexivity.
Qed.

Lemma clear_in_large_burst_id (x : bfq_queue) :
  bfq_bfqq_in_large_burst x = false -> bfq_clear_bfqq_in_large_burst x = x.
Proof. destruct x; cbn. intros ->. reflexivity. Qed.

Lemma hlist_del_init_id (q : nat) (st : bfq_data) :
  q ∉ burst_list st -> hlist_del_init q st = st.
Proof.
  intros H. unfold hlist_del_init.
  assert (E : filter (λ x, x ≠ q) (burst_list st) = burst_list st).
  { induction (burst_list st) as [| x l IH]; [reflexivity |].
    apply not_elem_of_cons in H as [Hx Hl].
    rewrite filter_cons_True by congruence. f_equal. apply IH, Hl. }
  rewrite E. destruct st; reflexivity.
Qed.

Lemma hlist_del_init_unhashed (q : nat) (st : bfq_data) :
  q ∉ burst_list (hlist_del_init q st).
Proof.
  cbn. intros H. apply list_elem_of_filter in H as [H _]. congruence.
Qed.

Lemma hlist_unhashed_true (q : nat) (st : bfq_data) :
  q ∉ burst_list st -> hlist_unhashed q st = true.
Proof.
  intros H. unfold hlist_unhashed. rewrite bool_decide_eq_false_2 by exact H.
  reflexivity.
Qed.

(** Marking the items of a list touches the queues of the list only. *)
Lemma mark_burst_list_frame (l : list nat) (st : bfq_data) :
  mark_burst_list l st = set_bfqqs (bfqqs (mark_burst_list l st)) st.
Proof.
  revert st. induction l as [| x l IH]; intros st; cbn [mark_burst_list].
  - destruct st; reflexivity.
  - rewrite IH at 1. reflexivity.
Qed.

Lemma mark_burst_list_bfqqs (l : list nat) (st : bfq_data) (q : nat) :
  bfqqs (mark_burst_list l st) !! q =
  if bool_decide (q ∈ l)
  then bfq_mark_bfqq_in_large_burst <$> bfqqs st !! q
  else bfqqs st !! q.
Proof.
  revert st. induction l as [| x l IH]; intros st; cbn [mark_burst_list].
  - reflexivity.
  - rewrite IH, bfqqs_upd_bfqq, lookup_alter.
    destruct (decide (x = q)) as [-> | Hne].
    + rewrite (bool_decide_eq_true_2 (q ∈ q :: l)) by apply list_elem_of_here.
      destruct (bool_decide (q ∈ l)); [| reflexivity].
      destruct (bfqqs st !! q); reflexivity.
    + destruct (bool_decide_reflect (q ∈ l)) as [Hin | Hout].
      * rewrite bool_decide_eq_true_2
          by (apply elem_of_cons; right; exact Hin).
        reflexivity.
      * rewrite bool_decide_eq_false_2; [reflexivity |].
        intros [-> | Hin]%elem_of_cons; [congruence | contradiction].
Qed.

(** A queue that is neither on the list nor marked takes the same path
    whether or not it was idle for long. *)
Lemma bfq_handle_burst_new_queue (jiffies : Z) (st : bfq_data) (q : nat)
    (idle : bool) :
  q ∉ burst_list st ->
  in_large_burst_at q st = false ->
  bfq_handle_burst jiffies st q idle =
  if time_is_before_jiffies jiffies
       (u64 (last_ins_in_burst st + bfq_burst_interval st))
  then bfq_reset_burst_list (set_large_burst false st) q
  else if large_burst st
  then upd_bfqq q bfq_mark_bfqq_in_large_burst st
  else bfq_add_to_burst st q.
Proof.
  intros Hl Hf. unfold bfq_handle_burst.
  assert (E : (if idle
               then upd_bfqq q bfq_clear_bfqq_in_large_burst
                      (hlist_del_init q st)
               else st) = st).
  { destruct idle; [| reflexivity].
    rewrite hlist_del_init_id by exact Hl.
    apply upd_bfqq_id. intros x Hx. apply clear_in_large_burst_id.
    unfold in_large_burst_at in Hf. rewrite Hx in Hf. exact Hf. }
  rewrite E, hlist_unhashed_true, Hf by exact Hl. reflexivity.
Qed.

Lemma bfq_add_to_burst_large (st : bfq_data) (q : nat) :
  u64 (s32 (burst_size st + 1)) = bfq_large_burst_thresh st ->
  bfq_add_to_burst st q =
  set_burst_list []
    (upd_bfqq q bfq_mark_bfqq_in_large_burst
       (mark_burst_list (burst_list st)
          (set_large_burst true
             (set_burst_size (s32 (burst_size st + 1)) st)))).
Proof.
  intros H. unfold bfq_add_to_burst. cbn [burst_size set_burst_size
    bfq_large_burst_thresh]. rewrite H, Z.eqb_refl. reflexivity.
Qed.

Lemma bfq_add_to_burst_small (st : bfq_data) (q : nat) :
  u64 (s32 (burst_size st + 1)) <> bfq_large_burst_thresh st ->
  bfq_add_to_burst st q =
  hlist_add_head q (set_burst_size (s32 (burst_size st + 1)) st).
Proof.
  intros H. unfold bfq_add_to_burst. cbn [burst_size set_burst_size
    bfq_large_burst_thresh].
  destruct (Z.eqb_spec (u64 (s32 (burst_size st + 1)))
                       (bfq_large_burst_thresh st)); [contradiction |].
  reflexivity.
Qed.

Lemma burst_size_incr (n : Z) :
  0 <= n < 2 ^ 31 - 1 -> u64 (s32 (n + 1)) = n + 1.
Proof. intros H. rewrite s32_small by lia. apply u64_small. lia. Qed.

(** C3: for a queue that is new to the burst and is activated within the
    burst interval, (1) when its arrival makes the burst size reach the
    threshold, the queues of the burst list and the new queue are marked,
    the list is emptied and the device enters large-burst mode; (2) in
    large-burst mode the queue is marked at once and the list is left as
    it is; (3) below the threshold the queue is put on the list and no
    queue is touched. *)
Theorem bfq_handle_burst_large_burst (jiffies : Z) (st : bfq_data) (q : nat)
    (idle : bool) :
  let st' := bfq_handle_burst jiffies st q idle in
  q ∉ burst_list st ->
  in_large_burst_at q st = false ->
  time_is_before_jiffies jiffies
    (u64 (last_ins_in_burst st + bfq_burst_interval st)) = false ->
  0 <= burst_size st < 2 ^ 31 - 1 ->
  (large_burst st = false ->
   burst_size st + 1 = bfq_large_burst_thresh st ->
   large_burst st' = true /\
   burst_list st' = [] /\
   (forall q', q' ∈ q :: burst_list st ->
      bfqqs st' !! q' = bfq_mark_bfqq_in_large_burst <$> bfqqs st !! q') /\
   (forall q', q' ∉ q :: burst_list st ->
      bfqqs st' !! q' = bfqqs st !! q')) /\
  (large_burst st = true ->
   large_burst st' = true /\
   burst_list st' = burst_list st /\
   burst_size st' = burst_size st /\
   bfqqs st' !! q = bfq_mark_bfqq_in_large_burst <$> bfqqs st !! q /\
   (forall q', q' <> q -> bfqqs st' !! q' = bfqqs st !! q')) /\
  (large_burst st = false ->
   burst_size st + 1 < bfq_large_burst_thresh st ->
   large_burst st' = false /\
   burst_list st' = q :: burst_list st /\
   burst_size st' = burst_size st + 1 /\
   bfqqs st' = bfqqs st).
Proof.
  intros st' Hl Hf Ht Hsz. subst st'.
  rewrite (bfq_handle_burst_new_queue jiffies st q idle Hl Hf), Ht.
  pose proof (burst_size_incr (burst_size st) Hsz) as Hinc.
  split; [| split].
  - intros -> Hth. rewrite bfq_add_to_burst_large by lia.
    rewrite mark_burst_list_frame.
    split; [reflexivity |]. split; [reflexivity |].
    cbn [bfqqs set_burst_list upd_bfqq set_bfqqs].
    split; intros q' Hq'.
    + rewrite lookup_alter, !mark_burst_list_bfqqs.
      cbn [bfqqs set_large_burst set_burst_size burst_list].
      destruct (decide (q = q')) as [<- | Hne].
      * rewrite bool_decide_eq_false_2 by exact Hl. reflexivity.
      * apply elem_of_cons in Hq' as [-> | Hin]; [congruence |].
        rewrite bool_decide_eq_true_2 by exact Hin. reflexivity.
    + apply not_elem_of_cons in Hq' as [Hne Hout].
      rewrite lookup_alter_ne by congruence.
      rewrite mark_burst_list_bfqqs.
      cbn [bfqqs set_large_burst set_burst_size burst_list].
      rewrite bool_decide_eq_false_2 by exact Hout. reflexivity.
  - intros Hlb. rewrite Hlb. cbn.
    split; [exact Hlb |]. split; [reflexivity |]. split; [reflexivity |].
    split; [apply lookup_alter_eq |].
    intros q' Hne. apply lookup_alter_ne. congruence.
  - intros Hlb Hth. rewrite Hlb, bfq_add_to_burst_small by lia. cbn.
    rewrite s32_small by lia. repeat split. exact Hlb.
Qed.

(** C10: for a queue that was idle for long, the burst decision is taken
    on the state in which the queue is off the burst list and its
    [in_large_burst] flag is clear, and none of the three outcomes (a new
    burst, a mark in large-burst mode, an addition to the burst) depends
    on the flag or on the list membership the queue had before. *)
Theorem bfq_handle_burst_idle_for_long_time (jiffies : Z) (st : bfq_data)
    (q : nat) :
  let st0 :=
    upd_bfqq q bfq_clear_bfqq_in_large_burst (hlist_del_init q st) in
  (q ∉ burst_list st0) /\
  in_large_burst_at q st0 = false /\
  bfq_handle_burst jiffies st q true =
    (if time_is_before_jiffies jiffies
          (u64 (last_ins_in_burst st + bfq_burst_interval st))
     then bfq_reset_burst_list (set_large_burst false st0) q
     else if large_burst st
     then upd_bfqq q bfq_mark_bfqq_in_large_burst st0
     else bfq_add_to_burst st0 q) /\
  (forall b : bool,
     bfq_handle_burst jiffies (upd_bfqq q (set_flag_in_large_burst b) st)
                      q true =
     bfq_handle_burst jiffies st q true) /\
  bfq_handle_burst jiffies (hlist_add_head q st) q true =
  bfq_handle_burst jiffies st q true.
Proof.
  intros st0.
  assert (Hl : q ∉ burst_list st0) by apply hlist_del_init_unhashed.
  assert (Hf : in_large_burst_at q st0 = false).
  { unfold in_large_burst_at. subst st0. rewrite bfqqs_upd_bfqq.
    rewrite lookup_alter_eq. destruct (bfqqs _ !! q); reflexivity. }
  split; [exact Hl |]. split; [exact Hf |].
  assert (Hrun : forall s,
            upd_bfqq q bfq_clear_bfqq_in_large_burst (hlist_del_init q s)
            = st0 ->
            bfq_handle_burst jiffies s q true =
            bfq_handle_burst jiffies st0 q false).
  { intros s Hs. unfold bfq_handle_burst at 1. rewrite Hs. reflexivity. }
  split; [| split].
  - rewrite (Hrun st eq_refl).
    apply (bfq_handle_burst_new_queue jiffies st0 q false Hl Hf).
  - intros b. rewrite (Hrun st eq_refl). apply Hrun.
    subst st0. rewrite hlist_del_init_upd_bfqq, upd_bfqq_upd_bfqq.
    reflexivity.
  - rewrite (Hrun st eq_refl). apply Hrun.
    subst st0. f_equal. unfold hlist_del_init, hlist_add_head.
    transitivity (set_burst_list
                    (filter (λ x, x ≠ q) (q :: burst_list st)) st);
      [reflexivity |].
    rewrite filter_cons_False by (intros H; apply H; reflexivity).
    reflexivity.
Qed.

(** ** Request arrival *)

Lemma max_ulong_max (a b : Z) :
  0 <= a < 2 ^ 64 -> 0 <= b < 2 ^ 64 -> max_ulong a b = Z.max a b.
Proof.
  intros Ha Hb. unfold max_ulong. rewrite !u64_small by lia.
  destruct (Z.ltb_spec b a); lia.
Qed.

Lemma bfq_serv_to_charge_range (rq : request) (bfqq : bfq_queue) :
  0 <= bfq_serv_to_charge rq bfqq < 2 ^ 64.
Proof.
  unfold bfq_serv_to_charge.
  pose proof (u32_range (blk_rq_sectors rq *
    (1 + b2z (negb (bfq_bfqq_sync bfqq)) * b2z (wr_coeff bfqq =? 1) *
         bfq_async_charge_factor))).
  lia.
Qed.

Lemma set_flag_in_large_burst_same (x : bfq_queue) :
  set_flag_in_large_burst (flag_in_large_burst x) x = x.
Proof. destruct x; reflexivity. Qed.

Lemma burst_frame_refl (st : bfq_data) : burst_frame st st.
Proof.
  split; [reflexivity |]. intros q.
  destruct (bfqqs st !! q) as [x |] eqn:E.
  - exists (flag_in_large_burst x). cbn.
    rewrite set_flag_in_large_burst_same. reflexivity.
  - exists false. reflexivity.
Qed.

Lemma burst_frame_trans (st1 st2 st3 : bfq_data) :
  burst_frame st1 st2 -> burst_frame st2 st3 -> burst_frame st1 st3.
Proof.
  intros [L1 H1] [L2 H2]. split; [congruence |]. intros q.
  destruct (H1 q) as [b1 E1], (H2 q) as [b2 E2].
  exists b2. rewrite E2, E1. destruct (bfqqs st1 !! q); reflexivity.
Qed.

Lemma burst_frame_upd (st : bfq_data) (q : nat) (b : bool) :
  burst_frame st (upd_bfqq q (set_flag_in_large_burst b) st).
Proof.
  split; [reflexivity |]. intros q'.
  rewrite bfqqs_upd_bfqq, lookup_alter.
  destruct (decide (q = q')) as [<- | Hne].
  - exists b. reflexivity.
  - apply (burst_frame_refl st).
Qed.

Lemma burst_frame_same_queues (st st' : bfq_data) :
  bfqqs st' = bfqqs st -> low_latency st' = low_latency st ->
  burst_frame st st'.
Proof.
  intros E L. split; [exact L |]. intros q. rewrite E.
  apply (burst_frame_refl st).
Qed.

Lemma burst_frame_mark_burst_list (l : list nat) (st : bfq_data) :
  burst_frame st (mark_burst_list l st).
Proof.
  revert st. induction l as [| x l IH]; intros st; cbn [mark_burst_list].
  - apply burst_frame_refl.
  - eapply burst_frame_trans; [| apply IH].
    apply (burst_frame_upd st x true).
Qed.

Lemma burst_frame_add_to_burst (st : bfq_data) (q : nat) :
  burst_frame st (bfq_add_to_burst st q).
Proof.
  unfold bfq_add_to_burst.
  set (st1 := set_burst_size (s32 (burst_size st + 1)) st).
  assert (H1 : burst_frame st st1) by (apply burst_frame_same_queues; reflexivity).
  destruct (u64 (burst_size st1) =? bfq_large_burst_thresh st1).
  - eapply burst_frame_trans; [exact H1 |].
    set (st2 := set_large_burst true st1).
    eapply burst_frame_trans;
      [apply (burst_frame_same_queues st1 st2); reflexivity |].
    eapply burst_frame_trans; [apply burst_frame_mark_burst_list |].
    eapply burst_frame_trans; [apply (burst_frame_upd _ q true) |].
    apply burst_frame_same_queues; reflexivity.
  - eapply burst_frame_trans; [exact H1 |].
    apply burst_frame_same_queues; reflexivity.
Qed.

Lemma burst_frame_handle_burst (jiffies : Z) (st : bfq_data) (q : nat)
    (idle : bool) :
  burst_frame st (bfq_handle_burst jiffies st q idle).
Proof.
  unfold bfq_handle_burst.
  set (st0 := if idle then _ else st).
  assert (H0 : burst_frame st st0).
  { subst st0. destruct idle; [| apply burst_frame_refl].
    eapply burst_frame_trans; [| apply (burst_frame_upd _ q false)].
    apply burst_frame_same_queues; reflexivity. }
  eapply burst_frame_trans; [exact H0 |].
  destruct (negb (hlist_unhashed q st0) || in_large_burst_at q st0);
    [apply burst_frame_refl |].
  destruct (time_is_before_jiffies _ _);
    [apply burst_frame_same_queues; reflexivity |].
  destruct (large_burst st0).
  - apply (burst_frame_upd st0 q true).
  - apply burst_frame_add_to_burst.
Qed.

Section ArrivalFacts.

Variable rq_at : nat -> request.
Variable REQ_META : Z.
Variable rq_is_sync : request -> bool.
Variable last_end_request : request -> Z.
Variable elv_rb_add : list nat -> nat -> list nat.
Variable bfq_activate_bfqq : bfq_data -> nat -> bfq_data.
Variable bfq_add_bfqq_busy : bfq_data -> nat -> bfq_data.

(** C5: for the in-service queue [bfq_updated_next_req] returns with the
    state as it was; a state that changed is that of a queue not in
    service; and for such a queue the budget becomes the larger of
    [max_budget] and the charge of [next_rq], the queue being activated
    again when its budget changed. *)
Theorem bfq_updated_next_req_in_service (bfqd : bfq_data) (q : nat) :
  (forall bfqq, bfqqs bfqd !! q = Some bfqq ->
     in_service_queue bfqd = Some q ->
     bfq_updated_next_req rq_at bfq_activate_bfqq bfqd q = Some bfqd) /\
  (forall bfqd',
     bfq_updated_next_req rq_at bfq_activate_bfqq bfqd q = Some bfqd' ->
     bfqd' <> bfqd -> in_service_queue bfqd <> Some q) /\
  (forall bfqq next,
     bfqqs bfqd !! q = Some bfqq ->
     next_rq bfqq = Some next ->
     in_service_queue bfqd <> Some q ->
     tree (entity bfqq) = ActiveTree ->
     in_service_entity bfqd <> Some q ->
     0 <= max_budget bfqq < 2 ^ 64 ->
     let new_budget :=
       Z.max (max_budget bfqq) (bfq_serv_to_charge (rq_at next) bfqq) in
     bfq_updated_next_req rq_at bfq_activate_bfqq bfqd q =
     Some (if budget (entity bfqq) =? new_budget then bfqd
           else bfq_activate_bfqq
                  (upd_bfqq q
                     (λ b, set_entity (set_budget new_budget (entity b)) b)
                     bfqd) q)).
Proof.
  split; [| split].
  - intros bfqq Hq Hs. unfold bfq_updated_next_req. rewrite Hq.
    destruct (next_rq bfqq); [| reflexivity].
    rewrite bool_decide_eq_true_2 by exact Hs. reflexivity.
  - intros bfqd' Hrun Hne Hs. apply Hne.
    unfold bfq_updated_next_req in Hrun.
    destruct (bfqqs bfqd !! q) as [bfqq |]; [| discriminate].
    destruct (next_rq bfqq); [| congruence].
    rewrite bool_decide_eq_true_2 in Hrun by exact Hs. congruence.
  - intros bfqq next Hq Hn Hs Ht He Hm new_budget.
    unfold bfq_updated_next_req. rewrite Hq, Hn.
    rewrite bool_decide_eq_false_2 by exact Hs.
    rewrite Ht. cbn [entity_tree_eqb negb].
    rewrite bool_decide_eq_false_2 by exact He.
    rewrite max_ulong_max
      by (try exact Hm; apply bfq_serv_to_charge_range).
    fold new_budget.
    destruct (budget (entity bfqq) =? new_budget); reflexivity.
Qed.


Lemma bfq_choose_req_some (bfqd : bfq_data) (rq1 : option nat) (p : nat)
    (last : Z) :
  exists next,
    bfq_choose_req rq_at REQ_META rq_is_sync bfqd rq1 (Some p) last
    = Some next.
Proof.
  destruct (bfq_choose_req_one_of rq_at REQ_META rq_is_sync bfqd rq1
              (Some p) last) as [E | E]; [| eauto].
  destruct rq1 as [p1 |]; [eauto |].
  exists p. reflexivity.
Qed.

Lemma wr_on_activation_in_burst (jiffies : Z) (bfqd : bfq_data) (old : Z)
    (x : bfq_queue) :
  let y := wr_on_activation jiffies bfqd old false false true x in
  wr_coeff y = (if 1 <? old then 1 else wr_coeff x) /\
  flag_in_large_burst y = flag_in_large_burst x.
Proof.
  unfold wr_on_activation.
  replace ((old =? 1) && (false || false) && _) with false
    by (destruct (old =? 1); reflexivity).
  destruct (1 <? old); split; reflexivity.
Qed.

Lemma io_bound_update_frame (jiffies : Z) (bfqd : bfq_data) (rq : request)
    (x : bfq_queue) :
  let y := io_bound_update last_end_request jiffies bfqd rq x in
  wr_coeff y = wr_coeff x /\
  flag_in_large_burst y = flag_in_large_burst x.
Proof.
  unfold io_bound_update.
  destruct (bfq_bfqq_IO_bound x); [split; reflexivity |].
  destruct (time_before _ _); [| split; reflexivity].
  cbn [requests_within_timer set_requests_within_timer].
  destruct (_ <=? _); split; reflexivity.
Qed.

Lemma add_request_idle_fields_in_large_burst (jiffies : Z)
    (bfqd : bfq_data) (rq : request) (next : nat) (idle : bool)
    (x : bfq_queue) :
  let y := add_request_idle_fields rq_at last_end_request jiffies bfqd rq
             next (wr_coeff x) idle x in
  flag_in_large_burst y = flag_in_large_burst x /\
  (flag_in_large_burst x = true ->
   wr_coeff y =
   if low_latency bfqd then (if 1 <? wr_coeff x then 1 else wr_coeff x)
   else wr_coeff x).
Proof.
  unfold add_request_idle_fields. cbv zeta.
  set (x2 := set_entity _ x).
  pose proof (io_bound_update_frame jiffies bfqd rq x2) as [Hw3 Hf3].
  cbv zeta in Hw3, Hf3.
  set (x3 := io_bound_update last_end_request jiffies bfqd rq x2) in *.
  change (wr_coeff x2) with (wr_coeff x) in Hw3.
  change (flag_in_large_burst x2) with (flag_in_large_burst x) in Hf3.
  cbn [flag_in_large_burst wr_coeff bfq_clear_bfqq_softrt_update
       set_flag_softrt_update set_service_from_backlogged
       set_last_idle_bklogged].
  destruct (low_latency bfqd); cbn [negb].
  - unfold bfq_bfqq_in_large_burst.
    split.
    + set (w := wr_on_activation _ _ _ _ _ _ _).
      assert (Hfw : flag_in_large_burst w = flag_in_large_burst x3).
      { subst w. unfold wr_on_activation.
        repeat match goal with
               | |- context [if ?c then _ else _] => destruct c
               end; reflexivity. }
      destruct (negb (wr_coeff x =? wr_coeff w));
        cbn [flag_in_large_burst set_entity]; congruence.
    + intros Hf. rewrite Hf. cbn [negb andb]. rewrite andb_false_r.
      cbn [andb].
      pose proof (wr_on_activation_in_burst jiffies bfqd (wr_coeff x) x3)
        as [Hw _].
      cbv zeta in Hw.
      set (w := wr_on_activation _ _ _ _ _ _ _) in *.
      destruct (negb (wr_coeff x =? wr_coeff w));
        cbn [wr_coeff set_entity]; rewrite Hw, Hw3; reflexivity.
  - split; [exact Hf3 | intros _; exact Hw3].
Qed.

(** What the idle branch does to the weight-raising coefficient of a
    queue that burst handling leaves marked. *)
Lemma add_request_idle_in_large_burst (jiffies : Z) (bfqd : bfq_data)
    (q : nat) (rq : request) (next : nat) (bfqq0 x : bfq_queue) :
  (forall st q0 z, bfqqs st !! q0 = Some z ->
     exists z', bfqqs (bfq_add_bfqq_busy st q0) !! q0 = Some z' /\
                wr_coeff z' = wr_coeff z /\
                flag_in_large_burst z' = flag_in_large_burst z) ->
  bfqqs bfqd !! q = Some x ->
  exists st' y,
    add_request_idle rq_at last_end_request bfq_add_bfqq_busy jiffies bfqd q
                     rq next (wr_coeff x) bfqq0 = Some st' /\
    bfqqs st' !! q = Some y /\
    (bfq_bfqq_in_large_burst y = true ->
     wr_coeff y =
     if low_latency bfqd then (if 1 <? wr_coeff x then 1 else wr_coeff x)
     else wr_coeff x).
Proof.
  intros Hbusy Hx. unfold add_request_idle.
  set (idle := time_is_before_jiffies _ _).
  set (st1 := if bfq_bfqq_sync bfqq0 then _ else bfqd).
  assert (F : burst_frame bfqd st1).
  { subst st1. destruct (bfq_bfqq_sync bfqq0); [| apply burst_frame_refl].
    destruct (negb _).
    - eapply burst_frame_trans; [apply burst_frame_handle_burst |].
      apply burst_frame_same_queues; reflexivity.
    - apply burst_frame_handle_burst. }
  destruct F as [Hll Hqs]. destruct (Hqs q) as [b Hb]. rewrite Hx in Hb.
  cbn [fmap option_fmap option_map] in Hb. rewrite Hb.
  set (x1 := set_flag_in_large_burst b x).
  pose proof (add_request_idle_fields_in_large_burst jiffies st1 rq next
                idle x1) as [Hf Hw].
  cbv zeta in Hf, Hw.
  change (wr_coeff x1) with (wr_coeff x) in Hf, Hw.
  set (y1 := add_request_idle_fields _ _ _ _ _ _ _ _ _) in *.
  set (st2 := set_bfqqs _ st1).
  destruct (Hbusy st2 q y1) as (y & Hy & Hwy & Hfy).
  { subst st2. cbn [bfqqs set_bfqqs]. apply lookup_insert_eq. }
  exists (bfq_add_bfqq_busy st2 q), y.
  split; [reflexivity |]. split; [exact Hy |].
  unfold bfq_bfqq_in_large_burst. intros Hyf.
  rewrite Hwy, <- Hll. apply Hw. congruence.
Qed.

(** C4, as the code has it: when [bfq_add_request] takes a queue from
    idle to busy it returns a state, and if the queue is marked
    [in_large_burst] once burst handling has run, then a coefficient of 1
    (or 0) stays as it is, so that neither trigger fires; with
    [low_latency] on, a coefficient above 1 is reset to 1; with
    [low_latency] off the coefficient is left as it was. *)
Theorem bfq_add_request_in_large_burst (jiffies : Z) (bfqd : bfq_data)
    (p q : nat) (bfqq0 : bfq_queue) :
  (forall st q0 z, bfqqs st !! q0 = Some z ->
     exists z', bfqqs (bfq_add_bfqq_busy st q0) !! q0 = Some z' /\
                wr_coeff z' = wr_coeff z /\
                flag_in_large_burst z' = flag_in_large_burst z) ->
  bfqqs bfqd !! q = Some bfqq0 ->
  bfq_bfqq_busy bfqq0 = false ->
  exists bfqd' bfqq',
    bfq_add_request rq_at REQ_META rq_is_sync last_end_request elv_rb_add
      bfq_activate_bfqq bfq_add_bfqq_busy jiffies bfqd p q = Some bfqd' /\
    bfqqs bfqd' !! q = Some bfqq' /\
    (bfq_bfqq_in_large_burst bfqq' = true ->
     (wr_coeff bfqq0 <= 1 -> wr_coeff bfqq' = wr_coeff bfqq0) /\
     (1 < wr_coeff bfqq0 -> low_latency bfqd = true -> wr_coeff bfqq' = 1) /\
     (low_latency bfqd = false -> wr_coeff bfqq' = wr_coeff bfqq0)).
Proof.
  intros Hbusy Hq Hnb. unfold bfq_add_request. rewrite Hq.
  cbn [next_rq set_sort_list set_queued].
  destruct (bfq_choose_req_some (set_bfqd_queued (s32 (bfqd_queued bfqd + 1))
              bfqd) (next_rq bfqq0) p
              (last_position (set_bfqd_queued (s32 (bfqd_queued bfqd + 1))
              bfqd))) as [next Hnext].
  rewrite Hnext.
  set (x := set_next_rq _ _).
  change (bfq_bfqq_busy x) with (bfq_bfqq_busy bfqq0). rewrite Hnb.
  cbn [negb].
  set (st := set_bfqqs _ _).
  destruct (add_request_idle_in_large_burst jiffies st q (rq_at p) next x x
              Hbusy) as (st' & y & Hrun & Hy & Hwr).
  { subst st. cbn [bfqqs set_bfqqs]. apply lookup_insert_eq. }
  change (wr_coeff x) with (wr_coeff bfqq0) in Hrun, Hwr.
  change (low_latency st) with (low_latency bfqd) in Hwr.
  exists st', y. split; [exact Hrun |]. split; [exact Hy |].
  intros Hf. specialize (Hwr Hf).
  split; [| split].
  - intros Hle. rewrite Hwr.
    destruct (low_latency bfqd); [| reflexivity].
    destruct (Z.ltb_spec 1 (wr_coeff bfqq0)); [lia | reflexivity].
  - intros Hgt Hl. rewrite Hwr, Hl.
    destruct (Z.ltb_spec 1 (wr_coeff bfqq0)); [reflexivity | lia].
  - intros Hl. rewrite Hwr, Hl. reflexivity.
Qed.

End ArrivalFacts.

(** ** The weight-counter tree *)

Lemma rb_inorder_update (a : nat)
    (f : bfq_weight_counter -> bfq_weight_counter) (t : rb_root) :
  rb_inorder (rb_update a f t) = node_update a f <$> rb_inorder t.
Proof.
  induction t as [| l IHl b c r IHr]; [reflexivity |].
  cbn [rb_update rb_inorder]. rewrite IHl, IHr, fmap_app. reflexivity.
Qed.

Lemma rb_addrs_update (a : nat)
    (f : bfq_weight_counter -> bfq_weight_counter) (t : rb_root) :
  rb_addrs (rb_update a f t) = rb_addrs t.
Proof.
  unfold rb_addrs. rewrite rb_inorder_update, <- list_fmap_compose.
  reflexivity.
Qed.

Lemma rb_weights_update (a : nat)
    (f : bfq_weight_counter -> bfq_weight_counter) (t : rb_root) :
  (forall c, cnt_weight (f c) = cnt_weight c) ->
  rb_weights (rb_update a f t) = rb_weights t.
Proof.
  intros Hf. unfold rb_weights.
  rewrite rb_inorder_update, <- list_fmap_compose.
  apply list_fmap_ext. intros i [b c] _. cbn.
  destruct (Nat.eqb a b); [apply Hf | reflexivity].
Qed.

Lemma node_update_other (a : nat)
    (f : bfq_weight_counter -> bfq_weight_counter)
    (l : list (nat * bfq_weight_counter)) :
  a ∉ l.*1 -> node_update a f <$> l = l.
Proof.
  induction l as [| [b c] l IH]; [reflexivity |].
  cbn. intros [Hne Hl]%not_elem_of_cons. rewrite IH by exact Hl.
  unfold node_update. cbn.
  destruct (Nat.eqb_spec a b); [contradiction | reflexivity].
Qed.

Lemma RB_EMPTY_ROOT_inorder (t : rb_root) (n : nat * bfq_weight_counter) :
  n ∈ rb_inorder t -> RB_EMPTY_ROOT t = false.
Proof.
  destruct t; [| reflexivity]. cbn. intros H. inversion H.
Qed.

Lemma rb_find_None (a : nat) (t : rb_root) :
  a ∉ rb_addrs t -> rb_find a t = None.
Proof.
  unfold rb_addrs. induction t as [| l IHl b c r IHr]; [reflexivity |].
  cbn [rb_inorder rb_find]. rewrite fmap_app, fmap_cons.
  intros H. rewrite elem_of_app, elem_of_cons in H. cbn in H.
  destruct (Nat.eqb_spec a b) as [-> | Hne]; [tauto |].
  rewrite IHl by tauto. apply IHr. tauto.
Qed.

Lemma rb_find_Some (a : nat) (c : bfq_weight_counter) (t : rb_root) :
  NoDup (rb_addrs t) -> (a, c) ∈ rb_inorder t -> rb_find a t = Some c.
Proof.
  unfold rb_addrs. induction t as [| l IHl b d r IHr].
  - intros _ H. inversion H.
  - cbn [rb_inorder rb_find]. rewrite fmap_app, fmap_cons. cbn [fst].
    intros (Nl & Hdis & [Hb Nr]%NoDup_cons)%NoDup_app Hin.
    apply elem_of_app in Hin as [Hin | Hin].
    + assert (Ha : a ∈ (rb_inorder l).*1)
        by (apply (list_elem_of_fmap_2 fst _ (a, c)); exact Hin).
      destruct (Nat.eqb_spec a b) as [-> | Hne].
      * exfalso. apply (Hdis b Ha). left.
      * rewrite (IHl Nl Hin). reflexivity.
    + apply elem_of_cons in Hin as [Heq | Hin].
      * injection Heq as -> ->. rewrite Nat.eqb_refl. reflexivity.
      * assert (Ha : a ∈ (rb_inorder r).*1)
          by (apply (list_elem_of_fmap_2 fst _ (a, c)); exact Hin).
        destruct (Nat.eqb_spec a b) as [-> | Hne]; [contradiction |].
        rewrite rb_find_None; [apply (IHr Nr Hin) |].
        intros Hl. apply (Hdis a Hl). right. exact Ha.
Qed.

(** The descent finds a counter of the tree, with the weight looked for. *)
Lemma weights_tree_walk_Some (w : Z) (a : nat) (t : rb_root) :
  weights_tree_walk w t = Some a ->
  exists c, (a, c) ∈ rb_inorder t /\ cnt_weight c = w.
Proof.
  induction t as [| l IHl b d r IHr]; [discriminate |].
  cbn [weights_tree_walk rb_inorder].
  destruct (Z.eqb_spec w (cnt_weight d)) as [-> | Hne].
  - intros [= <-]. exists d. split; [| reflexivity].
    apply elem_of_app. right. left.
  - destruct (w <? cnt_weight d); intros H.
    + destruct (IHl H) as (c & Hc & Hw). exists c. split; [| exact Hw].
      apply elem_of_app. left. exact Hc.
    + destruct (IHr H) as (c & Hc & Hw). exists c. split; [| exact Hw].
      apply elem_of_app. right. right. exact Hc.
Qed.

Lemma rb_search_tree_node (l r : rb_root) (b : nat)
    (d : bfq_weight_counter) :
  rb_search_tree (RbNode l b d r) ->
  rb_search_tree l /\ rb_search_tree r /\
  Forall (λ w, w < cnt_weight d) (rb_weights l) /\
  Forall (λ w, cnt_weight d < w) (rb_weights r).
Proof.
  unfold rb_search_tree, rb_weights. cbn [rb_inorder].
  rewrite fmap_app, fmap_cons. cbn [snd].
  intros (Hlr & Sl & [Hr Sr]%StronglySorted_cons)%StronglySorted_app.
  repeat split; try assumption.
  apply Forall_forall. intros w Hw. apply (Hlr w (cnt_weight d) Hw). left.
Qed.

(** In a search tree the descent misses no counter. *)
Lemma weights_tree_walk_None (w : Z) (t : rb_root) :
  rb_search_tree t -> weights_tree_walk w t = None -> w ∉ rb_weights t.
Proof.
  induction t as [| l IHl b d r IHr].
  - intros _ _ H. inversion H.
  - intros S. pose proof (rb_search_tree_node l r b d S)
      as (Sl & Sr & Fl & Fr).
    cbn [weights_tree_walk]. unfold rb_weights. cbn [rb_inorder].
    rewrite fmap_app, fmap_cons. cbn [snd].
    rewrite Forall_forall in Fl, Fr.
    destruct (Z.eqb_spec w (cnt_weight d)) as [-> | Hne]; [discriminate |].
    destruct (Z.ltb_spec w (cnt_weight d)) as [Hlt | Hge]; intros Hwalk Hin;
      apply elem_of_app in Hin as [Hin | Hin].
    + apply (IHl Sl Hwalk Hin).
    + apply elem_of_cons in Hin as [-> | Hin]; [lia |].
      specialize (Fr w Hin). lia.
    + specialize (Fl w Hin). lia.
    + apply elem_of_cons in Hin as [-> | Hin]; [lia |].
      apply (IHr Sr Hwalk Hin).
Qed.

(** Linking a counter of a new weight puts it between the lighter and
    the heavier counters. *)
Lemma rb_inorder_link_node (w : Z) (a : nat) (c : bfq_weight_counter)
    (t : rb_root) :
  rb_search_tree t -> w ∉ rb_weights t ->
  exists l1 l2,
    rb_inorder t = l1 ++ l2 /\
    rb_inorder (rb_link_node w a c t) = l1 ++ (a, c) :: l2 /\
    Forall (λ n, cnt_weight (snd n) < w) l1 /\
    Forall (λ n, w < cnt_weight (snd n)) l2.
Proof.
  induction t as [| l IHl b d r IHr].
  - intros _ _. exists [], []. repeat split; constructor.
  - intros S Hw. pose proof (rb_search_tree_node l r b d S)
      as (Sl & Sr & Fl & Fr).
    unfold rb_weights in Hw, Fl, Fr. cbn [rb_inorder] in Hw.
    rewrite fmap_app, fmap_cons, elem_of_app, elem_of_cons in Hw.
    cbn [snd] in Hw.
    rewrite Forall_fmap in Fl, Fr.
    cbn [rb_link_node rb_inorder].
    destruct (Z.ltb_spec w (cnt_weight d)) as [Hlt | Hge].
    + destruct IHl as (l1 & l2 & E & E' & F1 & F2);
        [exact Sl | unfold rb_weights; tauto |].
      exists l1, (l2 ++ (b, d) :: rb_inorder r).
      cbn [rb_inorder]. rewrite E, E', <- !app_assoc.
      repeat split; try assumption.
      apply Forall_app. split; [exact F2 |].
      constructor; [exact Hlt |].
      eapply Forall_impl; [exact Fr |]. cbn. intros; lia.
    + destruct IHr as (l1 & l2 & E & E' & F1 & F2);
        [exact Sr | unfold rb_weights; tauto |].
      exists (rb_inorder l ++ (b, d) :: l1), l2.
      cbn [rb_inorder]. rewrite E, E', <- !app_assoc.
      repeat split; try assumption.
      apply Forall_app. split.
      * eapply Forall_impl; [exact Fl |]. cbn. intros; lia.
      * constructor; [cbn; lia | exact F1].
Qed.

Lemma filter_addr_update (a : nat)
    (f : bfq_weight_counter -> bfq_weight_counter)
    (l : list (nat * bfq_weight_counter)) :
  filter (λ n, fst n ≠ a) (node_update a f <$> l) = filter (λ n, fst n ≠ a) l.
Proof.
  induction l as [| [b c] l IH]; [reflexivity |].
  rewrite fmap_cons, !filter_cons, IH. unfold node_update. cbn [fst snd].
  destruct (decide (b ≠ a)) as [Hne | Heq]; [| reflexivity].
  destruct (Nat.eqb_spec a b); [congruence | reflexivity].
Qed.

Lemma filter_addr_other (a : nat) (l : list (nat * bfq_weight_counter)) :
  a ∉ l.*1 -> filter (λ n, fst n ≠ a) l = l.
Proof.
  induction l as [| [b c] l IH]; [reflexivity |].
  rewrite fmap_cons. cbn [fst]. intros [Hne Hl]%not_elem_of_cons.
  rewrite filter_cons_True by (cbn; congruence). rewrite IH by exact Hl.
  reflexivity.
Qed.

Lemma num_active_incr_decr (c : bfq_weight_counter) :
  0 <= num_active c < 2 ^ 32 - 1 ->
  num_active_decr (num_active_incr c) = c.
Proof.
  intros H. destruct c as [w n]. unfold num_active_decr, num_active_incr.
  cbn in *. rewrite (u32_small (n + 1)) by lia.
  replace (n + 1 - 1) with n by lia. rewrite u32_small by lia. reflexivity.
Qed.

Lemma set_weight_counter_None (entity : bfq_entity) (a : nat) :
  weight_counter entity = None ->
  set_weight_counter None (set_weight_counter (Some a) entity) = entity.
Proof. destruct entity; cbn. intros ->. reflexivity. Qed.

Lemma node_update_addrs (a : nat)
    (f : bfq_weight_counter -> bfq_weight_counter)
    (l : list (nat * bfq_weight_counter)) :
  (node_update a f <$> l).*1 = l.*1.
Proof. rewrite <- list_fmap_compose. reflexivity. Qed.

Lemma node_update_weights (a : nat)
    (f : bfq_weight_counter -> bfq_weight_counter)
    (l : list (nat * bfq_weight_counter)) :
  (forall c, cnt_weight (f c) = cnt_weight c) ->
  (λ n, cnt_weight (snd n)) <$> (node_update a f <$> l) =
  (λ n, cnt_weight (snd n)) <$> l.
Proof.
  intros Hf. rewrite <- list_fmap_compose.
  apply list_fmap_ext. intros i [b c] _. cbn.
  destruct (Nat.eqb a b); [apply Hf | reflexivity].
Qed.

Lemma node_update_elem_of (a : nat)
    (f : bfq_weight_counter -> bfq_weight_counter)
    (l : list (nat * bfq_weight_counter)) (b : nat)
    (c : bfq_weight_counter) :
  (b, c) ∈ l -> (b, if Nat.eqb a b then f c else c) ∈ node_update a f <$> l.
Proof. intros H. apply (list_elem_of_fmap_2 (node_update a f) _ _ H). Qed.

Lemma node_update_elem_of_inv (a : nat)
    (f : bfq_weight_counter -> bfq_weight_counter)
    (l : list (nat * bfq_weight_counter)) (b : nat)
    (c' : bfq_weight_counter) :
  (b, c') ∈ node_update a f <$> l ->
  exists c, (b, c) ∈ l /\ c' = if Nat.eqb a b then f c else c.
Proof.
  intros ([b0 c] & E & Hin)%list_elem_of_fmap. unfold node_update in E.
  cbn in E. injection E as -> ->. exists c. split; [exact Hin | reflexivity].
Qed.

(** Sortedness and distinctness survive the removal of elements. *)
Lemma sorted_weights_filter (P : nat * bfq_weight_counter -> Prop)
    `{forall n, Decision (P n)} (l : list (nat * bfq_weight_counter)) :
  StronglySorted Z.lt ((λ n, cnt_weight (snd n)) <$> l) ->
  StronglySorted Z.lt ((λ n, cnt_weight (snd n)) <$> filter P l).
Proof.
  induction l as [| n l IH]; [intros; constructor |].
  rewrite fmap_cons. intros [F S]%StronglySorted_cons.
  rewrite filter_cons. destruct (decide (P n)); [| apply IH, S].
  rewrite fmap_cons. apply StronglySorted_cons. split; [| apply IH, S].
  rewrite Forall_fmap in *. rewrite Forall_forall in *.
  intros x [_ Hx]%list_elem_of_filter. apply F, Hx.
Qed.

Lemma NoDup_addrs_filter (P : nat * bfq_weight_counter -> Prop)
    `{forall n, Decision (P n)} (l : list (nat * bfq_weight_counter)) :
  NoDup l.*1 -> NoDup (filter P l).*1.
Proof.
  induction l as [| n l IH]; [intros; constructor |].
  rewrite fmap_cons. intros [Hn N]%NoDup_cons.
  rewrite filter_cons. destruct (decide (P n)); [| apply IH, N].
  rewrite fmap_cons. apply NoDup_cons. split; [| apply IH, N].
  intros ([b c] & E & [_ Hin]%list_elem_of_filter)%list_elem_of_fmap.
  apply Hn. rewrite E. apply (list_elem_of_fmap_2 fst _ _ Hin).
Qed.

Lemma NoDup_addrs_unique (l : list (nat * bfq_weight_counter)) (a : nat)
    (c c' : bfq_weight_counter) :
  NoDup l.*1 -> (a, c) ∈ l -> (a, c') ∈ l -> c = c'.
Proof.
  induction l as [| [b d] l IH]; [intros _ H; inversion H |].
  rewrite fmap_cons. cbn [fst]. intros [Hb N]%NoDup_cons.
  intros [E | H]%elem_of_cons [E' | H']%elem_of_cons.
  - congruence.
  - injection E as -> ->. destruct Hb.
    apply (list_elem_of_fmap_2 fst _ _ H').
  - injection E' as -> ->. destruct Hb.
    apply (list_elem_of_fmap_2 fst _ _ H).
  - apply (IH N H H').
Qed.

Lemma sorted_NoDup (l : list Z) : StronglySorted Z.lt l -> NoDup l.
Proof.
  induction l as [| x l IH]; [intros; constructor |].
  intros [F S]%StronglySorted_cons. apply NoDup_cons. split; [| apply IH, S].
  intros Hx. rewrite Forall_forall in F. specialize (F x Hx). lia.
Qed.

(** Counting the pointers to a counter when an entity is replaced. *)
Lemma list_insert_split (es : list bfq_entity) (i : nat) (e e' : bfq_entity) :
  es !! i = Some e ->
  exists l1 l2, es = l1 ++ e :: l2 /\ <[i := e']> es = l1 ++ e' :: l2.
Proof.
  intros Hi. exists (take i es), (drop (S i) es). split.
  - symmetry. apply take_drop_middle, Hi.
  - apply insert_take_drop. eapply lookup_lt_Some, Hi.
Qed.

Lemma pointed_by_insert (a : nat) (es : list bfq_entity) (i : nat)
    (e e' : bfq_entity) :
  es !! i = Some e ->
  (pointed_by a (<[i := e']> es) +
   (if decide (weight_counter e = Some a) then 1 else 0) =
   pointed_by a es +
   (if decide (weight_counter e' = Some a) then 1 else 0))%nat.
Proof.
  intros Hi. destruct (list_insert_split es i e e' Hi) as (l1 & l2 & E & E').
  rewrite E'. rewrite E at 1. unfold pointed_by.
  rewrite !filter_app, !filter_cons, !length_app.
  destruct (decide (weight_counter e = Some a)),
           (decide (weight_counter e' = Some a)); cbn [length]; lia.
Qed.

Lemma pointed_by_le (a : nat) (es : list bfq_entity) :
  (pointed_by a es <= length es)%nat.
Proof. apply length_filter. Qed.

Lemma pointed_by_pos (a : nat) (es : list bfq_entity) (e : bfq_entity) :
  e ∈ es -> weight_counter e = Some a -> (0 < pointed_by a es)%nat.
Proof.
  intros Hin Hwc. unfold pointed_by.
  assert (He : e ∈ filter (λ e, weight_counter e = Some a) es)
    by (apply list_elem_of_filter; split; assumption).
  destruct (filter _ es); [inversion He | cbn; lia].
Qed.

Lemma pointed_by_pos_inv (a : nat) (es : list bfq_entity) :
  (0 < pointed_by a es)%nat ->
  exists e, e ∈ es /\ weight_counter e = Some a.
Proof.
  unfold pointed_by.
  destruct (filter (λ e, weight_counter e = Some a) es) as [| e l] eqn:E;
    [cbn; lia |].
  intros _. exists e.
  assert (He : e ∈ filter (λ e, weight_counter e = Some a) es)
    by (rewrite E; left).
  apply list_elem_of_filter in He as [Hwc Hin]. split; assumption.
Qed.

Lemma elem_of_list_insert (es : list bfq_entity) (i : nat)
    (e e' e0 : bfq_entity) :
  es !! i = Some e -> e0 ∈ <[i := e']> es -> e0 = e' \/ e0 ∈ es.
Proof.
  intros Hi. destruct (list_insert_split es i e e' Hi) as (l1 & l2 & E & E').
  rewrite E', E, !elem_of_app, !elem_of_cons. tauto.
Qed.

Section WeightsTreeFacts.

Variable rb_insert_color : nat -> rb_root -> rb_root.
Variable rb_erase : nat -> rb_root -> rb_root.

(** Rebalancing keeps the counters in their order, and erasing a node
    takes that node out. *)
Hypothesis rb_insert_color_inorder :
  forall a t, rb_inorder (rb_insert_color a t) = rb_inorder t.
Hypothesis rb_erase_inorder :
  forall a t,
    rb_inorder (rb_erase a t) = filter (λ n, fst n ≠ a) (rb_inorder t).

Local Abbreviation tree_add := (bfq_weights_tree_add rb_insert_color).
Local Abbreviation tree_remove := (bfq_weights_tree_remove rb_erase).
Local Abbreviation step := (weights_step rb_insert_color rb_erase).
Local Abbreviation reachable := (weights_reachable rb_insert_color rb_erase).

(** What [bfq_weights_tree_add] does for an entity without a counter:
    it counts the entity in the counter of its weight, or links a new
    counter that counts it. *)
Lemma bfq_weights_tree_add_untracked (kzalloc : option nat)
    (entity : bfq_entity) (root : rb_root) :
  weight_counter entity = None ->
  rb_search_tree root ->
  match tree_add kzalloc entity root with
  | Some (e1, r1) =>
    exists a, e1 = set_weight_counter (Some a) entity /\
      ((exists c, (a, c) ∈ rb_inorder root /\
                  cnt_weight c = weight entity /\
                  rb_inorder r1 = node_update a num_active_incr
                                    <$> rb_inorder root) \/
       (kzalloc = Some a /\
        (weight entity ∉ rb_weights root) /\
        exists l1 l2,
          rb_inorder root = l1 ++ l2 /\
          rb_inorder r1 =
            node_update a num_active_incr
              <$> (l1 ++ (a, {| cnt_weight := weight entity;
                                num_active := 0 |}) :: l2) /\
          Forall (λ n, cnt_weight (snd n) < weight entity) l1 /\
          Forall (λ n, weight entity < cnt_weight (snd n)) l2))
  | None => kzalloc = None /\ weight entity ∉ rb_weights root
  end.
Proof.
  intros Hwc S. unfold bfq_weights_tree_add. rewrite Hwc.
  destruct (weights_tree_walk (weight entity) root) as [a |] eqn:W.
  - exists a. split; [reflexivity |]. left.
    destruct (weights_tree_walk_Some _ _ _ W) as (c & Hc & Hw).
    exists c. repeat split; try assumption. apply rb_inorder_update.
  - pose proof (weights_tree_walk_None _ _ S W) as Hnot.
    destruct kzalloc as [a |]; [| split; [reflexivity | exact Hnot]].
    exists a. split; [reflexivity |]. right.
    split; [reflexivity |]. split; [exact Hnot |].
    destruct (rb_inorder_link_node (weight entity) a
                {| cnt_weight := weight entity; num_active := 0 |} root S Hnot)
      as (l1 & l2 & E & E' & F1 & F2).
    exists l1, l2. repeat split; try assumption.
    rewrite rb_inorder_update, rb_insert_color_inorder, E'. reflexivity.
Qed.

(** What [bfq_weights_tree_remove] does for an entity whose counter is in
    the tree. *)
Lemma bfq_weights_tree_remove_tracked (entity : bfq_entity) (root : rb_root)
    (a : nat) (c : bfq_weight_counter) :
  weight_counter entity = Some a ->
  NoDup (rb_addrs root) ->
  (a, c) ∈ rb_inorder root ->
  cnt_weight c = weight entity ->
  0 < num_active c < 2 ^ 32 ->
  exists r2,
    tree_remove entity root = Some (set_weight_counter None entity, r2) /\
    rb_inorder r2 =
    if 1 <? num_active c
    then node_update a num_active_decr <$> rb_inorder root
    else filter (λ n, fst n ≠ a) (rb_inorder root).
Proof.
  intros Hwc N Hin Hw Hn. unfold bfq_weights_tree_remove. rewrite Hwc.
  rewrite (RB_EMPTY_ROOT_inorder root (a, c) Hin).
  rewrite (rb_find_Some a c root N Hin).
  destruct (Z.eqb_spec (cnt_weight c) (weight entity)); [| contradiction].
  cbn [negb].
  destruct (Z.eqb_spec (num_active c) 0); [lia |].
  rewrite (u32_small (num_active c - 1)) by lia.
  destruct (Z.ltb_spec 0 (num_active c - 1)), (Z.ltb_spec 1 (num_active c));
    try lia; eexists; (split; [reflexivity |]).
  - apply rb_inorder_update.
  - rewrite rb_erase_inorder, rb_inorder_update. apply filter_addr_update.
Qed.

(** C6: [bfq_weights_tree_add] returns at once for an entity that has a
    counter, leaving the entity and the tree as they are; so a second add
    for the same entity changes nothing, in the tree and in the state of
    the device. *)
Theorem bfq_weights_tree_add_idempotent :
  (forall kzalloc entity root,
     weight_counter entity <> None ->
     bfq_weights_tree_add rb_insert_color kzalloc entity root
     = Some (entity, root)) /\
  (forall kzalloc kzalloc' entity root e1 r1,
     bfq_weights_tree_add rb_insert_color kzalloc entity root
     = Some (e1, r1) ->
     bfq_weights_tree_add rb_insert_color kzalloc' e1 r1 = Some (e1, r1)) /\
  (forall i kzalloc kzalloc' s s',
     weights_step rb_insert_color rb_erase (OpAdd i kzalloc) s = Some s' ->
     weights_step rb_insert_color rb_erase (OpAdd i kzalloc') s' = Some s').
Proof.
  assert (H1 : forall kzalloc entity root,
             weight_counter entity <> None ->
             tree_add kzalloc entity root = Some (entity, root)).
  { intros kzalloc entity root H. unfold bfq_weights_tree_add.
    destruct (weight_counter entity); [reflexivity | contradiction]. }
  assert (H2 : forall kzalloc entity root e1 r1,
             tree_add kzalloc entity root = Some (e1, r1) ->
             weight_counter e1 <> None).
  { intros kzalloc entity root e1 r1. unfold bfq_weights_tree_add.
    destruct (weight_counter entity) eqn:E.
    - intros [= <- <-]. rewrite E. discriminate.
    - destruct (weights_tree_walk _ _).
      + intros [= <- <-]. discriminate.
      + destruct kzalloc; [| discriminate]. intros [= <- <-]. discriminate. }
  split; [exact H1 |]. split.
  - intros kzalloc kzalloc' entity root e1 r1 Hadd.
    apply H1. eapply H2, Hadd.
  - intros i kzalloc kzalloc' s s'. unfold weights_step.
    destruct (entities s !! i) as [e |] eqn:Ei; [| discriminate].
    destruct (tree_add kzalloc e (weights_tree s)) as [[e1 r1] |] eqn:Hadd;
      [| discriminate].
    intros [= <-]. cbn [entities weights_tree].
    rewrite list_lookup_insert_eq by (eapply lookup_lt_Some, Ei).
    rewrite (H1 kzalloc' e1 r1) by (eapply H2, Hadd).
    rewrite list_insert_insert_eq. reflexivity.
Qed.


(** An add keeps the invariant, provided a new counter comes at an
    address not in use. *)
Lemma counters_inv_add (es : list bfq_entity) (i : nat) (e e1 : bfq_entity)
    (kzalloc : option nat) (root r1 : rb_root) :
  counters_inv es (rb_inorder root) ->
  Z.of_nat (length es) < 2 ^ 32 ->
  es !! i = Some e ->
  (forall a, kzalloc = Some a -> a ∉ rb_addrs root) ->
  tree_add kzalloc e root = Some (e1, r1) ->
  counters_inv (<[i := e1]> es) (rb_inorder r1).
Proof.
  intros (S & N & Hcnt & Hptr) Hlen Hi Hfresh Hadd.
  destruct (weight_counter e) as [a0 |] eqn:Hwc.
  { unfold bfq_weights_tree_add in Hadd. rewrite Hwc in Hadd.
    injection Hadd as <- <-. rewrite list_insert_id by exact Hi.
    exact (conj S (conj N (conj Hcnt Hptr))). }
  pose proof (bfq_weights_tree_add_untracked kzalloc e root Hwc S) as Hspec.
  rewrite Hadd in Hspec. destruct Hspec as (a & -> & Hcase).
  assert (Hlen' : length (<[i := set_weight_counter (Some a) e]> es)
                  = length es) by apply length_insert.
  assert (Hpt : forall a',
            pointed_by a' (<[i := set_weight_counter (Some a) e]> es) =
            (pointed_by a' es + (if decide (a = a') then 1 else 0))%nat).
  { intros a'.
    pose proof (pointed_by_insert a' es i e
                  (set_weight_counter (Some a) e) Hi) as Hp.
    rewrite Hwc in Hp. cbn [weight_counter set_weight_counter] in Hp.
    destruct (decide (None = Some a')); [discriminate |].
    destruct (decide (Some a = Some a')), (decide (a = a'));
      try congruence; lia. }
  destruct Hcase as [(c & Hc & Hw & ->) |
                     (-> & Hnot & l1 & l2 & E & -> & F1 & F2)].
  - split; [| split; [| split]].
    + rewrite node_update_weights by reflexivity. exact S.
    + rewrite node_update_addrs. exact N.
    + intros a0 c' Hin.
      apply node_update_elem_of_inv in Hin as (c0 & Hc0 & ->).
      destruct (Hcnt a0 c0 Hc0) as [Hn Hpos]. rewrite Hpt.
      pose proof (pointed_by_le a0
                    (<[i := set_weight_counter (Some a) e]> es)) as Hle.
      rewrite Hpt, Hlen' in Hle.
      destruct (Nat.eqb_spec a a0), (decide (a = a0)); try congruence.
      * unfold num_active_incr. cbn [num_active].
        rewrite u32_small by lia. lia.
      * lia.
    + intros e0 a0 Hin Hwc0.
      apply (elem_of_list_insert es i e _ e0 Hi) in Hin as [-> | Hin].
      * injection Hwc0 as <-. exists (num_active_incr c). split; [| exact Hw].
        pose proof (node_update_elem_of a num_active_incr _ a c Hc) as Hu.
        rewrite Nat.eqb_refl in Hu. exact Hu.
      * destruct (Hptr e0 a0 Hin Hwc0) as (c0 & Hc0 & Hw0).
        exists (if Nat.eqb a a0 then num_active_incr c0 else c0).
        split; [apply node_update_elem_of, Hc0 |].
        destruct (Nat.eqb a a0); exact Hw0.
  - specialize (Hfresh a eq_refl). unfold rb_addrs in Hfresh.
    rewrite E in *.
    rewrite fmap_app in Hfresh. rewrite fmap_app in S. rewrite fmap_app in N.
    apply not_elem_of_app in Hfresh as [Hf1 Hf2].
    rewrite fmap_app, fmap_cons, !node_update_other by assumption.
    unfold node_update at 1. cbn [fst snd]. rewrite Nat.eqb_refl.
    set (c1 := num_active_incr _).
    assert (Hzero : pointed_by a es = 0%nat).
    { destruct (pointed_by a es) eqn:Ep; [reflexivity |].
      destruct (pointed_by_pos_inv a es) as (e0 & Hin & Hwc0); [lia |].
      destruct (Hptr e0 a Hin Hwc0) as (c0 & Hc0 & _).
      apply elem_of_app in Hc0 as [Hc0 | Hc0].
      - destruct Hf1. apply (list_elem_of_fmap_2 fst _ _ Hc0).
      - destruct Hf2. apply (list_elem_of_fmap_2 fst _ _ Hc0). }
    apply StronglySorted_app in S as (Hcross & S1 & S2).
    apply NoDup_app in N as (N1 & Hdis & N2).
    rewrite Forall_forall in F1, F2.
    split; [| split; [| split]].
    + rewrite fmap_app, fmap_cons. apply StronglySorted_app.
      split; [| split; [exact S1 |]].
      * intros x1 x2 ([b1 d1] & -> & H1)%list_elem_of_fmap
               [-> | ([b2 d2] & -> & H2)%list_elem_of_fmap]%elem_of_cons.
        -- apply (F1 _ H1).
        -- specialize (F1 _ H1). specialize (F2 _ H2). cbn in *. lia.
      * apply StronglySorted_cons. split; [| exact S2].
        apply Forall_fmap, Forall_forall. intros n Hn. apply (F2 n Hn).
    + rewrite fmap_app, fmap_cons. apply NoDup_app.
      split; [exact N1 |]. split.
      * intros x Hx [-> | Hx2]%elem_of_cons; [contradiction |].
        apply (Hdis x Hx Hx2).
      * apply NoDup_cons. split; assumption.
    + intros a0 c' Hin. rewrite Hpt.
      assert (Hold : (a0, c') ∈ l1 ++ l2 -> a0 <> a ->
                num_active c' = Z.of_nat (pointed_by a0 es + 0) /\
                0 < num_active c').
      { intros Hc0 _. rewrite Nat.add_0_r. apply (Hcnt a0 c' Hc0). }
      apply elem_of_app in Hin as [Hin | [Hin | Hin]%elem_of_cons].
      * assert (a0 <> a)
          by (intros ->; apply Hf1, (list_elem_of_fmap_2 fst _ _ Hin)).
        destruct (decide (a = a0)); [congruence |].
        apply Hold; [apply elem_of_app; tauto | assumption].
      * injection Hin as -> ->. destruct (decide (a = a)); [| congruence].
        rewrite Hzero. split; reflexivity.
      * assert (a0 <> a)
          by (intros ->; apply Hf2, (list_elem_of_fmap_2 fst _ _ Hin)).
        destruct (decide (a = a0)); [congruence |].
        apply Hold; [apply elem_of_app; tauto | assumption].
    + intros e0 a0 Hin Hwc0.
      apply (elem_of_list_insert es i e _ e0 Hi) in Hin as [-> | Hin].
      * injection Hwc0 as <-. exists c1. split; [| reflexivity].
        apply elem_of_app. right. left.
      * destruct (Hptr e0 a0 Hin Hwc0) as (c0 & Hc0 & Hw0).
        exists c0. split; [| exact Hw0].
        rewrite elem_of_app, elem_of_cons. rewrite elem_of_app in Hc0. tauto.
Qed.

(** A remove keeps the invariant. *)
Lemma counters_inv_remove (es : list bfq_entity) (i : nat)
    (e e1 : bfq_entity) (root r1 : rb_root) :
  counters_inv es (rb_inorder root) ->
  Z.of_nat (length es) < 2 ^ 32 ->
  es !! i = Some e ->
  tree_remove e root = Some (e1, r1) ->
  counters_inv (<[i := e1]> es) (rb_inorder r1).
Proof.
  intros (S & N & Hcnt & Hptr) Hlen Hi Hrem.
  destruct (weight_counter e) as [a |] eqn:Hwc.
  2: { unfold bfq_weights_tree_remove in Hrem. rewrite Hwc in Hrem.
       injection Hrem as <- <-. rewrite list_insert_id by exact Hi.
       exact (conj S (conj N (conj Hcnt Hptr))). }
  assert (Hin : e ∈ es) by (eapply list_elem_of_lookup_2, Hi).
  destruct (Hptr e a Hin Hwc) as (c & Hc & Hw).
  destruct (Hcnt a c Hc) as [Hn Hpos].
  pose proof (pointed_by_le a es) as Hle.
  destruct (bfq_weights_tree_remove_tracked e root a c Hwc N Hc Hw)
    as (r2 & Hrun & Hr2); [lia |].
  rewrite Hrun in Hrem. injection Hrem as <- <-. rewrite Hr2.
  assert (Hpt : forall a',
            (pointed_by a' (<[i := set_weight_counter None e]> es) +
             (if decide (a = a') then 1 else 0))%nat = pointed_by a' es).
  { intros a'.
    pose proof (pointed_by_insert a' es i e
                  (set_weight_counter None e) Hi) as Hp.
    rewrite Hwc in Hp. cbn [weight_counter set_weight_counter] in Hp.
    destruct (decide (None = Some a')); [discriminate |].
    destruct (decide (Some a = Some a')), (decide (a = a'));
      try congruence; lia. }
  assert (Hold : forall e0 a0,
            e0 ∈ <[i := set_weight_counter None e]> es ->
            weight_counter e0 = Some a0 -> e0 ∈ es).
  { intros e0 a0 H0 Hwc0.
    apply (elem_of_list_insert es i e _ e0 Hi) in H0 as [-> | H0];
      [discriminate | exact H0]. }
  destruct (Z.ltb_spec 1 (num_active c)) as [Hmany | Hlast].
  - split; [| split; [| split]].
    + rewrite node_update_weights by reflexivity. exact S.
    + rewrite node_update_addrs. exact N.
    + intros a0 c' Hin'.
      apply node_update_elem_of_inv in Hin' as (c0 & Hc0 & ->).
      destruct (Hcnt a0 c0 Hc0) as [Hn0 Hpos0]. specialize (Hpt a0).
      destruct (Nat.eqb_spec a a0), (decide (a = a0)); try congruence.
      * subst a0. unfold num_active_decr. cbn [num_active].
        rewrite u32_small by lia. lia.
      * lia.
    + intros e0 a0 H0 Hwc0.
      destruct (Hptr e0 a0 (Hold e0 a0 H0 Hwc0) Hwc0) as (c0 & Hc0 & Hw0).
      exists (if Nat.eqb a a0 then num_active_decr c0 else c0).
      split; [apply node_update_elem_of, Hc0 |].
      destruct (Nat.eqb a a0); exact Hw0.
  - split; [| split; [| split]].
    + apply sorted_weights_filter, S.
    + apply NoDup_addrs_filter, N.
    + intros a0 c' [Hne Hc0]%list_elem_of_filter. cbn in Hne.
      destruct (Hcnt a0 c' Hc0) as [Hn0 Hpos0]. specialize (Hpt a0).
      destruct (decide (a = a0)); [congruence |]. split; [lia | exact Hpos0].
    + intros e0 a0 H0 Hwc0.
      destruct (Hptr e0 a0 (Hold e0 a0 H0 Hwc0) Hwc0) as (c0 & Hc0 & Hw0).
      exists c0. split; [| exact Hw0].
      apply list_elem_of_filter. split; [| exact Hc0]. cbn. intros ->.
      pose proof (pointed_by_pos a _ e0 H0 Hwc0) as Hp.
      specialize (Hpt a). destruct (decide (a = a)); [| congruence]. lia.
Qed.

Lemma weights_step_length (op : weights_op) (s s' : weights_state) :
  step op s = Some s' -> length (entities s') = length (entities s).
Proof.
  unfold weights_step. destruct op as [i kzalloc | i];
    destruct (entities s !! i) as [e |]; try discriminate.
  - destruct (tree_add kzalloc e (weights_tree s)) as [[e1 r1] |];
      [| discriminate].
    intros [= <-]. apply length_insert.
  - destruct (tree_remove e (weights_tree s)) as [[e1 r1] |];
      [| discriminate].
    intros [= <-]. apply length_insert.
Qed.

Lemma weights_inv_step (op : weights_op) (s s' : weights_state) :
  weights_inv s ->
  Z.of_nat (length (entities s)) < 2 ^ 32 ->
  kzalloc_fresh op s ->
  step op s = Some s' ->
  weights_inv s'.
Proof.
  unfold weights_inv, weights_step. intros Hinv Hlen Hfresh.
  destruct op as [i kzalloc | i];
    destruct (entities s !! i) as [e |] eqn:Hi; try discriminate.
  - destruct (tree_add kzalloc e (weights_tree s)) as [[e1 r1] |] eqn:Hadd;
      [| discriminate].
    intros [= <-]. cbn [entities weights_tree].
    apply (counters_inv_add _ i e e1 kzalloc (weights_tree s) r1 Hinv Hlen Hi);
      [| exact Hadd].
    intros a ->. exact Hfresh.
  - destruct (tree_remove e (weights_tree s)) as [[e1 r1] |] eqn:Hrem;
      [| discriminate].
    intros [= <-]. cbn [entities weights_tree].
    apply (counters_inv_remove _ i e e1 (weights_tree s) r1 Hinv Hlen Hi Hrem).
Qed.

Lemma weights_inv_reachable (s : weights_state) :
  reachable s ->
  Z.of_nat (length (entities s)) < 2 ^ 32 ->
  weights_inv s.
Proof.
  induction 1 as [es Hes | op s s' Hreach IH Hfresh Hstep]; intros Hlen.
  - split; [constructor |]. split; [constructor |]. split.
    + intros a c Hin. inversion Hin.
    + cbn. intros e a Hin Hwc. rewrite Forall_forall in Hes.
      rewrite (Hes e Hin) in Hwc. discriminate.
  - rewrite (weights_step_length op s s' Hstep) in Hlen.
    apply (weights_inv_step op s s' (IH Hlen) Hlen Hfresh Hstep).
Qed.

(** Under the invariant the tree has one node for each weight that some
    tracked entity has. *)
Lemma weights_inv_node_count (s : weights_state) :
  weights_inv s ->
  length (rb_inorder (weights_tree s)) =
  distinct_tracked_weights (entities s).
Proof.
  intros (S & N & Hcnt & Hptr). unfold distinct_tracked_weights.
  set (l := rb_inorder (weights_tree s)) in *.
  set (ws := (λ n, cnt_weight (snd n)) <$> l) in *.
  assert (E : list_to_set (C := gset Z) (tracked_weights (entities s))
              = list_to_set ws).
  { apply set_eq. intros w. rewrite !elem_of_list_to_set.
    unfold tracked_weights, ws. rewrite !list_elem_of_fmap. split.
    - intros (e & -> & [Hwc Hin]%list_elem_of_filter).
      destruct (weight_counter e) as [a |] eqn:Ha; [| contradiction].
      destruct (Hptr e a Hin Ha) as (c & Hc & Hw).
      exists (a, c). split; [symmetry; exact Hw | exact Hc].
    - intros ([a c] & -> & Hc). cbn [snd].
      destruct (Hcnt a c Hc) as [Hn Hpos].
      destruct (pointed_by_pos_inv a (entities s)) as (e & Hin & Hwc); [lia |].
      destruct (Hptr e a Hin Hwc) as (c' & Hc' & Hw).
      assert (c' = c) as ->.
      { apply (NoDup_addrs_unique l a c' c N Hc' Hc). }
      exists e. split; [exact Hw |].
      apply list_elem_of_filter. split; [congruence | exact Hin]. }
  rewrite E, size_list_to_set by apply sorted_NoDup, S.
  unfold ws. rewrite length_fmap. reflexivity.
Qed.

(** An add for an untracked entity followed by a remove gives back the
    counters the tree had. *)
Lemma bfq_weights_tree_add_remove (a : nat) (entity : bfq_entity)
    (root : rb_root) :
  weight_counter entity = None ->
  rb_search_tree root ->
  NoDup (rb_addrs root) ->
  rb_counters_in_use root ->
  a ∉ rb_addrs root ->
  exists e1 r1 r2,
    tree_add (Some a) entity root = Some (e1, r1) /\
    weight_counter e1 <> None /\
    tree_remove e1 r1 = Some (entity, r2) /\
    rb_inorder r2 = rb_inorder root /\
    (weight entity ∉ rb_weights root ->
     weight_counter e1 = Some a /\
     a ∈ rb_addrs r1 /\
     length (rb_inorder r1) = S (length (rb_inorder root)) /\
     a ∉ rb_addrs r2).
Proof.
  intros Hwc S N Huse Hfresh.
  pose proof (bfq_weights_tree_add_untracked (Some a) entity root Hwc S)
    as Hspec.
  destruct (tree_add (Some a) entity root) as [[e1 r1] |];
    [| destruct Hspec; discriminate].
  destruct Hspec as (a' & -> & Hcase).
  exists (set_weight_counter (Some a') entity), r1.
  unfold rb_counters_in_use in Huse. rewrite Forall_forall in Huse.
  destruct Hcase as [(c & Hc & Hw & Hr1) |
                     ([= <-] & Hnot & l1 & l2 & E & Hr1 & F1 & F2)].
  - pose proof (Huse _ Hc) as Hn. cbn [snd] in Hn.
    destruct (bfq_weights_tree_remove_tracked
                (set_weight_counter (Some a') entity) r1 a'
                (num_active_incr c)) as (r2 & Hrun & Hr2).
    + reflexivity.
    + unfold rb_addrs. rewrite Hr1, node_update_addrs. exact N.
    + rewrite Hr1.
      pose proof (node_update_elem_of a' num_active_incr _ a' c Hc) as Hu.
      rewrite Nat.eqb_refl in Hu. exact Hu.
    + exact Hw.
    + cbn [num_active num_active_incr]. rewrite u32_small by lia. lia.
    + exists r2. rewrite set_weight_counter_None in Hrun by exact Hwc.
      split; [reflexivity |]. split; [discriminate |].
      split; [exact Hrun |]. split.
      * rewrite Hr2, Hr1. cbn [num_active num_active_incr].
        rewrite u32_small by lia.
        destruct (Z.ltb_spec 1 (num_active c + 1)); [| lia].
        rewrite <- list_fmap_compose.
        rewrite <- (list_fmap_id (rb_inorder root)) at 2.
        apply list_fmap_ext. intros k [b d] Hk. unfold node_update.
        cbn [fst snd compose].
        destruct (Nat.eqb a' b); [| reflexivity].
        rewrite num_active_incr_decr; [reflexivity |].
        pose proof (Huse (b, d) (list_elem_of_lookup_2 _ _ _ Hk)) as Hd.
        cbn [snd] in Hd. lia.
      * intros Hnot. exfalso. apply Hnot. unfold rb_weights.
        rewrite <- Hw.
        apply (list_elem_of_fmap_2 (λ n, cnt_weight (snd n)) _ _ Hc).
  - unfold rb_addrs in Hfresh, N. rewrite E in Hfresh, N.
    rewrite fmap_app in Hfresh. rewrite fmap_app in N.
    apply not_elem_of_app in Hfresh as [Hf1 Hf2].
    rewrite fmap_app, fmap_cons, !node_update_other in Hr1 by assumption.
    unfold node_update in Hr1. cbn [fst snd] in Hr1.
    rewrite Nat.eqb_refl in Hr1.
    set (c1 := num_active_incr _) in Hr1.
    apply NoDup_app in N as (N1 & Hdis & N2).
    destruct (bfq_weights_tree_remove_tracked
                (set_weight_counter (Some a) entity) r1 a c1)
      as (r2 & Hrun & Hr2).
    + reflexivity.
    + unfold rb_addrs. rewrite Hr1, fmap_app, fmap_cons. apply NoDup_app.
      split; [exact N1 |]. split.
      * intros x Hx [-> | Hx2]%elem_of_cons; [contradiction |].
        apply (Hdis x Hx Hx2).
      * apply NoDup_cons. split; assumption.
    + rewrite Hr1. apply elem_of_app. right. left.
    + reflexivity.
    + assert (Hc1 : num_active c1 = 1) by reflexivity. rewrite Hc1. lia.
    + exists r2. rewrite set_weight_counter_None in Hrun by exact Hwc.
      change (1 <? num_active c1) with false in Hr2.
      assert (Hback : rb_inorder r2 = rb_inorder root).
      { rewrite Hr2, Hr1, E, filter_app, filter_cons_False
          by (cbn; intros H; apply H; reflexivity).
        rewrite !filter_addr_other by assumption. reflexivity. }
      split; [reflexivity |]. split; [discriminate |].
      split; [exact Hrun |]. split; [exact Hback |].
      intros _. split; [reflexivity |]. split; [| split].
      * unfold rb_addrs. rewrite Hr1, fmap_app, fmap_cons.
        apply elem_of_app. right. left.
      * rewrite Hr1, E, !length_app. cbn [length]. lia.
      * unfold rb_addrs. rewrite Hback, E, fmap_app.
        apply not_elem_of_app. split; assumption.
Qed.

(** X19: when the allocator returns a counter at an address that no
    counter of the tree has, an add for an entity without a counter,
    followed by a remove, succeeds on a tree in search order with
    distinct addresses and counters in use, and leaves the counters of
    the tree as they were, with their weights and their numbers of
    active entities; a counter that the add created is erased again; the
    entity ends without a counter, as it began; and in every state that
    successful adds and removes reach from an empty tree, the tree has
    as many nodes as there are distinct weights among the entities that
    have a counter. *)
Theorem bfq_weights_tree_add_remove_roundtrip :
  (forall a entity root,
     weight_counter entity = None ->
     rb_search_tree root ->
     NoDup (rb_addrs root) ->
     rb_counters_in_use root ->
     a ∉ rb_addrs root ->
     exists e1 r1 e2 r2,
       bfq_weights_tree_add rb_insert_color (Some a) entity root
       = Some (e1, r1) /\
       weight_counter e1 <> None /\
       bfq_weights_tree_remove rb_erase e1 r1 = Some (e2, r2) /\
       rb_inorder r2 = rb_inorder root /\
       weight_counter e2 = None /\
       e2 = entity /\
       (weight entity ∉ rb_weights root ->
        weight_counter e1 = Some a /\
        a ∈ rb_addrs r1 /\
        length (rb_inorder r1) = S (length (rb_inorder root)) /\
        a ∉ rb_addrs r2)) /\
  (forall s,
     weights_reachable rb_insert_color rb_erase s ->
     Z.of_nat (length (entities s)) < 2 ^ 32 ->
     length (rb_inorder (weights_tree s)) =
     distinct_tracked_weights (entities s)).
Proof.
  split.
  - intros a entity root Hwc S N Huse Hfresh.
    destruct (bfq_weights_tree_add_remove a entity root Hwc S N Huse Hfresh)
      as (e1 & r1 & r2 & Hadd & Hsome & Hrem & Hback & Hnew).
    exists e1, r1, entity, r2. repeat split; try assumption; apply Hnew;
      assumption.
  - intros s Hreach Hlen.
    apply weights_inv_node_count, weights_inv_reachable; assumption.
Qed.

End WeightsTreeFacts.

(** ** The tree without rebalancing *)

Lemma plain_insert_color_inorder (a : nat) (t : rb_root) :
  rb_inorder (plain_insert_color a t) = rb_inorder t.
Proof. reflexivity. Qed.

Lemma rb_inorder_join (l r : rb_root) :
  rb_inorder (rb_join l r) = rb_inorder l ++ rb_inorder r.
Proof.
  induction l as [| ll _ b c lr IH]; [reflexivity |].
  cbn [rb_join rb_inorder]. rewrite IH, <- app_assoc. reflexivity.
Qed.

Lemma plain_erase_inorder (a : nat) (t : rb_root) :
  rb_inorder (plain_erase a t) = filter (λ n, fst n ≠ a) (rb_inorder t).
Proof.
  induction t as [| l IHl b c r IHr]; [reflexivity |].
  cbn [plain_erase rb_inorder]. rewrite filter_app, filter_cons. cbn [fst].
  destruct (Nat.eqb_spec a b) as [-> | Hne].
  - rewrite rb_inorder_join, IHl, IHr.
    destruct (decide (b ≠ b)); [congruence | reflexivity].
  - cbn [rb_inorder]. rewrite IHl, IHr.
    destruct (decide (b ≠ a)) as [_ | Hn]; [reflexivity |].
    destruct Hn. congruence.
Qed.

Lemma sample_add_bfqq_busy_frame (st : bfq_data) (q : nat) (z : bfq_queue) :
  bfqqs st !! q = Some z ->
  exists z', bfqqs (sample_add_bfqq_busy st q) !! q = Some z' /\
             wr_coeff z' = wr_coeff z /\
             flag_in_large_burst z' = flag_in_large_burst z.
Proof.
  intros Hz. unfold sample_add_bfqq_busy, sample_activate_bfqq.
  rewrite !bfqqs_upd_bfqq, !lookup_alter_eq, Hz. cbn.
  eexists. split; [reflexivity |]. split; reflexivity.
Qed.

(** ** The definitions at work *)

Example choose_sync_over_async :
  bfq_choose_req sample_rq_at REQ_META_mask rw_is_sync
    (sample_bfqd ∅ true 0 false []) (Some 3%nat) (Some 1%nat) 1000
  = Some 1%nat.
Proof. reflexivity. Qed.

Example choose_both_wrap :
  bfq_choose_req sample_rq_at REQ_META_mask rw_is_sync
    (sample_bfqd ∅ true 0 false []) (Some 2%nat) (Some 4%nat) 10000
  = Some 4%nat.
Proof. reflexivity. Qed.

Example choose_one_wraps :
  bfq_choose_req sample_rq_at REQ_META_mask rw_is_sync
    (sample_bfqd ∅ true 0 false []) (Some 4%nat) (Some 2%nat) 2500
  = Some 2%nat.
Proof. reflexivity. Qed.

Example burst_below_threshold :
  burst_list (bfq_handle_burst 10010
                (sample_bfqd burst_queues true 3 false [3; 2; 1]%nat) 8 false)
  = [8; 3; 2; 1]%nat.
Proof. reflexivity. Qed.

Example burst_after_the_interval :
  burst_list (bfq_handle_burst 10033 burst_bfqd 8 false) = [8%nat] /\
  burst_size (bfq_handle_burst 10033 burst_bfqd 8 false) = 1.
Proof. split; reflexivity. Qed.

Example tree_add_new_weight :
  option_map (λ r, rb_weights (snd r))
    (bfq_weights_tree_add plain_insert_color (Some 5%nat) sample_entity
                          sample_root)
  = Some [50; 100; 200].
Proof. reflexivity. Qed.

Example tree_three_entities :
  match weights_step plain_insert_color plain_erase (OpAdd 0 (Some 1%nat))
          {| entities := sample_entities; weights_tree := RbNil |} with
  | Some s1 =>
    match weights_step plain_insert_color plain_erase (OpAdd 1 (Some 2%nat))
            s1 with
    | Some s2 =>
      match weights_step plain_insert_color plain_erase
              (OpAdd 2 (Some 3%nat)) s2 with
      | Some s3 =>
        snd <$> rb_inorder (weights_tree s3) =
        [ {| cnt_weight := 100; num_active := 2 |};
          {| cnt_weight := 300; num_active := 1 |} ] /\
        distinct_tracked_weights (entities s3) = 2%nat
      | None => False
      end
    | None => False
    end
  | None => False
  end.
Proof. vm_compute. split; reflexivity. Qed.

Lemma bfq_choose_req_total_witness :
  bfq_choose_req sample_rq_at REQ_META_mask rw_is_sync
    (sample_bfqd ∅ true 0 false []) None (Some 1%nat) 1000 = Some 1%nat.
Proof.
  apply (bfq_choose_req_total sample_rq_at REQ_META_mask rw_is_sync
           (sample_bfqd ∅ true 0 false []) None (Some 1%nat) 1000).
  left. reflexivity.
Defined.

Lemma bfq_choose_req_preference_witness :
  bfq_choose_req sample_rq_at REQ_META_mask rw_is_sync
    (sample_bfqd ∅ true 0 false []) (Some 1%nat) (Some 4%nat) 1000
  = Some 1%nat.
Proof.
  destruct (bfq_choose_req_preference sample_rq_at REQ_META_mask rw_is_sync
              (sample_bfqd ∅ true 0 false []) 1 4 1000)
    as (_ & _ & _ & _ & _ & H);
    [discriminate | cbn; lia | cbn; lia | vm_compute; reflexivity
     | cbn; lia | vm_compute; reflexivity
     | cbn; unfold default_back_penalty; lia |].
  specialize (H eq_refl eq_refl). vm_compute in H.
  destruct H as [H _]. apply H. reflexivity.
Defined.

Lemma bfq_choose_req_back_seek_scenario_witness :
  bfq_seek (sample_bfqd ∅ true 0 false []) 1000 2000 BFQ_RQ1_WRAP
    = (1000, 0) /\
  bfq_seek (sample_bfqd ∅ true 0 false []) 1000 900 BFQ_RQ2_WRAP
    = (200, 0) /\
  bfq_choose_req sample_rq_at REQ_META_mask rw_is_sync
    (sample_bfqd ∅ true 0 false []) (Some 1%nat) (Some 2%nat) 1000
  = Some 2%nat.
Proof.
  apply (bfq_choose_req_back_seek_scenario sample_rq_at REQ_META_mask
           rw_is_sync (sample_bfqd ∅ true 0 false []) 1 2);
    first [discriminate | reflexivity].
Defined.

Lemma bfq_serv_to_charge_async_factor_witness :
  bfq_serv_to_charge (sample_rq_at 3) (sample_bfqq false false 1) = 176 /\
  bfq_serv_to_charge (sample_rq_at 3) (sample_bfqq false false 30) = 16 /\
  bfq_serv_to_charge (sample_rq_at 3) (sample_bfqq true false 1) = 16.
Proof.
  assert (H : 0 <= __data_len (sample_rq_at 3) < 2 ^ 32) by (cbn; lia).
  split; [| split].
  - rewrite (proj2 (bfq_serv_to_charge_async_factor (sample_rq_at 3)
                      (sample_bfqq false false 1) H)). reflexivity.
  - rewrite (proj2 (bfq_serv_to_charge_async_factor (sample_rq_at 3)
                      (sample_bfqq false false 30) H)). reflexivity.
  - rewrite (proj2 (bfq_serv_to_charge_async_factor (sample_rq_at 3)
                      (sample_bfqq true false 1) H)). reflexivity.
Defined.

Lemma bfq_handle_burst_large_burst_witness :
  let st' := bfq_handle_burst 10010 burst_bfqd 8 false in
  large_burst st' = true /\
  burst_list st' = [] /\
  in_large_burst_at 8 st' = true /\
  in_large_burst_at 3 st' = true.
Proof.
  destruct (bfq_handle_burst_large_burst 10010 burst_bfqd 8 false)
    as [H _].
  - refine (bool_decide_unpack _ _). vm_compute. exact I.
  - reflexivity.
  - reflexivity.
  - cbn. lia.
  - destruct (H eq_refl eq_refl) as (H1 & H2 & H3 & _).
    split; [exact H1 |]. split; [exact H2 |].
    unfold in_large_burst_at. split.
    + rewrite (H3 8%nat) by (refine (bool_decide_unpack _ _);
                             vm_compute; exact I).
      reflexivity.
    + rewrite (H3 3%nat) by (refine (bool_decide_unpack _ _);
                             vm_compute; exact I).
      reflexivity.
Defined.

Lemma bfq_handle_burst_idle_for_long_time_witness :
  bfq_handle_burst 20000 (raised_bfqd true) 7 true =
  bfq_handle_burst 20000
    (upd_bfqq 7 (set_flag_in_large_burst false) (raised_bfqd true)) 7 true.
Proof.
  symmetry.
  apply (bfq_handle_burst_idle_for_long_time 20000 (raised_bfqd true) 7).
Defined.

Lemma bfq_updated_next_req_in_service_witness :
  let st :=
    sample_bfqd {[ 7%nat := set_next_rq (Some 1%nat)
                              (sample_bfqq true false 1) ]}
                true 0 false [] in
  let busy :=
    {| bfqqs := bfqqs st; bfqd_queued := 1; wr_busy_queues := 0;
       in_service_queue := Some 7%nat; in_service_entity := Some 7%nat;
       last_position := 1000; peak_rate := 17415;
       bfq_back_penalty := 2; bfq_back_max := 1000; bfq_slice_idle := 2;
       bfq_requests_within_timer := 120; last_ins_in_burst := 10000;
       bfq_burst_interval := 32; burst_size := 0;
       bfq_large_burst_thresh := 8; large_burst := false; burst_list := [];
       low_latency := true; bfq_wr_coeff := 30; bfq_wr_max_time := 0;
       bfq_wr_rt_max_time := 75; bfq_wr_min_idle_time := 500;
       bfq_wr_min_inter_arr_async := 125; bfq_wr_max_softrt_rate := 7000;
       RT_prod := 17415 * 1000 |} in
  bfq_updated_next_req sample_rq_at sample_activate_bfqq busy 7 = Some busy.
Proof.
  intros st busy.
  eapply (proj1 (bfq_updated_next_req_in_service sample_rq_at
                   sample_activate_bfqq busy 7)); reflexivity.
Defined.

Lemma bfq_add_request_in_large_burst_witness :
  exists bfqd' bfqq',
    bfq_add_request sample_rq_at REQ_META_mask rw_is_sync
      sample_last_end_request sample_elv_rb_add sample_activate_bfqq
      sample_add_bfqq_busy 100 (raised_bfqd true) 1 7 = Some bfqd' /\
    bfqqs bfqd' !! 7%nat = Some bfqq' /\
    (bfq_bfqq_in_large_burst bfqq' = true ->
     (wr_coeff (sample_bfqq true true 30) <= 1 ->
      wr_coeff bfqq' = wr_coeff (sample_bfqq true true 30)) /\
     (1 < wr_coeff (sample_bfqq true true 30) ->
      low_latency (raised_bfqd true) = true -> wr_coeff bfqq' = 1) /\
     (low_latency (raised_bfqd true) = false ->
      wr_coeff bfqq' = wr_coeff (sample_bfqq true true 30))).
Proof.
  apply (bfq_add_request_in_large_burst sample_rq_at REQ_META_mask rw_is_sync
           sample_last_end_request sample_elv_rb_add sample_activate_bfqq
           sample_add_bfqq_busy 100 (raised_bfqd true) 1 7
           (sample_bfqq true true 30)).
  - exact sample_add_bfqq_busy_frame.
  - reflexivity.
  - reflexivity.
Defined.

(** With [low_latency] off, a weight-raised queue that is part of a large
    burst goes from idle to busy and keeps its coefficient of 30. *)
Lemma bfq_add_request_low_latency_off_keeps_wr_coeff :
  exists bfqd' bfqq',
    bfqqs (raised_bfqd false) !! 7%nat = Some (sample_bfqq true true 30) /\
    bfq_bfqq_busy (sample_bfqq true true 30) = false /\
    bfq_bfqq_in_large_burst (sample_bfqq true true 30) = true /\
    bfq_add_request sample_rq_at REQ_META_mask rw_is_sync
      sample_last_end_request sample_elv_rb_add sample_activate_bfqq
      sample_add_bfqq_busy 100 (raised_bfqd false) 1 7 = Some bfqd' /\
    bfqqs bfqd' !! 7%nat = Some bfqq' /\
    bfq_bfqq_busy bfqq' = true /\
    bfq_bfqq_in_large_burst bfqq' = true /\
    wr_coeff bfqq' = 30 /\
    wr_coeff bfqq' <> 1.
Proof.
  eexists. eexists.
  split; [reflexivity |]. split; [reflexivity |]. split; [reflexivity |].
  split; [vm_compute; reflexivity |].
  split; [vm_compute; reflexivity |].
  split; [reflexivity |]. split; [reflexivity |]. split; [reflexivity |].
  discriminate.
Qed.

Lemma bfq_weights_tree_add_idempotent_witness :
  bfq_weights_tree_add plain_insert_color (Some 6%nat)
    (set_weight_counter (Some 1%nat) sample_entity) sample_root
  = Some (set_weight_counter (Some 1%nat) sample_entity, sample_root).
Proof.
  apply (proj1 (bfq_weights_tree_add_idempotent plain_insert_color
                  plain_erase)).
  discriminate.
Defined.

Lemma bfq_weights_tree_add_remove_roundtrip_witness :
  exists e1 r1 e2 r2,
    bfq_weights_tree_add plain_insert_color (Some 5%nat) sample_entity
                         sample_root = Some (e1, r1) /\
    weight_counter e1 <> None /\
    bfq_weights_tree_remove plain_erase e1 r1 = Some (e2, r2) /\
    rb_inorder r2 = rb_inorder sample_root /\
    weight_counter e2 = None /\
    e2 = sample_entity /\
    (weight sample_entity ∉ rb_weights sample_root ->
     weight_counter e1 = Some 5%nat /\
     5%nat ∈ rb_addrs r1 /\
     length (rb_inorder r1) = S (length (rb_inorder sample_root)) /\
     5%nat ∉ rb_addrs r2).
Proof.
  apply (proj1 (bfq_weights_tree_add_remove_roundtrip plain_insert_color
                  plain_erase plain_insert_color_inorder
                  plain_erase_inorder)).
  - reflexivity.
  - unfold rb_search_tree. cbn. repeat constructor; lia.
  - refine (bool_decide_unpack _ _). vm_compute. exact I.
  - unfold rb_counters_in_use. cbn. repeat constructor; cbn; lia.
  - refine (bool_decide_unpack _ _). vm_compute. exact I.
Defined.
(** * Further properties *)

(** ** The chooser and the next request of a queue *)

Section ChooserOrder.

Variable rq_at : nat -> request.
Variable REQ_META : Z.
Variable rq_is_sync : request -> bool.

Lemma bfq_seek_cases (bfqd : bfq_data) (last s : Z) :
  (exists d, forall bit, bfq_seek bfqd last s bit = (d, 0)) \/
  (forall bit, bfq_seek bfqd last s bit = (0, bit)).
Proof.
  unfold bfq_seek. destruct (last <=? s); [left; eauto |].
  destruct (last <=? u64 (s + back_max_of bfqd)); [left; eauto | right].
  reflexivity.
Qed.

Lemma bfq_choose_req_None (bfqd : bfq_data) (rq1 rq2 : option nat)
    (last : Z) :
  bfq_choose_req rq_at REQ_META rq_is_sync bfqd rq1 rq2 last = None ->
  rq1 = None /\ rq2 = None.
Proof.
  intros H.
  destruct (bfq_choose_req_one_of rq_at REQ_META rq_is_sync bfqd rq1 rq2 last)
    as [E | E]; rewrite H in E; subst.
  - split; [reflexivity |]. destruct rq2; [discriminate H | reflexivity].
  - split; [| reflexivity].
    destruct rq1 as [p |]; [| reflexivity].
    cbn in H. discriminate H.
Qed.

(** X1: the chooser does not depend on the order of its two arguments
    when the two requests start at different sectors; two distinct
    requests of the same class that start at the same sector are a tie,
    which the first argument wins. *)
Theorem bfq_choose_req_order (bfqd : bfq_data) (p1 p2 : nat) (last : Z) :
  let s1 := blk_rq_pos (rq_at p1) in
  let s2 := blk_rq_pos (rq_at p2) in
  (s1 <> s2 ->
   bfq_choose_req rq_at REQ_META rq_is_sync bfqd (Some p1) (Some p2) last =
   bfq_choose_req rq_at REQ_META rq_is_sync bfqd (Some p2) (Some p1) last) /\
  (p1 <> p2 -> s1 = s2 ->
   rq_is_sync (rq_at p1) = rq_is_sync (rq_at p2) ->
   rq_is_meta REQ_META (rq_at p1) = rq_is_meta REQ_META (rq_at p2) ->
   bfq_choose_req rq_at REQ_META rq_is_sync bfqd (Some p1) (Some p2) last
   = Some p1).
Proof.
  intros s1 s2. split.
  - intros Hs.
    assert (Hne : p1 <> p2) by (intros ->; apply Hs; reflexivity).
    rewrite (bfq_choose_req_distinct rq_at REQ_META rq_is_sync bfqd p1 p2
               last Hne).
    rewrite (bfq_choose_req_distinct rq_at REQ_META rq_is_sync bfqd p2 p1
               last (not_eq_sym Hne)).
    cbv zeta. fold s1 s2.
    destruct (rq_is_sync (rq_at p1)), (rq_is_sync (rq_at p2));
      cbn [andb negb]; try reflexivity;
      destruct (rq_is_meta REQ_META (rq_at p1)),
               (rq_is_meta REQ_META (rq_at p2));
      cbn [andb negb]; try reflexivity;
      destruct (bfq_seek_cases bfqd last s1) as [[d1 E1] | E1],
               (bfq_seek_cases bfqd last s2) as [[d2 E2] | E2];
      rewrite !E1, !E2; cbn;
      try reflexivity;
      try (destruct (Z.ltb_spec d1 d2), (Z.ltb_spec d2 d1),
                    (Z.leb_spec s1 s2), (Z.leb_spec s2 s1);
           first [reflexivity | lia]);
      destruct (Z.leb_spec s1 s2), (Z.leb_spec s2 s1);
      first [reflexivity | lia].
  - intros Hne Hs Hy Hm.
    rewrite (bfq_choose_req_distinct rq_at REQ_META rq_is_sync bfqd p1 p2
               last Hne).
    cbv zeta. fold s1 s2. rewrite Hy, Hm, Hs.
    replace (rq_is_sync (rq_at p2) && negb (rq_is_sync (rq_at p2)))
      with false by (destruct (rq_is_sync (rq_at p2)); reflexivity).
    replace (rq_is_meta REQ_META (rq_at p2) &&
             negb (rq_is_meta REQ_META (rq_at p2)))
      with false by (destruct (rq_is_meta REQ_META (rq_at p2)); reflexivity).
    destruct (bfq_seek_cases bfqd last s2) as [[d E] | E]; rewrite !E; cbn.
    + rewrite Z.ltb_irrefl, Z.leb_refl. reflexivity.
    + rewrite Z.leb_refl. reflexivity.
Qed.

End ChooserOrder.
Lemma rb_next_split (l1 l2 : list nat) (p : nat) :
  p ∉ l1 -> rb_next (l1 ++ p :: l2) p = head l2.
Proof.
  induction l1 as [| x l1 IH]; cbn [app rb_next].
  - intros _. rewrite Nat.eqb_refl. reflexivity.
  - intros [Hx Hl]%not_elem_of_cons.
    destruct (Nat.eqb_spec x p); [congruence | apply IH, Hl].
Qed.

Lemma rb_prev_split (l1 l2 : list nat) (p : nat) :
  p ∉ l1 -> rb_prev (l1 ++ p :: l2) p = last l1.
Proof.
  induction l1 as [| x l1 IH].
  - intros _. cbn. rewrite Nat.eqb_refl. reflexivity.
  - intros [Hx Hl]%not_elem_of_cons. cbn [app rb_prev].
    destruct (Nat.eqb_spec x p); [congruence |].
    destruct l1 as [| y l1].
    + cbn. rewrite Nat.eqb_refl. reflexivity.
    + apply not_elem_of_cons in Hl as [Hy Hl'].
      cbn [app]. destruct (Nat.eqb_spec y p); [congruence |].
      change (last (x :: y :: l1)) with (last (y :: l1)).
      rewrite <- IH by (apply not_elem_of_cons; split; assumption).
      reflexivity.
Qed.

Section NextRequestFacts.

Variable rq_at : nat -> request.
Variable REQ_META : Z.
Variable rq_is_sync : request -> bool.

(** X2: for a request of the sort tree, [bfq_find_next_rq] passes its
    [BUG_ON] and returns a request of the tree other than the one given,
    and null exactly when that request is alone in the tree. *)
Theorem bfq_find_next_rq_other (bfqd : bfq_data) (bfqq : bfq_queue)
    (rq0 : nat) :
  NoDup (sort_list bfqq) ->
  rq0 ∈ sort_list bfqq ->
  exists r,
    bfq_find_next_rq rq_at REQ_META rq_is_sync bfqd bfqq rq0 = Some r /\
    (r = None <-> sort_list bfqq = [rq0]) /\
    (forall p, r = Some p -> p ∈ sort_list bfqq /\ p <> rq0).
Proof.
  intros N Hin. unfold bfq_find_next_rq, RB_EMPTY_NODE.
  rewrite bool_decide_eq_true_2 by exact Hin. cbn [negb].
  destruct (list_elem_of_split_l _ _ Hin) as (l1 & l2 & E & Hl1).
  rewrite E in *. rewrite rb_next_split, rb_prev_split by exact Hl1.
  apply NoDup_app in N as (N1 & Hdis & [Hl2 N2]%NoDup_cons).
  set (next := match head l2 with
               | Some n => Some n
               | None => match rb_first (l1 ++ rq0 :: l2) with
                         | Some n => if Nat.eqb n rq0 then None else Some n
                         | None => None
                         end
               end).
  assert (Hnext : (next = None <-> l1 = [] /\ l2 = []) /\
                  forall p, next = Some p ->
                    p ∈ l1 ++ rq0 :: l2 /\ p <> rq0).
  { subst next. destruct l2 as [| n l2]; cbn [head].
    - destruct l1 as [| f l1]; cbn [rb_first head app].
      + rewrite Nat.eqb_refl. split; [tauto | discriminate].
      + apply not_elem_of_cons in Hl1 as [Hf _].
        destruct (Nat.eqb_spec f rq0); [congruence |]. split.
        * split; [discriminate | intros [? _]; discriminate].
        * intros p [= <-]. split; [left | congruence].
    - split.
      + split; [discriminate | intros [_ ?]; discriminate].
      + intros p [= <-]. split.
        * apply elem_of_app. right. right. left.
        * intros ->. apply Hl2. left. }
  assert (Hprev : (last l1 = None <-> l1 = []) /\
                  forall p, last l1 = Some p ->
                    p ∈ l1 ++ rq0 :: l2 /\ p <> rq0).
  { split.
    - apply last_None.
    - intros p Hp. assert (p ∈ l1).
      { apply last_Some in Hp as [l' ->]. apply elem_of_app. right. left. }
      split; [apply elem_of_app; tauto | congruence]. }
  destruct Hnext as [Hn1 Hn2], Hprev as [Hp1 Hp2].
  eexists. split; [reflexivity |]. split.
  - split.
    + intros [Hn Hp]%bfq_choose_req_None.
      apply Hn1 in Hn as [-> ->]. reflexivity.
    + intros Hone.
      assert (l1 = [] /\ l2 = []) as [-> ->].
      { destruct l1 as [| x l1]; [cbn in Hone; split; congruence |].
        destruct l1; discriminate Hone. }
      subst next. cbn. rewrite Nat.eqb_refl. reflexivity.
  - intros p Hp.
    destruct (bfq_choose_req_one_of rq_at REQ_META rq_is_sync bfqd next
                (last l1) (blk_rq_pos (rq_at rq0))) as [Ec | Ec];
      rewrite Hp in Ec; symmetry in Ec; auto.
Qed.

End NextRequestFacts.

(** ** Charging and the duration of weight raising *)

(** X3: whatever the queue, a request is charged at least its sectors
    and at most eleven times its sectors, which stays below 2^27: the
    32-bit product of the charge never wraps. *)
Theorem bfq_serv_to_charge_bounds (rq : request) (bfqq : bfq_queue) :
  0 <= __data_len rq < 2 ^ 32 ->
  blk_rq_sectors rq <= bfq_serv_to_charge rq bfqq /\
  bfq_serv_to_charge rq bfqq
    <= (1 + bfq_async_charge_factor) * blk_rq_sectors rq /\
  bfq_serv_to_charge rq bfqq < 2 ^ 27.
Proof.
  intros H. pose proof (blk_rq_sectors_range rq H) as Hr.
  unfold bfq_serv_to_charge, bfq_async_charge_factor in *.
  destruct (bfq_bfqq_sync bfqq), (wr_coeff bfqq =? 1); cbn [negb b2z];
    rewrite u32_small by lia; lia.
Qed.

(** X4: with no maximum configured and the same [RT_prod], a device
    with a higher peak rate is granted a weight-raising duration that is
    no longer, provided the quotient of the slower device fits the
    [unsigned int] that [bfq_wr_duration] returns, and the rates are not
    zero and fit 32 bits. *)
Theorem bfq_wr_duration_faster_device (d1 d2 : bfq_data) :
  bfq_wr_max_time d1 = 0 ->
  bfq_wr_max_time d2 = 0 ->
  RT_prod d2 = RT_prod d1 ->
  0 <= RT_prod d1 < 2 ^ 64 ->
  0 < peak_rate d1 ->
  peak_rate d1 <= peak_rate d2 < 2 ^ 32 ->
  RT_prod d1 / peak_rate d1 < 2 ^ 32 ->
  bfq_wr_duration d2 <= bfq_wr_duration d1.
Proof.
  intros M1 M2 E Hr Hp1 Hp2 Hfit. unfold bfq_wr_duration.
  rewrite M1, M2, E. cbn [Z.ltb Z.compare].
  rewrite (u64_small (RT_prod d1)) by exact Hr.
  rewrite !(u32_small (peak_rate _)) by lia.
  assert (Hle : RT_prod d1 / peak_rate d2 <= RT_prod d1 / peak_rate d1)
    by (apply Z.div_le_compat_l; lia).
  assert (H0 : 0 <= RT_prod d1 / peak_rate d2)
    by (apply Z.div_pos; lia).
  rewrite !u32_small by lia. exact Hle.
Qed.

(** ** Burst detection *)

Lemma in_large_burst_at_mark (q : nat) (st : bfq_data) :
  is_Some (bfqqs st !! q) ->
  in_large_burst_at q (upd_bfqq q bfq_mark_bfqq_in_large_burst st) = true.
Proof.
  intros [x Hx]. unfold in_large_burst_at.
  rewrite bfqqs_upd_bfqq, lookup_alter_eq, Hx. reflexivity.
Qed.

Lemma hlist_unhashed_false (q : nat) (st : bfq_data) :
  q ∈ burst_list st -> hlist_unhashed q st = false.
Proof.
  intros H. unfold hlist_unhashed. rewrite bool_decide_eq_true_2 by exact H.
  reflexivity.
Qed.

Lemma hlist_unhashed_spec (q : nat) (st : bfq_data) :
  hlist_unhashed q st = true <-> q ∉ burst_list st.
Proof.
  unfold hlist_unhashed. destruct (bool_decide_reflect (q ∈ burst_list st));
    cbn; split; intros; try congruence; try reflexivity; contradiction.
Qed.

(** X5: the burst list never holds a queue twice: [bfq_handle_burst]
    puts a queue on the list only when its node is unhashed. *)
Theorem bfq_handle_burst_NoDup (jiffies : Z) (st : bfq_data) (q : nat)
    (idle : bool) :
  NoDup (burst_list st) ->
  NoDup (burst_list (bfq_handle_burst jiffies st q idle)).
Proof.
  intros N. unfold bfq_handle_burst.
  set (st0 := if idle then _ else st).
  assert (N0 : NoDup (burst_list st0)).
  { subst st0. destruct idle; [| exact N]. cbn. apply NoDup_filter, N. }
  destruct (hlist_unhashed q st0) eqn:Hu; cbn [negb orb]; [| exact N0].
  destruct (in_large_burst_at q st0); [exact N0 |].
  destruct (time_is_before_jiffies _ _).
  { cbn. apply NoDup_singleton. }
  destruct (large_burst st0); [exact N0 |].
  unfold bfq_add_to_burst.
  destruct (_ =? _).
  - cbn. constructor.
  - cbn. apply NoDup_cons. split; [| exact N0].
    apply hlist_unhashed_spec, Hu.
Qed.

(** X6: with a threshold of at least 2 and below 2^31, so that
    [burst_size], an [int], reaches it before it wraps,
    [bfq_handle_burst] keeps the shape of the burst state, in which the
    burst list is always shorter than the threshold. *)
Theorem bfq_handle_burst_inv (jiffies : Z) (st : bfq_data) (q : nat)
    (idle : bool) :
  let st' := bfq_handle_burst jiffies st q idle in
  2 <= bfq_large_burst_thresh st < 2 ^ 31 ->
  burst_inv st ->
  bfq_large_burst_thresh st' = bfq_large_burst_thresh st /\
  burst_inv st' /\
  Z.of_nat (length (burst_list st')) < bfq_large_burst_thresh st'.
Proof.
  intros st' Hth Hinv.
  assert (Hgoal : bfq_large_burst_thresh st' = bfq_large_burst_thresh st /\
                  burst_inv st').
  { subst st'. unfold bfq_handle_burst.
    set (st0 := if idle then _ else st).
    assert (H0 : bfq_large_burst_thresh st0 = bfq_large_burst_thresh st /\
                 burst_inv st0).
    { subst st0. destruct idle; [| split; [reflexivity | exact Hinv]].
      split; [reflexivity |]. destruct Hinv as [Hl Hs]. split.
      - intros Hlb. cbn in *. rewrite (Hl Hlb). reflexivity.
      - intros Hlb. cbn in *. destruct (Hs Hlb) as [Hlen Hlt].
        split; [| exact Hlt].
        pose proof (length_filter (λ x, x ≠ q) (burst_list st)). lia. }
    destruct H0 as [Hth0 [Hl0 Hs0]]. rewrite <- Hth0 in *.
    destruct (hlist_unhashed q st0) eqn:Hu; cbn [negb orb];
      [| split; [reflexivity | split; assumption]].
    destruct (in_large_burst_at q st0);
      [split; [reflexivity | split; assumption] |].
    destruct (time_is_before_jiffies _ _).
    { split; [reflexivity |]. split; cbn; [discriminate | intros _; lia]. }
    destruct (large_burst st0) eqn:Hlb.
    { split; [reflexivity |]. split; cbn.
      - intros _. apply Hl0. reflexivity.
      - rewrite Hlb. discriminate. }
    destruct (Hs0 eq_refl) as [Hlen Hlt].
    assert (Hpos : 0 <= burst_size st0) by lia.
    assert (Hinc : u64 (s32 (burst_size st0 + 1)) = burst_size st0 + 1)
      by (apply burst_size_incr; lia).
    destruct (Z.eq_dec (burst_size st0 + 1) (bfq_large_burst_thresh st0))
      as [Heq | Hneq].
    - rewrite bfq_add_to_burst_large by lia. rewrite mark_burst_list_frame.
      split; [reflexivity |]. split; cbn; [reflexivity | discriminate].
    - rewrite bfq_add_to_burst_small by lia.
      split; [reflexivity |]. split; cbn.
      + rewrite Hlb. discriminate.
      + intros _. rewrite s32_small by lia. lia. }
  destruct Hgoal as [Hsame Hinv']. split; [exact Hsame |].
  split; [exact Hinv' |]. rewrite Hsame. destruct Hinv' as [Hl Hs].
  destruct (large_burst st') eqn:Hlb.
  - rewrite (Hl eq_refl). cbn. lia.
  - destruct (Hs eq_refl). lia.
Qed.

(** X7: a queue that is new to the burst or was idle for long, and is
    activated after the burst interval has passed, ends the burst: the
    device leaves large-burst mode, the burst list holds that queue
    alone, the burst size is 1, the queue is not marked and no other
    queue is touched. *)
Theorem bfq_handle_burst_late (jiffies : Z) (st : bfq_data) (q : nat)
    (idle : bool) :
  let st' := bfq_handle_burst jiffies st q idle in
  idle = true \/ ((q ∉ burst_list st) /\ in_large_burst_at q st = false) ->
  time_is_before_jiffies jiffies
    (u64 (last_ins_in_burst st + bfq_burst_interval st)) = true ->
  large_burst st' = false /\
  burst_list st' = [q] /\
  burst_size st' = 1 /\
  in_large_burst_at q st' = false /\
  (forall q', q' <> q -> bfqqs st' !! q' = bfqqs st !! q').
Proof.
  intros st' Hnew Hlate.
  assert (E : bfq_handle_burst jiffies st q idle =
              bfq_handle_burst jiffies st q true).
  { destruct Hnew as [-> | [Hl Hf]]; [reflexivity |].
    rewrite !(bfq_handle_burst_new_queue jiffies st q _ Hl Hf).
    reflexivity. }
  subst st'. rewrite E. clear E Hnew.
  set (st0 := upd_bfqq q bfq_clear_bfqq_in_large_burst (hlist_del_init q st)).
  assert (Hl : q ∉ burst_list st0) by apply hlist_del_init_unhashed.
  assert (Hf : in_large_burst_at q st0 = false).
  { unfold in_large_burst_at. subst st0. rewrite bfqqs_upd_bfqq.
    rewrite lookup_alter_eq. destruct (bfqqs _ !! q); reflexivity. }
  assert (Hrun : bfq_handle_burst jiffies st q true =
                 bfq_handle_burst jiffies st0 q false) by reflexivity.
  rewrite Hrun, (bfq_handle_burst_new_queue jiffies st0 q false Hl Hf).
  change (last_ins_in_burst st0) with (last_ins_in_burst st).
  change (bfq_burst_interval st0) with (bfq_burst_interval st).
  rewrite Hlate.
  split; [reflexivity |]. split; [reflexivity |]. split; [reflexivity |].
  split; [exact Hf |].
  intros q' Hne. cbn. apply lookup_alter_ne. congruence.
Qed.

Lemma mark_burst_list_lookup (l : list nat) (st : bfq_data) (q : nat)
    (x : bfq_queue) :
  bfqqs st !! q = Some x ->
  bfqqs (mark_burst_list l st) !! q = Some x \/
  bfqqs (mark_burst_list l st) !! q = Some (bfq_mark_bfqq_in_large_burst x).
Proof.
  intros Hx. rewrite mark_burst_list_bfqqs, Hx.
  destruct (bool_decide (q ∈ l)); [right | left]; reflexivity.
Qed.

Lemma bfq_handle_burst_device (jiffies : Z) (st : bfq_data) (q : nat)
    (idle : bool) :
  let st' := bfq_handle_burst jiffies st q idle in
  st' = set_bfqqs (bfqqs st')
          (set_burst_list (burst_list st')
             (set_burst_size (burst_size st')
                (set_large_burst (large_burst st') st))).
Proof.
  unfold bfq_handle_burst, bfq_add_to_burst.
  destruct idle;
    repeat match goal with
           | |- context [if ?c then _ else _] => destruct c
           end;
    try rewrite mark_burst_list_frame; destruct st; reflexivity.
Qed.

(** X8: [bfq_handle_burst] changes nothing of the device but the burst
    list, the burst size and the large-burst mode, nothing of a queue but
    its [in_large_burst] flag, and it never unmarks a queue other than
    the one being activated. *)
Theorem bfq_handle_burst_frame (jiffies : Z) (st : bfq_data) (q : nat)
    (idle : bool) :
  let st' := bfq_handle_burst jiffies st q idle in
  st' = set_bfqqs (bfqqs st')
          (set_burst_list (burst_list st')
             (set_burst_size (burst_size st')
                (set_large_burst (large_burst st') st))) /\
  (forall q', exists b,
     bfqqs st' !! q' = set_flag_in_large_burst b <$> bfqqs st !! q') /\
  (forall q' x, q' <> q -> bfqqs st !! q' = Some x ->
     bfqqs st' !! q' = Some x \/
     bfqqs st' !! q' = Some (bfq_mark_bfqq_in_large_burst x)).
Proof.
  intros st'. split; [| split].
  - apply bfq_handle_burst_device.
  - apply (burst_frame_handle_burst jiffies st q idle).
  - intros q' x Hne Hx. subst st'. unfold bfq_handle_burst.
    set (st0 := if idle then _ else st).
    assert (H0 : bfqqs st0 !! q' = Some x).
    { subst st0. destruct idle; [| exact Hx]. cbn.
      rewrite lookup_alter_ne by congruence. exact Hx. }
    destruct (negb (hlist_unhashed q st0) || in_large_burst_at q st0);
      [left; exact H0 |].
    destruct (time_is_before_jiffies _ _); [left; exact H0 |].
    destruct (large_burst st0).
    { left. cbn. rewrite lookup_alter_ne by congruence. exact H0. }
    unfold bfq_add_to_burst. destruct (_ =? _); [| left; exact H0].
    cbn [bfqqs set_burst_list]. rewrite bfqqs_upd_bfqq.
    rewrite lookup_alter_ne by congruence.
    apply mark_burst_list_lookup. exact H0.
Qed.

(** X9: a second call of [bfq_handle_burst] for the same queue, not idle
    for long, changes nothing: after the first call the queue is on the
    burst list or marked. *)
Theorem bfq_handle_burst_again (jiffies jiffies' : Z) (st : bfq_data)
    (q : nat) (idle : bool) :
  is_Some (bfqqs st !! q) ->
  let st' := bfq_handle_burst jiffies st q idle in
  (q ∈ burst_list st' \/ in_large_burst_at q st' = true) /\
  bfq_handle_burst jiffies' st' q false = st'.
Proof.
  intros Hq st'.
  assert (Hin : q ∈ burst_list st' \/ in_large_burst_at q st' = true).
  { subst st'. unfold bfq_handle_burst.
    set (st0 := if idle then _ else st).
    assert (Hq0 : is_Some (bfqqs st0 !! q)).
    { subst st0. destruct idle; [| exact Hq]. cbn.
      apply lookup_alter_is_Some, Hq. }
    destruct (hlist_unhashed q st0) eqn:Hu; cbn [negb orb].
    2: { left. apply dec_stable. intros Hn.
         apply hlist_unhashed_spec in Hn. congruence. }
    destruct (in_large_burst_at q st0) eqn:Hf; [right; exact Hf |].
    destruct (time_is_before_jiffies _ _); [left; cbn; left |].
    destruct (large_burst st0);
      [right; apply in_large_burst_at_mark, Hq0 |].
    unfold bfq_add_to_burst. destruct (_ =? _); [| left; cbn; left].
    right. unfold in_large_burst_at. cbn [bfqqs set_burst_list].
    rewrite bfqqs_upd_bfqq, lookup_alter_eq.
    destruct Hq0 as [x Hx].
    destruct (mark_burst_list_lookup
                (burst_list (set_large_burst true
                   (set_burst_size (s32 (burst_size st0 + 1)) st0)))
                (set_large_burst true
                   (set_burst_size (s32 (burst_size st0 + 1)) st0))
                q x Hx) as [E | E]; rewrite E; reflexivity. }
  split; [exact Hin |].
  unfold bfq_handle_burst at 1.
  destruct Hin as [Hin | Hin].
  - rewrite hlist_unhashed_false by exact Hin. reflexivity.
  - rewrite Hin, orb_true_r. reflexivity.
Qed.

(** ** Request arrival *)

Section ArrivalMore.

Variable rq_at : nat -> request.
Variable REQ_META : Z.
Variable rq_is_sync : request -> bool.
Variable last_end_request : request -> Z.
Variable elv_rb_add : list nat -> nat -> list nat.

(** [bfq_add_request] up to the test of the busy flag: the request is
    counted, put in the sort tree, and [next_rq] is chosen. *)
Lemma bfq_add_request_start
    (bfq_activate_bfqq bfq_add_bfqq_busy : bfq_data -> nat -> bfq_data)
    (jiffies : Z) (bfqd : bfq_data) (p q next : nat) (bfqq0 : bfq_queue) :
  let x := set_next_rq (Some next)
             (set_sort_list (elv_rb_add (sort_list bfqq0) p)
                (set_queued
                   (queued_incr (rq_is_sync (rq_at p)) (queued bfqq0))
                   bfqq0)) in
  let bfqd1 := set_bfqqs (<[q := x]> (bfqqs bfqd))
                 (set_bfqd_queued (s32 (bfqd_queued bfqd + 1)) bfqd) in
  bfqqs bfqd !! q = Some bfqq0 ->
  bfq_choose_req rq_at REQ_META rq_is_sync bfqd (next_rq bfqq0) (Some p)
                 (last_position bfqd) = Some next ->
  bfq_add_request rq_at REQ_META rq_is_sync last_end_request elv_rb_add
    bfq_activate_bfqq bfq_add_bfqq_busy jiffies bfqd p q =
  if negb (bfq_bfqq_busy bfqq0)
  then add_request_idle rq_at last_end_request bfq_add_bfqq_busy jiffies
         bfqd1 q (rq_at p) next (wr_coeff bfqq0) x
  else add_request_busy rq_at rq_is_sync bfq_activate_bfqq jiffies bfqd1 q
         (rq_at p) (next_rq bfqq0) (wr_coeff bfqq0) x.
Proof.
  intros x bfqd1 Hq Hnext. unfold bfq_add_request. rewrite Hq.
  cbn [next_rq set_sort_list set_queued].
  change (bfq_choose_req rq_at REQ_META rq_is_sync
            (set_bfqd_queued (s32 (bfqd_queued bfqd + 1)) bfqd)
            (next_rq bfqq0) (Some p)
            (last_position
               (set_bfqd_queued (s32 (bfqd_queued bfqd + 1)) bfqd)))
    with (bfq_choose_req rq_at REQ_META rq_is_sync bfqd (next_rq bfqq0)
            (Some p) (last_position bfqd)).
  rewrite Hnext. reflexivity.
Qed.

Lemma bfq_choose_req_new (bfqd : bfq_data) (rq1 : option nat) (p : nat)
    (last : Z) :
  exists next,
    bfq_choose_req rq_at REQ_META rq_is_sync bfqd rq1 (Some p) last
    = Some next /\
    (Some next = rq1 \/ next = p).
Proof.
  destruct (bfq_choose_req_some rq_at REQ_META rq_is_sync bfqd rq1 p last)
    as [next Hnext].
  exists next. split; [exact Hnext |].
  destruct (bfq_choose_req_one_of rq_at REQ_META rq_is_sync bfqd rq1
              (Some p) last) as [E | E];
    rewrite Hnext in E; [left; exact E | right; congruence].
Qed.

Lemma bfq_updated_next_req_served (act : bfq_data -> nat -> bfq_data)
    (st : bfq_data) (q : nat) (z : bfq_queue) :
  bfqqs st !! q = Some z ->
  in_service_queue st = Some q ->
  bfq_updated_next_req rq_at act st q = Some st.
Proof.
  intros Hz Hs. unfold bfq_updated_next_req. rewrite Hz.
  destruct (next_rq z); [| reflexivity].
  rewrite bool_decide_eq_true_2 by exact Hs. reflexivity.
Qed.

(** The busy branch for the queue in service. *)
Lemma add_request_busy_in_service (jiffies : Z) (bfqd : bfq_data) (q : nat)
    (rq : request) (prev : option nat) (old : Z) (x : bfq_queue) :
  bfqqs bfqd !! q = Some x ->
  in_service_queue bfqd = Some q ->
  exists st1 y,
    (forall act,
       add_request_busy rq_at rq_is_sync act jiffies bfqd q rq prev old x
       = Some st1) /\
    bfqqs st1 !! q = Some y /\
    budget (entity y) = budget (entity x) /\
    in_service_queue st1 = Some q.
Proof.
  intros Hx Hs. unfold add_request_busy. cbv zeta.
  destruct (low_latency bfqd && (old =? 1) && negb (rq_is_sync rq) &&
            time_is_before_jiffies jiffies
              (u64 (last_wr_start_finish x +
                    bfq_wr_min_inter_arr_async bfqd))).
  - eexists. eexists. split; [| split; [| split]].
    + intros act. destruct (bool_decide (prev ≠ next_rq x)); [| reflexivity].
      eapply bfq_updated_next_req_served; [| exact Hs].
      cbn. apply lookup_insert_eq.
    + cbn. apply lookup_insert_eq.
    + reflexivity.
    + exact Hs.
  - exists bfqd, x. split; [| split; [exact Hx | split; [reflexivity |
                                                        exact Hs]]].
    intros act. destruct (bool_decide (prev ≠ next_rq x)); [| reflexivity].
    apply (bfq_updated_next_req_served act bfqd q x Hx Hs).
Qed.

(** The state that the idle branch hands to [bfq_add_bfqq_busy]. *)
Lemma add_request_idle_run
    (bfq_add_bfqq_busy : bfq_data -> nat -> bfq_data)
    (jiffies : Z) (bfqd : bfq_data) (q : nat) (rq : request) (next : nat)
    (old : Z) (bfqq0 x : bfq_queue) :
  bfqqs bfqd !! q = Some x ->
  exists st1 b idle,
    burst_frame bfqd st1 /\
    bfq_wr_coeff st1 = bfq_wr_coeff bfqd /\
    bfqqs st1 !! q = Some (set_flag_in_large_burst b x) /\
    add_request_idle rq_at last_end_request bfq_add_bfqq_busy jiffies bfqd q
                     rq next old bfqq0 =
    Some (bfq_add_bfqq_busy
            (set_bfqqs
               (<[q := add_request_idle_fields rq_at last_end_request
                         jiffies st1 rq next old idle
                         (set_flag_in_large_burst b x)]> (bfqqs st1))
               st1) q).
Proof.
  intros Hx. unfold add_request_idle.
  set (idle := time_is_before_jiffies _ _).
  set (st1 := if bfq_bfqq_sync bfqq0 then _ else bfqd).
  assert (F : burst_frame bfqd st1).
  { subst st1. destruct (bfq_bfqq_sync bfqq0); [| apply burst_frame_refl].
    destruct (negb _).
    - eapply burst_frame_trans; [apply burst_frame_handle_burst |].
      apply burst_frame_same_queues; reflexivity.
    - apply burst_frame_handle_burst. }
  destruct (proj2 F q) as [b Hb]. rewrite Hx in Hb.
  cbn [fmap option_fmap option_map] in Hb.
  exists st1, b, idle. split; [exact F |]. split; [| split; [exact Hb |]].
  - subst st1. destruct (bfq_bfqq_sync bfqq0); [| reflexivity].
    pose proof (bfq_handle_burst_device jiffies bfqd q idle) as Hd.
    cbv zeta in Hd.
    destruct (negb _); cbn [bfq_wr_coeff set_last_ins_in_burst];
      rewrite Hd; reflexivity.
  - rewrite Hb. reflexivity.
Qed.

Lemma io_bound_update_entity (jiffies : Z) (bfqd : bfq_data) (rq : request)
    (x : bfq_queue) :
  let y := io_bound_update last_end_request jiffies bfqd rq x in
  entity y = entity x /\ next_rq y = next_rq x /\
  wr_state y = wr_state x /\ flag_in_large_burst y = flag_in_large_burst x.
Proof.
  unfold io_bound_update.
  destruct (bfq_bfqq_IO_bound x); [repeat split |].
  destruct (time_before _ _); [| repeat split].
  cbn [requests_within_timer set_requests_within_timer].
  destruct (_ <=? _); repeat split.
Qed.

Lemma wr_on_activation_entity (jiffies : Z) (bfqd : bfq_data) (old : Z)
    (interactive soft_rt in_burst : bool) (x : bfq_queue) :
  let y := wr_on_activation jiffies bfqd old interactive soft_rt in_burst x in
  entity y = entity x /\ next_rq y = next_rq x /\
  flag_in_large_burst y = flag_in_large_burst x.
Proof.
  unfold wr_on_activation.
  repeat match goal with
         | |- context [if ?c then _ else _] => destruct c
         end; repeat split.
Qed.

(** The budget and the next request after the updates of the idle
    branch. *)
Lemma add_request_idle_fields_budget (jiffies : Z) (bfqd : bfq_data)
    (rq : request) (next : nat) (old : Z) (idle : bool) (x : bfq_queue) :
  let y := add_request_idle_fields rq_at last_end_request jiffies bfqd rq
             next old idle x in
  budget (entity y) =
    max_ulong (max_budget x) (bfq_serv_to_charge (rq_at next) x) /\
  next_rq y = next_rq x.
Proof.
  unfold add_request_idle_fields. cbv zeta.
  set (x2 := set_entity _ x).
  pose proof (io_bound_update_entity jiffies bfqd rq x2) as (He3 & Hn3 & _).
  cbv zeta in He3, Hn3.
  set (x3 := io_bound_update last_end_request jiffies bfqd rq x2) in *.
  cbn [entity next_rq bfq_clear_bfqq_softrt_update set_flag_softrt_update
       set_service_from_backlogged set_last_idle_bklogged].
  destruct (negb (low_latency bfqd)).
  - rewrite He3, Hn3. split; reflexivity.
  - match goal with
    | |- context [wr_on_activation ?j ?d ?o ?i ?s ?u x3] =>
      pose proof (wr_on_activation_entity j d o i s u x3) as (He4 & Hn4 & _);
      cbv zeta in He4, Hn4;
      set (x4 := wr_on_activation j d o i s u x3) in *
    end.
    destruct (negb (old =? wr_coeff x4));
      cbn [entity next_rq set_entity budget set_prio_changed];
      rewrite ?He4, ?Hn4, He3, Hn3; split; reflexivity.
Qed.

(** X10: a request that arrives for the busy queue in service is added
    without a [BUG_ON], the budget of the queue is left as it was, and
    neither [bfq_activate_bfqq] nor [bfq_add_bfqq_busy] is called: the
    result is the same whatever these two do. *)
Theorem bfq_add_request_in_service (jiffies : Z) (bfqd : bfq_data)
    (p q : nat) (bfqq0 : bfq_queue) :
  bfqqs bfqd !! q = Some bfqq0 ->
  bfq_bfqq_busy bfqq0 = true ->
  in_service_queue bfqd = Some q ->
  exists bfqd' bfqq',
    (forall activate add_busy,
       bfq_add_request rq_at REQ_META rq_is_sync last_end_request elv_rb_add
         activate add_busy jiffies bfqd p q = Some bfqd') /\
    bfqqs bfqd' !! q = Some bfqq' /\
    budget (entity bfqq') = budget (entity bfqq0) /\
    in_service_queue bfqd' = Some q.
Proof.
  intros Hq Hb Hs.
  destruct (bfq_choose_req_new bfqd (next_rq bfqq0) p (last_position bfqd))
    as (next & Hnext & _).
  set (x := set_next_rq (Some next)
              (set_sort_list (elv_rb_add (sort_list bfqq0) p)
                 (set_queued
                    (queued_incr (rq_is_sync (rq_at p)) (queued bfqq0))
                    bfqq0))).
  set (bfqd1 := set_bfqqs (<[q := x]> (bfqqs bfqd))
                  (set_bfqd_queued (s32 (bfqd_queued bfqd + 1)) bfqd)).
  destruct (add_request_busy_in_service jiffies bfqd1 q (rq_at p)
              (next_rq bfqq0) (wr_coeff bfqq0) x)
    as (st1 & y & Hrun & Hy & Hby & Hs1).
  { subst bfqd1. cbn. apply lookup_insert_eq. }
  { exact Hs. }
  exists st1, y. split; [| split; [exact Hy | split; [exact Hby | exact Hs1]]].
  intros activate add_busy.
  rewrite (bfq_add_request_start activate add_busy jiffies bfqd p q next
             bfqq0 Hq Hnext).
  rewrite Hb. cbn [negb]. apply Hrun.
Qed.

Lemma max_ulong_ge (a b : Z) :
  u64 a <= max_ulong a b /\ u64 b <= max_ulong a b.
Proof. unfold max_ulong. destruct (Z.ltb_spec (u64 b) (u64 a)); lia. Qed.

(** X11: when a request takes a queue from idle to busy, the queue gets
    as [next_rq] its former [next_rq] or the new request, and a budget
    that is the larger of its [max_budget] and the charge of that next
    request at the weight-raising coefficient the queue came with; so the
    budget covers that charge. *)
Theorem bfq_add_request_idle_budget
    (bfq_activate_bfqq bfq_add_bfqq_busy : bfq_data -> nat -> bfq_data)
    (jiffies : Z) (bfqd : bfq_data) (p q : nat) (bfqq0 : bfq_queue) :
  (forall st q0 z, bfqqs st !! q0 = Some z ->
     exists z', bfqqs (bfq_add_bfqq_busy st q0) !! q0 = Some z' /\
                budget (entity z') = budget (entity z) /\
                next_rq z' = next_rq z) ->
  bfqqs bfqd !! q = Some bfqq0 ->
  bfq_bfqq_busy bfqq0 = false ->
  exists bfqd' bfqq' next,
    bfq_add_request rq_at REQ_META rq_is_sync last_end_request elv_rb_add
      bfq_activate_bfqq bfq_add_bfqq_busy jiffies bfqd p q = Some bfqd' /\
    bfqqs bfqd' !! q = Some bfqq' /\
    next_rq bfqq' = Some next /\
    (Some next = next_rq bfqq0 \/ next = p) /\
    budget (entity bfqq') =
      max_ulong (max_budget bfqq0)
                (bfq_serv_to_charge (rq_at next) bfqq0) /\
    u64 (max_budget bfqq0) <= budget (entity bfqq') /\
    bfq_serv_to_charge (rq_at next) bfqq0 <= budget (entity bfqq').
Proof.
  intros Hbusy Hq Hnb.
  destruct (bfq_choose_req_new bfqd (next_rq bfqq0) p (last_position bfqd))
    as (next & Hnext & Hor).
  rewrite (bfq_add_request_start bfq_activate_bfqq bfq_add_bfqq_busy jiffies
             bfqd p q next bfqq0 Hq Hnext).
  rewrite Hnb. cbn [negb].
  set (x := set_next_rq _ _).
  set (bfqd1 := set_bfqqs _ _).
  destruct (add_request_idle_run bfq_add_bfqq_busy jiffies bfqd1 q (rq_at p)
              next (wr_coeff bfqq0) x x)
    as (st1 & b & idle & _ & _ & _ & Hrun).
  { subst bfqd1. cbn. apply lookup_insert_eq. }
  rewrite Hrun.
  pose proof (add_request_idle_fields_budget jiffies st1 (rq_at p) next
                (wr_coeff bfqq0) idle (set_flag_in_large_burst b x))
    as [Hbud Hnx].
  cbv zeta in Hbud, Hnx.
  set (y1 := add_request_idle_fields _ _ _ _ _ _ _ _ _) in *.
  change (max_budget (set_flag_in_large_burst b x))
    with (max_budget bfqq0) in Hbud.
  change (bfq_serv_to_charge (rq_at next) (set_flag_in_large_burst b x))
    with (bfq_serv_to_charge (rq_at next) bfqq0) in Hbud.
  change (next_rq (set_flag_in_large_burst b x)) with (Some next) in Hnx.
  set (st2 := set_bfqqs _ st1).
  destruct (Hbusy st2 q y1) as (y & Hy & Hby & Hny).
  { subst st2. cbn. apply lookup_insert_eq. }
  exists (bfq_add_bfqq_busy st2 q), y, next.
  split; [reflexivity |]. split; [exact Hy |].
  split; [congruence |]. split; [exact Hor |].
  rewrite Hby, Hbud. split; [reflexivity |].
  pose proof (max_ulong_ge (max_budget bfqq0)
                (bfq_serv_to_charge (rq_at next) bfqq0)) as [Ha Hc].
  split; [exact Ha |].
  rewrite u64_small in Hc; [exact Hc |].
  apply bfq_serv_to_charge_range.
Qed.

Lemma wr_state_set_flag (b : bool) (x : bfq_queue) :
  wr_state (set_flag_in_large_burst b x) = wr_state x.
Proof. reflexivity. Qed.

Lemma add_request_idle_fields_wr_off (jiffies : Z) (bfqd : bfq_data)
    (rq : request) (next : nat) (old : Z) (idle : bool) (x : bfq_queue) :
  low_latency bfqd = false ->
  wr_state (add_request_idle_fields rq_at last_end_request jiffies bfqd rq
              next old idle x) = wr_state x.
Proof.
  intros Hl. unfold add_request_idle_fields. cbv zeta. rewrite Hl.
  cbn [negb]. set (x2 := set_entity _ x).
  pose proof (io_bound_update_entity jiffies bfqd rq x2) as (_ & _ & Hw & _).
  cbv zeta in Hw. unfold wr_state in *.
  cbn [wr_coeff wr_cur_max_time last_wr_start_finish
       bfq_clear_bfqq_softrt_update set_flag_softrt_update
       set_service_from_backlogged set_last_idle_bklogged].
  exact Hw.
Qed.

Lemma bfq_updated_next_req_wr_state
    (act : bfq_data -> nat -> bfq_data) (st st' : bfq_data) (q q' : nat) :
  keeps_wr_state act ->
  bfq_updated_next_req rq_at act st q = Some st' ->
  wr_state <$> bfqqs st' !! q' = wr_state <$> bfqqs st !! q'.
Proof.
  intros Hact. unfold bfq_updated_next_req.
  destruct (bfqqs st !! q) as [z |] eqn:Hz; [| discriminate].
  destruct (next_rq z); [| intros [= <-]; reflexivity].
  destruct (bool_decide _); [intros [= <-]; reflexivity |].
  destruct (negb _); [discriminate |].
  destruct (bool_decide _); [discriminate |].
  destruct (_ =? _); intros [= <-]; [reflexivity |].
  rewrite Hact, bfqqs_upd_bfqq, lookup_alter.
  destruct (decide (q = q')) as [<- | _]; [| reflexivity].
  destruct (bfqqs st !! q); reflexivity.
Qed.

(** X12: with [low_latency] off, [bfq_add_request] leaves the
    weight-raising state of every queue (coefficient, duration and start
    of the period) as it was, on both branches, provided the functions of
    the scheduler it calls do. *)
Theorem bfq_add_request_low_latency_off
    (bfq_activate_bfqq bfq_add_bfqq_busy : bfq_data -> nat -> bfq_data)
    (jiffies : Z) (bfqd bfqd' : bfq_data) (p q : nat) :
  keeps_wr_state bfq_activate_bfqq ->
  keeps_wr_state bfq_add_bfqq_busy ->
  low_latency bfqd = false ->
  bfq_add_request rq_at REQ_META rq_is_sync last_end_request elv_rb_add
    bfq_activate_bfqq bfq_add_bfqq_busy jiffies bfqd p q = Some bfqd' ->
  forall q', wr_state <$> bfqqs bfqd' !! q' = wr_state <$> bfqqs bfqd !! q'.
Proof.
  intros Hact Hbusy Hl Hrun q'.
  destruct (bfqqs bfqd !! q) as [bfqq0 |] eqn:Hq.
  2: { unfold bfq_add_request in Hrun. rewrite Hq in Hrun. discriminate. }
  destruct (bfq_choose_req_new bfqd (next_rq bfqq0) p (last_position bfqd))
    as (next & Hnext & _).
  rewrite (bfq_add_request_start bfq_activate_bfqq bfq_add_bfqq_busy jiffies
             bfqd p q next bfqq0 Hq Hnext) in Hrun.
  set (x := set_next_rq _ _) in Hrun.
  set (bfqd1 := set_bfqqs _ _) in Hrun.
  assert (H1 : wr_state <$> bfqqs bfqd1 !! q' = wr_state <$> bfqqs bfqd !! q').
  { subst bfqd1. cbn [bfqqs set_bfqqs]. rewrite lookup_insert.
    destruct (decide (q = q')) as [<- | _]; [| reflexivity].
    rewrite Hq. reflexivity. }
  rewrite <- H1.
  destruct (bfq_bfqq_busy bfqq0); cbn [negb] in Hrun.
  - unfold add_request_busy in Hrun. cbv zeta in Hrun.
    change (low_latency bfqd1) with (low_latency bfqd) in Hrun.
    rewrite Hl in Hrun. cbn [andb] in Hrun.
    match type of Hrun with
    | context [bool_decide ?P] => destruct (bool_decide P)
    end.
    + apply (bfq_updated_next_req_wr_state bfq_activate_bfqq bfqd1 bfqd' q q'
               Hact Hrun).
    + injection Hrun as <-. reflexivity.
  - destruct (add_request_idle_run bfq_add_bfqq_busy jiffies bfqd1 q (rq_at p)
                next (wr_coeff bfqq0) x x)
      as (st1 & b & idle & [Hl1 Hf1] & _ & Hb & Hrun').
    { subst bfqd1. cbn. apply lookup_insert_eq. }
    rewrite Hrun' in Hrun. injection Hrun as <-.
    rewrite Hbusy. cbn [bfqqs set_bfqqs]. rewrite lookup_insert.
    destruct (decide (q = q')) as [<- | _].
    + cbn [fmap option_fmap option_map].
      rewrite add_request_idle_fields_wr_off
        by (rewrite Hl1; exact Hl).
      rewrite wr_state_set_flag.
      subst bfqd1. cbn [bfqqs set_bfqqs]. rewrite lookup_insert_eq.
      reflexivity.
    + destruct (Hf1 q') as [b' Hb']. rewrite Hb'.
      destruct (bfqqs bfqd1 !! q'); reflexivity.
Qed.

Lemma io_bound_update_sync (jiffies : Z) (bfqd : bfq_data) (rq : request)
    (x : bfq_queue) :
  let y := io_bound_update last_end_request jiffies bfqd rq x in
  flag_sync y = flag_sync x /\ bic y = bic x /\ wr_coeff y = wr_coeff x.
Proof.
  unfold io_bound_update.
  destruct (bfq_bfqq_IO_bound x); [repeat split |].
  destruct (time_before _ _); [| repeat split].
  cbn [requests_within_timer set_requests_within_timer].
  destruct (_ <=? _); repeat split.
Qed.

(** How the coefficient can move when an idle queue gets backlogged. *)
Lemma add_request_idle_fields_wr_coeff (jiffies : Z) (bfqd : bfq_data)
    (rq : request) (next : nat) (idle : bool) (x : bfq_queue) :
  let y := add_request_idle_fields rq_at last_end_request jiffies bfqd rq
             next (wr_coeff x) idle x in
  wr_coeff y = wr_coeff x \/
  (wr_coeff x = 1 /\ wr_coeff y = bfq_wr_coeff bfqd /\
   low_latency bfqd = true /\ flag_in_large_burst x = false /\
   (flag_sync x = false \/ bic x <> None)) \/
  (1 < wr_coeff x /\ wr_coeff y = 1 /\ low_latency bfqd = true).
Proof.
  unfold add_request_idle_fields. cbv zeta.
  set (x2 := set_entity _ x).
  pose proof (io_bound_update_sync jiffies bfqd rq x2) as (Hs3 & Hb3 & Hw3).
  cbv zeta in Hs3, Hb3, Hw3.
  set (x3 := io_bound_update last_end_request jiffies bfqd rq x2) in *.
  change (flag_sync x2) with (flag_sync x) in Hs3.
  change (bic x2) with (bic x) in Hb3.
  change (wr_coeff x2) with (wr_coeff x) in Hw3.
  cbn [wr_coeff bfq_clear_bfqq_softrt_update set_flag_softrt_update
       set_service_from_backlogged set_last_idle_bklogged].
  destruct (low_latency bfqd); cbn [negb]; [| left; exact Hw3].
  unfold bfq_bfqq_in_large_burst.
  set (inb := flag_in_large_burst x).
  set (soft := _ && negb inb && _).
  set (inter := negb inb && idle).
  set (w := wr_on_activation _ _ _ _ _ _ _).
  assert (Hw : wr_coeff w = wr_coeff x \/
               (wr_coeff x = 1 /\ wr_coeff w = bfq_wr_coeff bfqd /\
                inb = false /\ (flag_sync x = false \/ bic x <> None)) \/
               (1 < wr_coeff x /\ wr_coeff w = 1)).
  { subst w. unfold wr_on_activation, bfq_bfqq_sync. rewrite Hs3, Hb3.
    destruct (Z.eqb_spec (wr_coeff x) 1) as [E1 | N1].
    - destruct (inter || soft) eqn:Eis; cbn [andb].
      + destruct (negb (flag_sync x) || bool_decide (bic x ≠ None)) eqn:Ec.
        * right. left. split; [exact E1 |].
          split; [destruct inter; reflexivity |]. split.
          -- subst inter soft. destruct inb; [| reflexivity].
             cbn in Eis. rewrite andb_false_r in Eis. discriminate.
          -- apply orb_true_iff in Ec as [Ec | Ec].
             ++ left. destruct (flag_sync x); [discriminate | reflexivity].
             ++ right. apply bool_decide_eq_true in Ec. exact Ec.
        * destruct (Z.ltb_spec 1 (wr_coeff x)); [lia | left; exact Hw3].
      + destruct (Z.ltb_spec 1 (wr_coeff x)); [lia | left; exact Hw3].
    - cbn [andb]. destruct (Z.ltb_spec 1 (wr_coeff x)); [| left; exact Hw3].
      destruct inter; [left; exact Hw3 |].
      destruct (inb || _); [right; right; split; [lia | reflexivity] |].
      destruct (_ && soft); left; exact Hw3. }
  destruct (negb (wr_coeff x =? wr_coeff w)); cbn [wr_coeff set_entity];
    (destruct Hw as [Hw | [(H1 & H2 & H3 & H4) | [H1 H2]]];
     [left; exact Hw | right; left; repeat split; assumption
      | right; right; repeat split; assumption]).
Qed.

(** X13: when a request takes a queue from idle to busy, the
    weight-raising coefficient stays as it is, or goes from 1 to
    [bfq_wr_coeff], or falls back to 1 from above; raising starts only
    with [low_latency] on, for a queue that is not marked as part of a
    large burst and that is async or has a [bic]. *)
Theorem bfq_add_request_wr_coeff_moves
    (bfq_activate_bfqq bfq_add_bfqq_busy : bfq_data -> nat -> bfq_data)
    (jiffies : Z) (bfqd : bfq_data) (p q : nat) (bfqq0 : bfq_queue) :
  (forall st q0 z, bfqqs st !! q0 = Some z ->
     exists z', bfqqs (bfq_add_bfqq_busy st q0) !! q0 = Some z' /\
                wr_coeff z' = wr_coeff z /\
                flag_in_large_burst z' = flag_in_large_burst z) ->
  bfqqs bfqd !! q = Some bfqq0 ->
  bfq_bfqq_busy bfqq0 = false ->
  exists bfqd' bfqq',
    bfq_add_request rq_at REQ_META rq_is_sync last_end_request elv_rb_add
      bfq_activate_bfqq bfq_add_bfqq_busy jiffies bfqd p q = Some bfqd' /\
    bfqqs bfqd' !! q = Some bfqq' /\
    (wr_coeff bfqq' = wr_coeff bfqq0 \/
     (wr_coeff bfqq0 = 1 /\ wr_coeff bfqq' = bfq_wr_coeff bfqd /\
      low_latency bfqd = true /\
      bfq_bfqq_in_large_burst bfqq' = false /\
      (bfq_bfqq_sync bfqq0 = false \/ bic bfqq0 <> None)) \/
     (1 < wr_coeff bfqq0 /\ wr_coeff bfqq' = 1 /\
      low_latency bfqd = true)).
Proof.
  intros Hbusy Hq Hnb.
  destruct (bfq_choose_req_new bfqd (next_rq bfqq0) p (last_position bfqd))
    as (next & Hnext & _).
  rewrite (bfq_add_request_start bfq_activate_bfqq bfq_add_bfqq_busy jiffies
             bfqd p q next bfqq0 Hq Hnext).
  rewrite Hnb. cbn [negb].
  set (x := set_next_rq _ _).
  set (bfqd1 := set_bfqqs _ _).
  destruct (add_request_idle_run bfq_add_bfqq_busy jiffies bfqd1 q (rq_at p)
              next (wr_coeff bfqq0) x x)
    as (st1 & b & idle & [Hl1 _] & Hc1 & _ & Hrun).
  { subst bfqd1. cbn. apply lookup_insert_eq. }
  rewrite Hrun.
  pose proof (add_request_idle_fields_wr_coeff jiffies st1 (rq_at p) next
                idle (set_flag_in_large_burst b x)) as Hmove.
  pose proof (add_request_idle_fields_in_large_burst rq_at last_end_request
                jiffies st1 (rq_at p) next idle
                (set_flag_in_large_burst b x)) as [Hflag _].
  cbv zeta in Hmove, Hflag.
  change (wr_coeff (set_flag_in_large_burst b x)) with (wr_coeff bfqq0)
    in Hmove, Hflag.
  change (flag_sync (set_flag_in_large_burst b x)) with (flag_sync bfqq0)
    in Hmove.
  change (bic (set_flag_in_large_burst b x)) with (bic bfqq0) in Hmove.
  set (y1 := add_request_idle_fields _ _ _ _ _ _ _ _ _) in *.
  change (low_latency bfqd1) with (low_latency bfqd) in Hl1.
  change (bfq_wr_coeff bfqd1) with (bfq_wr_coeff bfqd) in Hc1.
  rewrite Hl1, Hc1 in Hmove.
  set (st2 := set_bfqqs _ st1).
  destruct (Hbusy st2 q y1) as (y & Hy & Hwy & Hfy).
  { subst st2. cbn. apply lookup_insert_eq. }
  exists (bfq_add_bfqq_busy st2 q), y.
  split; [reflexivity |]. split; [exact Hy |].
  unfold bfq_bfqq_in_large_burst, bfq_bfqq_sync. rewrite Hwy, Hfy, Hflag.
  exact Hmove.
Qed.

End ArrivalMore.

(** ** The weight-counter tree *)

Lemma sorted_weights_unique (l : list (nat * bfq_weight_counter))
    (n n' : nat * bfq_weight_counter) :
  StronglySorted Z.lt ((λ n, cnt_weight (snd n)) <$> l) ->
  n ∈ l -> n' ∈ l -> cnt_weight (snd n) = cnt_weight (snd n') -> n = n'.
Proof.
  induction l as [| m l IH]; [intros _ H; inversion H |].
  rewrite fmap_cons. intros [F S]%StronglySorted_cons.
  rewrite Forall_fmap, Forall_forall in F.
  intros [-> | H]%elem_of_cons [-> | H']%elem_of_cons Hw.
  - reflexivity.
  - specialize (F n' H'). cbn in F. lia.
  - specialize (F n H). cbn in F. lia.
  - apply (IH S H H' Hw).
Qed.

(** X14: in a search tree the descent of [bfq_weights_tree_add] finds
    the counter of a weight exactly when the tree holds one, and then it
    finds that counter. *)
Theorem weights_tree_walk_correct (w : Z) (t : rb_root) :
  rb_search_tree t ->
  (forall a, weights_tree_walk w t = Some a <->
             exists c, (a, c) ∈ rb_inorder t /\ cnt_weight c = w) /\
  (weights_tree_walk w t = None <-> w ∉ rb_weights t).
Proof.
  intros S.
  assert (HN : weights_tree_walk w t = None <-> w ∉ rb_weights t).
  { split; [apply weights_tree_walk_None, S |].
    intros Hnot. destruct (weights_tree_walk w t) as [a |] eqn:W;
      [| reflexivity].
    destruct (weights_tree_walk_Some w a t W) as (c & Hc & Hw).
    destruct Hnot. unfold rb_weights. rewrite <- Hw.
    apply (list_elem_of_fmap_2 (λ n, cnt_weight (snd n)) _ _ Hc). }
  split; [| exact HN].
  intros a. split; [apply weights_tree_walk_Some |].
  intros (c & Hc & Hw).
  destruct (weights_tree_walk w t) as [a' |] eqn:W.
  - destruct (weights_tree_walk_Some w a' t W) as (c' & Hc' & Hw').
    assert (E : (a', c') = (a, c)).
    { apply (sorted_weights_unique (rb_inorder t) _ _ S Hc' Hc).
      cbn. congruence. }
    congruence.
  - destruct (weights_tree_walk_None w t S W). unfold rb_weights.
    rewrite <- Hw.
    apply (list_elem_of_fmap_2 (λ n, cnt_weight (snd n)) _ _ Hc).
Qed.

Lemma RB_EMPTY_ROOT_spec (t : rb_root) :
  RB_EMPTY_ROOT t = true <-> rb_inorder t = [].
Proof.
  destruct t as [| l a c r]; cbn; [tauto |].
  split; [discriminate |]. intros H.
  apply (f_equal length) in H. rewrite length_app in H. cbn in H. lia.
Qed.

Lemma bfq_differentiated_weights_nodes (queue_weights_tree g : rb_root) :
  bfq_differentiated_weights false queue_weights_tree g = true <->
  (2 <= length (rb_inorder queue_weights_tree))%nat.
Proof.
  unfold bfq_differentiated_weights. rewrite orb_false_r.
  destruct queue_weights_tree as [| l a c r]; cbn [RB_EMPTY_ROOT negb andb
    rb_node_has_child rb_inorder].
  - cbn. split; [discriminate | lia].
  - rewrite length_app. cbn [length].
    pose proof (RB_EMPTY_ROOT_spec l) as Hl.
    pose proof (RB_EMPTY_ROOT_spec r) as Hr.
    destruct (RB_EMPTY_ROOT l), (RB_EMPTY_ROOT r); cbn [negb orb].
    + rewrite (proj1 Hl eq_refl), (proj1 Hr eq_refl). cbn.
      split; [discriminate | lia].
    + split; [intros _ | reflexivity].
      destruct (rb_inorder r); [| cbn; lia].
      destruct Hr as [_ Hr]. specialize (Hr eq_refl). discriminate.
    + split; [intros _ | reflexivity].
      destruct (rb_inorder l); [| cbn; lia].
      destruct Hl as [_ Hl]. specialize (Hl eq_refl). discriminate.
    + split; [intros _ | reflexivity].
      destruct (rb_inorder l); [| cbn; lia].
      destruct Hl as [_ Hl]. specialize (Hl eq_refl). discriminate.
Qed.






Section WeightsTreeMore.

Variable rb_insert_color : nat -> rb_root -> rb_root.
Variable rb_erase : nat -> rb_root -> rb_root.

Hypothesis rb_insert_color_inorder :
  forall a t, rb_inorder (rb_insert_color a t) = rb_inorder t.
Hypothesis rb_erase_inorder :
  forall a t,
    rb_inorder (rb_erase a t) = filter (λ n, fst n ≠ a) (rb_inorder t).

(** X15: in every state that adds and removes reach from an empty tree,
    the tree is a search tree of counters at distinct addresses, each
    counter holds the number of entities that point to it, which is not
    zero, and the counter of an entity is in the tree and has the weight
    of the entity. *)
Theorem bfq_weights_tree_counts (s : weights_state) :
  weights_reachable rb_insert_color rb_erase s ->
  Z.of_nat (length (entities s)) < 2 ^ 32 ->
  rb_search_tree (weights_tree s) /\
  NoDup (rb_addrs (weights_tree s)) /\
  (forall a c, (a, c) ∈ rb_inorder (weights_tree s) ->
     num_active c = Z.of_nat (pointed_by a (entities s)) /\
     0 < num_active c) /\
  (forall e a, e ∈ entities s -> weight_counter e = Some a ->
     exists c, (a, c) ∈ rb_inorder (weights_tree s) /\
               cnt_weight c = weight e).
Proof.
  intros Hreach Hlen.
  exact (weights_inv_reachable rb_insert_color rb_erase
           rb_insert_color_inorder rb_erase_inorder s Hreach Hlen).
Qed.

(** X16: in such a state no [BUG_ON] of [bfq_weights_tree_remove] can
    fire, whatever entity is removed, and an add succeeds whenever the
    allocator returns a counter. *)
Theorem bfq_weights_tree_no_bug (s : weights_state) (i a : nat) :
  weights_reachable rb_insert_color rb_erase s ->
  Z.of_nat (length (entities s)) < 2 ^ 32 ->
  (i < length (entities s))%nat ->
  (exists s', weights_step rb_insert_color rb_erase (OpRemove i) s
              = Some s') /\
  (exists s', weights_step rb_insert_color rb_erase (OpAdd i (Some a)) s
              = Some s').
Proof.
  intros Hreach Hlen Hi.
  destruct (weights_inv_reachable rb_insert_color rb_erase
              rb_insert_color_inorder rb_erase_inorder s Hreach Hlen)
    as (S & N & Hcnt & Hptr).
  destruct (lookup_lt_is_Some_2 _ _ Hi) as [e He].
  unfold weights_step. rewrite He. split.
  - destruct (weight_counter e) as [a0 |] eqn:Hwc.
    + assert (Hin : e ∈ entities s) by (eapply list_elem_of_lookup_2, He).
      destruct (Hptr e a0 Hin Hwc) as (c & Hc & Hw).
      destruct (Hcnt a0 c Hc) as [Hn Hpos].
      pose proof (pointed_by_le a0 (entities s)).
      destruct (bfq_weights_tree_remove_tracked rb_erase rb_erase_inorder
                  e (weights_tree s) a0 c Hwc N Hc Hw)
        as (r2 & Hrun & _); [lia |].
      rewrite Hrun. eauto.
    + unfold bfq_weights_tree_remove. rewrite Hwc. eauto.
  - destruct (weight_counter e) as [a0 |] eqn:Hwc.
    + unfold bfq_weights_tree_add. rewrite Hwc. eauto.
    + pose proof (bfq_weights_tree_add_untracked rb_insert_color
                    rb_insert_color_inorder (Some a) e (weights_tree s)
                    Hwc S) as Hspec.
      destruct (bfq_weights_tree_add rb_insert_color (Some a) e
                  (weights_tree s)) as [[e1 r1] |];
        [eauto | destruct Hspec; discriminate].
Qed.



(** X18: without group scheduling, [bfq_symmetric_scenario] holds in such
    a state exactly when all the entities that have a counter have the
    same weight, and [bfq_differentiated_weights] holds exactly when the
    tree has two nodes or more. *)
Theorem bfq_symmetric_scenario_same_weight (s : weights_state)
    (active_numerous_groups : Z) (group_weights_tree : rb_root) :
  weights_reachable rb_insert_color rb_erase s ->
  Z.of_nat (length (entities s)) < 2 ^ 32 ->
  (bfq_differentiated_weights false (weights_tree s) group_weights_tree
   = true <-> (2 <= length (rb_inorder (weights_tree s)))%nat) /\
  (bfq_symmetric_scenario false active_numerous_groups (weights_tree s)
                          group_weights_tree = true <->
   forall e1 e2, e1 ∈ entities s -> e2 ∈ entities s ->
     weight_counter e1 <> None -> weight_counter e2 <> None ->
     weight e1 = weight e2).
Proof.
  intros Hreach Hlen.
  destruct (weights_inv_reachable rb_insert_color rb_erase
              rb_insert_color_inorder rb_erase_inorder s Hreach Hlen)
    as (S & N & Hcnt & Hptr).
  pose proof (bfq_differentiated_weights_nodes (weights_tree s)
                group_weights_tree) as Hd.
  split; [exact Hd |].
  unfold bfq_symmetric_scenario. cbn [andb].
  destruct (bfq_differentiated_weights false (weights_tree s)
              group_weights_tree) eqn:Ed; cbn [negb].
  - split; [discriminate |]. intros Hsame. exfalso.
    destruct Hd as [Hd _]. specialize (Hd eq_refl).
    assert (Hex : exists a1 c1 a2 c2 l,
              rb_inorder (weights_tree s) = (a1, c1) :: (a2, c2) :: l).
    { destruct (rb_inorder (weights_tree s)) as [| [a1 c1] [| [a2 c2] l]];
        cbn in Hd; try lia. eauto 6. }
    destruct Hex as (a1 & c1 & a2 & c2 & l & EL).
    assert (H1 : (a1, c1) ∈ rb_inorder (weights_tree s))
      by (rewrite EL; left).
    assert (H2 : (a2, c2) ∈ rb_inorder (weights_tree s))
      by (rewrite EL; right; left).
    assert (Hlt : cnt_weight c1 < cnt_weight c2).
    { unfold rb_search_tree, rb_weights in S. rewrite EL in S. cbn in S.
      apply StronglySorted_cons in S as [F _].
      apply Forall_cons in F as [F _]. exact F. }
    assert (Hent : forall a c, (a, c) ∈ rb_inorder (weights_tree s) ->
              exists e, e ∈ entities s /\ weight_counter e <> None /\
                        weight e = cnt_weight c).
    { intros a c Hc. destruct (Hcnt a c Hc) as [Hn Hpos].
      destruct (pointed_by_pos_inv a (entities s)) as (e & Hin & Hwc); [lia |].
      destruct (Hptr e a Hin Hwc) as (c' & Hc' & Hw).
      rewrite (NoDup_addrs_unique _ a c' c N Hc' Hc) in Hw.
      exists e. split; [exact Hin |]. split; [congruence | congruence]. }
    destruct (Hent a1 c1 H1) as (e1 & Hi1 & Ht1 & Hw1).
    destruct (Hent a2 c2 H2) as (e2 & Hi2 & Ht2 & Hw2).
    specialize (Hsame e1 e2 Hi1 Hi2 Ht1 Ht2). lia.
  - split; [| reflexivity]. intros _ e1 e2 Hi1 Hi2 Ht1 Ht2.
    assert (Hlen1 : (length (rb_inorder (weights_tree s)) < 2)%nat).
    { destruct (le_lt_dec 2 (length (rb_inorder (weights_tree s))))
        as [Hge | Hlt]; [| exact Hlt].
      apply Hd in Hge. discriminate. }
    destruct (weight_counter e1) as [b1 |] eqn:W1; [| congruence].
    destruct (weight_counter e2) as [b2 |] eqn:W2; [| congruence].
    destruct (Hptr e1 b1 Hi1 W1) as (d1 & Hd1 & <-).
    destruct (Hptr e2 b2 Hi2 W2) as (d2 & Hd2 & <-).
    destruct (rb_inorder (weights_tree s)) as [| n [| n' l]];
      [inversion Hd1 | | cbn in Hlen1; lia].
    apply list_elem_of_singleton in Hd1, Hd2. congruence.
Qed.

End WeightsTreeMore.

(** ** The allocator fails *)

(** For an entity without a counter, [bfq_weights_tree_add] fails exactly
    when no counter has the weight of the entity and the allocator
    returns null: the null pointer is stored in [weight_counter] and
    written through. *)
Lemma bfq_weights_tree_add_fails
    (rb_insert_color : nat -> rb_root -> rb_root) (kzalloc : option nat)
    (entity : bfq_entity) (root : rb_root) :
  weight_counter entity = None ->
  rb_search_tree root ->
  bfq_weights_tree_add rb_insert_color kzalloc entity root = None <->
  kzalloc = None /\ weight entity ∉ rb_weights root.
Proof.
  intros Hwc S. unfold bfq_weights_tree_add. rewrite Hwc.
  destruct (weights_tree_walk (weight entity) root) as [a |] eqn:W.
  - split; [discriminate |]. intros [_ Hnot]. exfalso. apply Hnot.
    destruct (weights_tree_walk_Some _ _ _ W) as (c & Hc & Hw).
    unfold rb_weights. rewrite <- Hw.
    apply (list_elem_of_fmap_2 (λ n, cnt_weight (snd n)) _ _ Hc).
  - pose proof (weights_tree_walk_None _ _ S W) as Hnot.
    destruct kzalloc as [a |].
    + split; [discriminate | intros [Hk _]; discriminate Hk].
    + split; [intros _; split; [reflexivity | exact Hnot] | reflexivity].
Qed.

(** C7: the round trip fails for an entity without a counter whose
    weight, 100, has no counter in a tree of the weights 50 and 200,
    when the allocator returns null: [bfq_weights_tree_add] writes
    through the null pointer, whatever [rb_insert_color] does, so that
    there is no tree for [bfq_weights_tree_remove] to restore; with a
    counter from the allocator the same add returns. *)
Theorem bfq_weights_tree_add_kzalloc_null :
  weight_counter sample_entity = None /\
  weight sample_entity = 100 /\
  rb_weights sample_root = [50; 200] /\
  (forall rb_insert_color,
     bfq_weights_tree_add rb_insert_color None sample_entity sample_root
     = None) /\
  (forall rb_insert_color a,
     bfq_weights_tree_add rb_insert_color (Some a) sample_entity sample_root
     <> None).
Proof.
  assert (S : rb_search_tree sample_root)
    by (unfold rb_search_tree; cbn; repeat constructor).
  split; [reflexivity |]. split; [reflexivity |]. split; [reflexivity |].
  split.
  - intros rb_insert_color.
    apply (bfq_weights_tree_add_fails rb_insert_color None sample_entity
             sample_root eq_refl S).
    split; [reflexivity |].
    refine (bool_decide_unpack _ _). vm_compute. exact I.
  - intros rb_insert_color a H.
    apply (bfq_weights_tree_add_fails rb_insert_color (Some a) sample_entity
             sample_root eq_refl S) in H.
    destruct H as [H _]. discriminate H.
Qed.

(** ** The further properties at work *)

Lemma sample_add_bfqq_busy_budget (st : bfq_data) (q : nat) (z : bfq_queue) :
  bfqqs st !! q = Some z ->
  exists z', bfqqs (sample_add_bfqq_busy st q) !! q = Some z' /\
             budget (entity z') = budget (entity z) /\
             next_rq z' = next_rq z.
Proof.
  intros Hz. unfold sample_add_bfqq_busy, sample_activate_bfqq.
  rewrite !bfqqs_upd_bfqq, !lookup_alter_eq, Hz. cbn.
  eexists. split; [reflexivity |]. split; reflexivity.
Qed.

Lemma sample_activate_bfqq_wr_state : keeps_wr_state sample_activate_bfqq.
Proof.
  intros st q q'. unfold sample_activate_bfqq. rewrite bfqqs_upd_bfqq.
  destruct (decide (q = q')) as [<- | Hne].
  - rewrite lookup_alter_eq. destruct (bfqqs st !! q); reflexivity.
  - rewrite lookup_alter_ne by exact Hne. reflexivity.
Qed.

Lemma sample_add_bfqq_busy_wr_state : keeps_wr_state sample_add_bfqq_busy.
Proof.
  intros st q q'. unfold sample_add_bfqq_busy.
  rewrite <- (sample_activate_bfqq_wr_state st q q').
  rewrite bfqqs_upd_bfqq.
  destruct (decide (q = q')) as [<- | Hne].
  - rewrite lookup_alter_eq.
    destruct (bfqqs (sample_activate_bfqq st q) !! q); reflexivity.
  - rewrite lookup_alter_ne by exact Hne. reflexivity.
Qed.

Lemma two_counter_state_reachable :
  weights_reachable plain_insert_color plain_erase two_counter_state.
Proof.
  apply (reach_step _ _ (OpAdd 2 (Some 3%nat)) shared_counter_state);
    [| refine (bool_decide_unpack _ _); vm_compute; exact I | reflexivity].
  apply (reach_step _ _ (OpAdd 1 (Some 2%nat)) one_counter_state);
    [| refine (bool_decide_unpack _ _); vm_compute; exact I | reflexivity].
  apply (reach_step _ _ (OpAdd 0 (Some 1%nat))
           {| entities := sample_entities; weights_tree := RbNil |});
    [| refine (bool_decide_unpack _ _); vm_compute; exact I | reflexivity].
  apply reach_init. repeat constructor.
Qed.

Lemma sample_root_search_tree : rb_search_tree sample_root.
Proof.
  unfold rb_search_tree. cbn. repeat constructor.
Qed.

Lemma bfq_choose_req_order_witness :
  bfq_choose_req sample_rq_at REQ_META_mask rw_is_sync
    (sample_bfqd ∅ true 0 false []) (Some 1%nat) (Some 2%nat) 1000 =
  bfq_choose_req sample_rq_at REQ_META_mask rw_is_sync
    (sample_bfqd ∅ true 0 false []) (Some 2%nat) (Some 1%nat) 1000.
Proof.
  apply (proj1 (bfq_choose_req_order sample_rq_at REQ_META_mask rw_is_sync
                  (sample_bfqd ∅ true 0 false []) 1 2 1000)).
  cbn. lia.
Defined.

Lemma bfq_find_next_rq_other_witness :
  exists r,
    bfq_find_next_rq sample_rq_at REQ_META_mask rw_is_sync
      (sample_bfqd ∅ true 0 false []) three_rq_bfqq 2 = Some r /\
    (r = None <-> sort_list three_rq_bfqq = [2%nat]) /\
    (forall p, r = Some p -> p ∈ sort_list three_rq_bfqq /\ p <> 2%nat).
Proof.
  apply (bfq_find_next_rq_other sample_rq_at REQ_META_mask rw_is_sync
           (sample_bfqd ∅ true 0 false []) three_rq_bfqq 2).
  - refine (bool_decide_unpack _ _). vm_compute. exact I.
  - refine (bool_decide_unpack _ _). vm_compute. exact I.
Defined.

Lemma bfq_serv_to_charge_bounds_witness :
  blk_rq_sectors (sample_rq_at 3)
    <= bfq_serv_to_charge (sample_rq_at 3) (sample_bfqq false false 1) /\
  bfq_serv_to_charge (sample_rq_at 3) (sample_bfqq false false 1)
    <= (1 + bfq_async_charge_factor) * blk_rq_sectors (sample_rq_at 3) /\
  bfq_serv_to_charge (sample_rq_at 3) (sample_bfqq false false 1) < 2 ^ 27.
Proof.
  apply (bfq_serv_to_charge_bounds (sample_rq_at 3)
           (sample_bfqq false false 1)).
  cbn. lia.
Defined.

(** Without the bound on the quotient the order can be reversed: the
    duration of the slower device is cut to 32 bits. *)
Example bfq_wr_duration_wraps :
  bfq_wr_duration (rate_bfqd (2 ^ 32) 1) = 0 /\
  bfq_wr_duration (rate_bfqd (2 ^ 32) 2) = 2147483648.
Proof. split; reflexivity. Qed.

Lemma bfq_wr_duration_faster_device_witness :
  bfq_wr_duration fast_bfqd
    <= bfq_wr_duration (sample_bfqd ∅ true 0 false []).
Proof.
  apply (bfq_wr_duration_faster_device (sample_bfqd ∅ true 0 false [])
           fast_bfqd);
    first [reflexivity | cbn; lia | vm_compute; reflexivity].
Defined.

Lemma bfq_handle_burst_NoDup_witness :
  NoDup (burst_list (bfq_handle_burst 10010
           (sample_bfqd burst_queues true 3 false [3; 2; 1]%nat) 8 false)).
Proof.
  apply (bfq_handle_burst_NoDup 10010
           (sample_bfqd burst_queues true 3 false [3; 2; 1]%nat) 8 false).
  refine (bool_decide_unpack _ _). vm_compute. exact I.
Defined.

Lemma bfq_handle_burst_inv_witness :
  let st' := bfq_handle_burst 10010 burst_bfqd 8 false in
  bfq_large_burst_thresh st' = bfq_large_burst_thresh burst_bfqd /\
  burst_inv st' /\
  Z.of_nat (length (burst_list st')) < bfq_large_burst_thresh st'.
Proof.
  apply (bfq_handle_burst_inv 10010 burst_bfqd 8 false).
  - cbn. lia.
  - split; [discriminate |]. intros _. cbn. lia.
Defined.

Lemma bfq_handle_burst_late_witness :
  let st' := bfq_handle_burst 10033 burst_bfqd 8 false in
  large_burst st' = false /\
  burst_list st' = [8%nat] /\
  burst_size st' = 1 /\
  in_large_burst_at 8 st' = false /\
  (forall q', q' <> 8%nat -> bfqqs st' !! q' = bfqqs burst_bfqd !! q').
Proof.
  apply (bfq_handle_burst_late 10033 burst_bfqd 8 false).
  - right. split; [| reflexivity].
    refine (bool_decide_unpack _ _). vm_compute. exact I.
  - reflexivity.
Defined.

Lemma bfq_handle_burst_frame_witness :
  bfqqs (bfq_handle_burst 10010 burst_bfqd 8 false) !! 3%nat
    = Some (sample_bfqq true false 1) \/
  bfqqs (bfq_handle_burst 10010 burst_bfqd 8 false) !! 3%nat
    = Some (bfq_mark_bfqq_in_large_burst (sample_bfqq true false 1)).
Proof.
  destruct (bfq_handle_burst_frame 10010 burst_bfqd 8 false) as (_ & _ & H).
  apply (H 3%nat (sample_bfqq true false 1));
    [discriminate | vm_compute; reflexivity].
Defined.

Lemma bfq_handle_burst_again_witness :
  let st' := bfq_handle_burst 10010 burst_bfqd 8 false in
  (8%nat ∈ burst_list st' \/ in_large_burst_at 8 st' = true) /\
  bfq_handle_burst 10500 st' 8 false = st'.
Proof.
  apply (bfq_handle_burst_again 10010 10500 burst_bfqd 8 false).
  eexists. reflexivity.
Defined.

Lemma bfq_add_request_in_service_witness :
  exists bfqd' bfqq',
    (forall activate add_busy,
       bfq_add_request sample_rq_at REQ_META_mask rw_is_sync
         sample_last_end_request sample_elv_rb_add activate add_busy
         100 in_service_bfqd 2 7 = Some bfqd') /\
    bfqqs bfqd' !! 7%nat = Some bfqq' /\
    budget (entity bfqq') = 0 /\
    in_service_queue bfqd' = Some 7%nat.
Proof.
  apply (bfq_add_request_in_service sample_rq_at REQ_META_mask rw_is_sync
           sample_last_end_request sample_elv_rb_add 100 in_service_bfqd
           2 7 _ eq_refl eq_refl eq_refl).
Defined.

Lemma bfq_add_request_idle_budget_witness :
  exists bfqd' bfqq' next,
    bfq_add_request sample_rq_at REQ_META_mask rw_is_sync
      sample_last_end_request sample_elv_rb_add sample_activate_bfqq
      sample_add_bfqq_busy 100 idle_bfqd 1 7 = Some bfqd' /\
    bfqqs bfqd' !! 7%nat = Some bfqq' /\
    next_rq bfqq' = Some next /\
    (Some next = next_rq (sample_bfqq true false 1) \/ next = 1%nat) /\
    budget (entity bfqq') =
      max_ulong (max_budget (sample_bfqq true false 1))
        (bfq_serv_to_charge (sample_rq_at next)
                            (sample_bfqq true false 1)) /\
    u64 (max_budget (sample_bfqq true false 1)) <= budget (entity bfqq') /\
    bfq_serv_to_charge (sample_rq_at next) (sample_bfqq true false 1)
      <= budget (entity bfqq').
Proof.
  apply (bfq_add_request_idle_budget sample_rq_at REQ_META_mask rw_is_sync
           sample_last_end_request sample_elv_rb_add sample_activate_bfqq
           sample_add_bfqq_busy 100 idle_bfqd 1 7
           (sample_bfqq true false 1)).
  - exact sample_add_bfqq_busy_budget.
  - reflexivity.
  - reflexivity.
Defined.

Lemma bfq_add_request_low_latency_off_witness :
  exists bfqd',
    bfq_add_request sample_rq_at REQ_META_mask rw_is_sync
      sample_last_end_request sample_elv_rb_add sample_activate_bfqq
      sample_add_bfqq_busy 100 (raised_bfqd false) 1 7 = Some bfqd' /\
    wr_state <$> bfqqs bfqd' !! 7%nat = Some (30, 0, 0).
Proof.
  destruct (bfq_add_request sample_rq_at REQ_META_mask rw_is_sync
              sample_last_end_request sample_elv_rb_add sample_activate_bfqq
              sample_add_bfqq_busy 100 (raised_bfqd false) 1 7)
    as [bfqd' |] eqn:E; [| vm_compute in E; discriminate E].
  exists bfqd'. split; [reflexivity |].
  rewrite (bfq_add_request_low_latency_off sample_rq_at REQ_META_mask
             rw_is_sync sample_last_end_request sample_elv_rb_add
             sample_activate_bfqq sample_add_bfqq_busy 100
             (raised_bfqd false) bfqd' 1 7
             sample_activate_bfqq_wr_state sample_add_bfqq_busy_wr_state
             eq_refl E 7%nat).
  reflexivity.
Defined.

Lemma bfq_add_request_wr_coeff_moves_witness :
  exists bfqd' bfqq',
    bfq_add_request sample_rq_at REQ_META_mask rw_is_sync
      sample_last_end_request sample_elv_rb_add sample_activate_bfqq
      sample_add_bfqq_busy 100 idle_bfqd 1 7 = Some bfqd' /\
    bfqqs bfqd' !! 7%nat = Some bfqq' /\
    (wr_coeff bfqq' = wr_coeff (sample_bfqq true false 1) \/
     (wr_coeff (sample_bfqq true false 1) = 1 /\
      wr_coeff bfqq' = bfq_wr_coeff idle_bfqd /\
      low_latency idle_bfqd = true /\
      bfq_bfqq_in_large_burst bfqq' = false /\
      (bfq_bfqq_sync (sample_bfqq true false 1) = false \/
       bic (sample_bfqq true false 1) <> None)) \/
     (1 < wr_coeff (sample_bfqq true false 1) /\ wr_coeff bfqq' = 1 /\
      low_latency idle_bfqd = true)).
Proof.
  apply (bfq_add_request_wr_coeff_moves sample_rq_at REQ_META_mask
           rw_is_sync sample_last_end_request sample_elv_rb_add
           sample_activate_bfqq sample_add_bfqq_busy 100 idle_bfqd 1 7
           (sample_bfqq true false 1)).
  - exact sample_add_bfqq_busy_frame.
  - reflexivity.
  - reflexivity.
Defined.

Lemma weights_tree_walk_correct_witness :
  (forall a, weights_tree_walk 200 sample_root = Some a <->
             exists c, (a, c) ∈ rb_inorder sample_root /\
                       cnt_weight c = 200) /\
  (weights_tree_walk 200 sample_root = None <->
   200 ∉ rb_weights sample_root).
Proof.
  apply (weights_tree_walk_correct 200 sample_root).
  exact sample_root_search_tree.
Defined.

Lemma bfq_weights_tree_counts_witness :
  rb_search_tree (weights_tree two_counter_state) /\
  NoDup (rb_addrs (weights_tree two_counter_state)) /\
  (forall a c, (a, c) ∈ rb_inorder (weights_tree two_counter_state) ->
     num_active c = Z.of_nat (pointed_by a (entities two_counter_state)) /\
     0 < num_active c) /\
  (forall e a, e ∈ entities two_counter_state ->
     weight_counter e = Some a ->
     exists c, (a, c) ∈ rb_inorder (weights_tree two_counter_state) /\
               cnt_weight c = weight e).
Proof.
  apply (bfq_weights_tree_counts plain_insert_color plain_erase
           plain_insert_color_inorder plain_erase_inorder two_counter_state).
  - exact two_counter_state_reachable.
  - cbn. lia.
Defined.

Lemma bfq_weights_tree_no_bug_witness :
  (exists s', weights_step plain_insert_color plain_erase (OpRemove 2)
                two_counter_state = Some s') /\
  (exists s', weights_step plain_insert_color plain_erase
                (OpAdd 2 (Some 9%nat)) two_counter_state = Some s').
Proof.
  apply (bfq_weights_tree_no_bug plain_insert_color plain_erase
           plain_insert_color_inorder plain_erase_inorder two_counter_state
           2 9).
  - exact two_counter_state_reachable.
  - cbn. lia.
  - cbn. lia.
Defined.


Lemma bfq_symmetric_scenario_same_weight_witness :
  (bfq_differentiated_weights false (weights_tree two_counter_state) RbNil
   = true <->
   (2 <= length (rb_inorder (weights_tree two_counter_state)))%nat) /\
  (bfq_symmetric_scenario false 0 (weights_tree two_counter_state) RbNil
   = true <->
   forall e1 e2, e1 ∈ entities two_counter_state ->
     e2 ∈ entities two_counter_state ->
     weight_counter e1 <> None -> weight_counter e2 <> None ->
     weight e1 = weight e2).
Proof.
  apply (bfq_symmetric_scenario_same_weight plain_insert_color plain_erase
           plain_insert_color_inorder plain_erase_inorder two_counter_state
           0 RbNil).
  - exact two_counter_state_reachable.
  - cbn. lia.
Defined.
